(** * archive.py: a slotted-page record store

    A shallow embedding of [archive.py] -- the catalog reader, the
    fixed-width record codec, the page scans and the four request
    handlers -- and the properties of it that the specification states.

    Conventions of the embedding:
    - a Python [str] is the list of its code points ([pystr]), a [bytes]
      or [bytearray] object the list of its byte values ([bytes]), both
      over [Z];
    - a Python [int] is a [Z];
    - an exception raised by the code is a [Raise] result; a handler
      returns its result together with the file system it leaves behind;
    - the files the program touches ([catalog.meta], the [<type>.dat]
      files, [log.csv]) are the fields of [fs]. *)

From Stdlib Require Import ZArith String Ascii DecimalString List Lia.
From Stdlib Require DecimalPos.
From stdpp Require Import gmap list.

Local Open Scope Z_scope.

(** ** Python values *)

Abbreviation pystr := (list Z) (only parsing).
Abbreviation bytes := (list Z) (only parsing).

(** A string literal of the source, as code points. *)
Definition str (s : string) : pystr :=
  (λ a, Z.of_nat (nat_of_ascii a)) <$> list_ascii_of_string s.

(** What the [str] type guarantees of each code point. *)
Definition code_point (c : Z) : Prop := 0 ≤ c < 1114112.
(** The code points [encode("utf-8")] accepts: no surrogates. *)
Definition scalar_value (c : Z) : Prop :=
  0 ≤ c < 55296 ∨ 57344 ≤ c < 1114112.
(** What the [bytes] type guarantees of each element. *)
Definition byte_value (b : Z) : Prop := 0 ≤ b < 256.

Definition len {A} (l : list A) : Z := Z.of_nat (length l).

(** The exceptions the code can raise; [LoopBound] is not one of
    Python's: a loop of the embedding returns it when its bound on the
    number of turns is used up. *)
Inductive exn :=
| ValueError | OverflowError | UnicodeEncodeError | IndexError | OSError
| LoopBound.

#[global] Instance exn_eq_dec : EqDecision exn.
Proof. solve_decision. Defined.

Inductive result (A : Type) :=
| Ok (a : A)
| Raise (e : exn).
Arguments Ok {A} a.
Arguments Raise {A} e.

(** [except ValueError] also catches [UnicodeEncodeError], a subclass. *)
Definition is_value_error (e : exn) : bool :=
  match e with
  | ValueError | UnicodeEncodeError => true
  | _ => false
  end.

#[global] Instance result_bind : MBind result := λ A B k r,
  match r with
  | Ok a => k a
  | Raise e => Raise e
  end.

(** [l[i]] with Python's negative indices. *)
Definition py_index {A} (l : list A) (i : Z) : result A :=
  let j := if i <? 0 then i + len l else i in
  if j <? 0 then Raise IndexError
  else match l !! Z.to_nat j with
       | Some x => Ok x
       | None => Raise IndexError
       end.

(** [l[lo:hi]] with Python's clamping of either bound. *)
Definition clamp_index (n i : Z) : Z :=
  let j := if i <? 0 then i + n else i in
  Z.max 0 (Z.min n j).

Definition py_slice {A} (l : list A) (lo hi : Z) : list A :=
  let a := clamp_index (len l) lo in
  let b := clamp_index (len l) hi in
  take (Z.to_nat (b - a)) (drop (Z.to_nat a) l).

(** ** Text primitives *)

(** [str.isspace], the characters [str.strip()] removes. *)
Definition is_space (c : Z) : bool :=
  ((9 <=? c) && (c <=? 13)) || ((28 <=? c) && (c <=? 32))
  || (c =? 133) || (c =? 160) || (c =? 5760)
  || ((8192 <=? c) && (c <=? 8202))
  || (c =? 8232) || (c =? 8233) || (c =? 8239) || (c =? 8287)
  || (c =? 12288).

(** The blanks [int()] skips around a literal: as [is_space], without
    the four separators U+001C..U+001F. *)
Definition is_int_space (c : Z) : bool :=
  is_space c && negb ((28 <=? c) && (c <=? 31)).

Fixpoint lstrip_by (p : Z → bool) (s : pystr) : pystr :=
  match s with
  | c :: r => if p c then lstrip_by p r else s
  | [] => []
  end.

Fixpoint rstrip_by (p : Z → bool) (s : pystr) : pystr :=
  match s with
  | c :: r =>
      match rstrip_by p r with
      | [] => if p c then [] else [c]
      | r' => c :: r'
      end
  | [] => []
  end.

Definition strip (s : pystr) : pystr := rstrip_by is_space (lstrip_by is_space s).

(** [bytes.rstrip(b'\x00')]. *)
Definition rstrip_zero (b : bytes) : bytes := rstrip_by (Z.eqb 0) b.

(** Cut [s] at every character that satisfies [p]. *)
Fixpoint split_when (p : Z → bool) (s : pystr) : list pystr :=
  match s with
  | [] => [[]]
  | c :: r =>
      if p c then [] :: split_when p r
      else match split_when p r with
           | w :: ws => (c :: w) :: ws
           | [] => [[c]]
           end
  end.

(** [s.split(sep)] for a one-character separator. *)
Definition split_on (sep : Z) (s : pystr) : list pystr :=
  split_when (Z.eqb sep) s.

(** [sep.join(parts)]. *)
Fixpoint join (sep : pystr) (parts : list pystr) : pystr :=
  match parts with
  | [] => []
  | [p] => p
  | p :: ps => p ++ sep ++ join sep ps
  end.

(** *** [int(s)]

    The decimal literal grammar of [int()]: blanks, an optional sign,
    digits with single underscores between them, blanks.  Digits are the
    ASCII ones; the embedding parses no other decimal digit and applies
    no limit to the number of digits. *)

Definition is_digit (c : Z) : bool := (48 <=? c) && (c <=? 57).

(** [digits_from acc prev_us s]: the digit run after at least one digit;
    [prev_us] tells that the previous character was an underscore. *)
Fixpoint digits_from (acc : Z) (prev_us : bool) (s : pystr) : option (Z * pystr) :=
  match s with
  | c :: r =>
      if is_digit c then digits_from (acc * 10 + (c - 48)) false r
      else if c =? 95 then
        if prev_us then None else digits_from acc true r
      else if prev_us then None else Some (acc, s)
  | [] => if prev_us then None else Some (acc, [])
  end.

Definition py_int (s : pystr) : option Z :=
  let s1 := lstrip_by is_int_space s in
  let '(neg, s2) :=
    match s1 with
    | 43 :: r => (false, r)
    | 45 :: r => (true, r)
    | _ => (false, s1)
    end in
  match s2 with
  | c :: r =>
      if is_digit c then
        match digits_from (c - 48) false r with
        | Some (n, rest) =>
            match lstrip_by is_int_space rest with
            | [] => Some (if neg then - n else n)
            | _ => None
            end
        | None => None
        end
      else None
  | [] => None
  end.

(** [int(s)] as the code calls it: [ValueError] when it does not parse. *)
Definition int_of_str (s : pystr) : result Z :=
  match py_int s with
  | Some z => Ok z
  | None => Raise ValueError
  end.

(** *** [str(i)] *)

Fixpoint uint_codes (u : Decimal.uint) : pystr :=
  match u with
  | Decimal.Nil => []
  | Decimal.D0 r => 48 :: uint_codes r
  | Decimal.D1 r => 49 :: uint_codes r
  | Decimal.D2 r => 50 :: uint_codes r
  | Decimal.D3 r => 51 :: uint_codes r
  | Decimal.D4 r => 52 :: uint_codes r
  | Decimal.D5 r => 53 :: uint_codes r
  | Decimal.D6 r => 54 :: uint_codes r
  | Decimal.D7 r => 55 :: uint_codes r
  | Decimal.D8 r => 56 :: uint_codes r
  | Decimal.D9 r => 57 :: uint_codes r
  end.

Definition str_of_int (z : Z) : pystr :=
  match Z.to_int z with
  | Decimal.Pos u => uint_codes u
  | Decimal.Neg u => 45 :: uint_codes u
  end.

(** *** UTF-8 *)

(** The bytes of one code point; a surrogate has none. *)
Definition utf8_encode_cp (c : Z) : result bytes :=
  if c <? 128 then Ok [c]
  else if c <? 2048 then Ok [192 + c / 64; 128 + c mod 64]
  else if c <? 65536 then
    if (55296 <=? c) && (c <? 57344) then Raise UnicodeEncodeError
    else Ok [224 + c / 4096; 128 + (c / 64) mod 64; 128 + c mod 64]
  else Ok [240 + c / 262144; 128 + (c / 4096) mod 64;
           128 + (c / 64) mod 64; 128 + c mod 64].

(** [s.encode("utf-8")]. *)
Fixpoint utf8_encode (s : pystr) : result bytes :=
  match s with
  | [] => Ok []
  | c :: r =>
      b ← utf8_encode_cp c;
      bs ← utf8_encode r;
      Ok (b ++ bs)
  end.

Definition is_cont (b : Z) : bool := (128 <=? b) && (b <? 192).

(** [b.decode("utf-8", errors=...)], the decoder of CPython: [err] is
    what the error handler puts in place of each rejected run of bytes,
    nothing for ["ignore"] and U+FFFD for ["replace"].  A bad lead byte
    or a lead byte with a bad first continuation is rejected alone, a
    sequence that breaks later is rejected up to the break, a sequence
    cut by the end of the input is rejected whole. *)
Fixpoint utf8_decode (err : pystr) (b : bytes) : pystr :=
  match b with
  | [] => []
  | b0 :: r0 =>
      if b0 <? 128 then b0 :: utf8_decode err r0
      else if b0 <? 194 then err ++ utf8_decode err r0
      else if b0 <? 224 then
        match r0 with
        | [] => err
        | b1 :: r1 =>
            if is_cont b1
            then ((b0 - 192) * 64 + (b1 - 128)) :: utf8_decode err r1
            else err ++ utf8_decode err r0
        end
      else if b0 <? 240 then
        match r0 with
        | [] => err
        | b1 :: r1 =>
            if negb (is_cont b1) || ((b0 =? 224) && (b1 <? 160))
               || ((b0 =? 237) && (160 <=? b1))
            then err ++ utf8_decode err r0
            else match r1 with
                 | [] => err
                 | b2 :: r2 =>
                     if is_cont b2
                     then ((b0 - 224) * 4096 + (b1 - 128) * 64 + (b2 - 128))
                            :: utf8_decode err r2
                     else err ++ utf8_decode err r1
                 end
        end
      else if b0 <? 245 then
        match r0 with
        | [] => err
        | b1 :: r1 =>
            if negb (is_cont b1) || ((b0 =? 240) && (b1 <? 144))
               || ((b0 =? 244) && (144 <=? b1))
            then err ++ utf8_decode err r0
            else match r1 with
                 | [] => err
                 | b2 :: r2 =>
                     if negb (is_cont b2) then err ++ utf8_decode err r1
                     else match r2 with
                          | [] => err
                          | b3 :: r3 =>
                              if is_cont b3
                              then ((b0 - 240) * 262144 + (b1 - 128) * 4096
                                    + (b2 - 128) * 64 + (b3 - 128))
                                     :: utf8_decode err r3
                              else err ++ utf8_decode err r2
                          end
                 end
        end
      else err ++ utf8_decode err r0
  end.

(** [errors="ignore"], what the source passes. *)
Definition decode_ignore : bytes → pystr := utf8_decode [].

(** ** Constants of the page and record layout *)

Definition NUM_SLOTS : Z := 10.
Definition PAGE_HEADER_SIZE : Z := 1 + NUM_SLOTS.
Definition MAX_PAGES : Z := 1000.

(** [x.to_bytes(n, "big")] of an unsigned value. *)
Fixpoint be_bytes (n : nat) (u : Z) : bytes :=
  match n with
  | O => []
  | S n' => be_bytes n' (u / 256) ++ [u mod 256]
  end.

(** [int_to_bytes]: [x.to_bytes(4, byteorder="big", signed=True)]. *)
Definition int_to_bytes (x : Z) : result bytes :=
  if (-2147483648 <=? x) && (x <? 2147483648)
  then Ok (be_bytes 4 (x mod 4294967296))
  else Raise OverflowError.

Definition be_value (b : bytes) : Z := fold_left (λ acc x, acc * 256 + x) b 0.

(** [bytes_to_int]: [int.from_bytes(b, byteorder="big", signed=True)]. *)
Definition bytes_to_int (b : bytes) : Z :=
  let u := be_value b in
  let w := 8 * len b in
  if (0 <? w) && (2 ^ (w - 1) <=? u) then u - 2 ^ w else u.

(** ** Catalog *)

Definition kw_int : pystr := Eval cbv in str "int".
Definition kw_str : pystr := Eval cbv in str "str".
Definition bar : Z := 124.
Definition comma : Z := 44.

(** A field of a schema: [(fname, ftype, flen)]. *)
Definition field : Type := pystr * pystr * Z.

(** A catalog entry: the dict with keys ["num_fields"], ["pk_index"] and
    ["fields"]. *)
Record schema := Schema {
  num_fields : Z;
  pk_index : Z;
  fields : list field
}.

(** The files of the program: the text of [catalog.meta], the contents
    of the [.dat] files by file name, and the lines of [log.csv], each
    the operation and its status (the time stamp is left out). *)
Record fs := Fs {
  catalog_meta : pystr;
  dat_files : gmap pystr bytes;
  log_csv : list (pystr * bool)
}.

(** The lines a text-mode file yields: the text is cut at each line
    break, ["\n"] or ["\r"] under universal newlines.  The terminator,
    which [strip()] removes first thing, is left out, and a ["\r\n"]
    gives one more empty line, which the loop skips. *)
Definition file_lines (text : pystr) : list pystr :=
  split_when (λ c, (c =? 10) || (c =? 13)) text.

(** [fname, ftype, flen_str = fld.split(","); flen = int(flen_str)]. *)
Definition parse_field (fld : pystr) : result field :=
  match split_on comma fld with
  | [fname; ftype; flen_str] =>
      flen ← int_of_str flen_str;
      Ok (fname, ftype, flen)
  | _ => Raise ValueError
  end.

Fixpoint parse_fields (flds : list pystr) : result (list field) :=
  match flds with
  | [] => Ok []
  | fld :: r =>
      f ← parse_field fld;
      fs ← parse_fields r;
      Ok (f :: fs)
  end.

(** The body of the [try] of [read_catalog]: [None] is the [continue]
    of the sanity check, [Some] the entry to store. *)
Definition parse_entry (parts : list pystr) : result (option (pystr * schema)) :=
  match parts with
  | tname :: nf_str :: pk_str :: flds =>
      nf ← int_of_str nf_str;
      pk ← int_of_str pk_str;
      fields ← parse_fields flds;
      if bool_decide (len fields ≠ nf) then Ok None
      else Ok (Some (tname, Schema nf pk fields))
  | _ => Raise ValueError
  end.

(** One turn of the loop of [read_catalog]. *)
Definition read_catalog_line (catalog : gmap pystr schema) (line : pystr)
  : result (gmap pystr schema) :=
  let line := strip line in
  if bool_decide (line = []) then Ok catalog
  else
    let parts := split_on bar line in
    if len parts <? 3 then Ok catalog
    else
      match parse_entry parts with
      | Ok (Some (tname, entry)) => Ok (<[tname := entry]> catalog)
      | Ok None => Ok catalog
      | Raise e =>
          if is_value_error e || bool_decide (e = IndexError) then Ok catalog
          else Raise e
      end.

Fixpoint read_catalog_lines (catalog : gmap pystr schema) (lines : list pystr)
  : result (gmap pystr schema) :=
  match lines with
  | [] => Ok catalog
  | line :: r =>
      catalog' ← read_catalog_line catalog line;
      read_catalog_lines catalog' r
  end.

Definition read_catalog (s : fs) : result (gmap pystr schema) :=
  read_catalog_lines ∅ (file_lines (catalog_meta s)).

Definition format_field (f : field) : pystr :=
  let '(fname, ftype, flen) := f in
  fname ++ [comma] ++ ftype ++ [comma] ++ str_of_int flen.

Definition write_catalog_entry (tname : pystr) (num_fields pk_index : Z)
    (fields_list : list field) (s : fs) : fs :=
  let entry :=
    join [bar] ([tname; str_of_int num_fields; str_of_int pk_index]
                ++ (format_field <$> fields_list)) in
  Fs (catalog_meta s ++ entry ++ [10]) (dat_files s) (log_csv s).

(** ** Record codec *)

Definition compute_record_size (fields : list field) : Z :=
  fold_left (λ total f, total + f.2) fields 1.

(** The bytes [pack_record] appends for one field. *)
Definition pack_field (ftype : pystr) (flen : Z) (val : pystr) : result bytes :=
  if bool_decide (ftype = kw_int) then
    ival ← int_of_str val;
    int_to_bytes ival
  else
    s ← utf8_encode val;
    let s := if flen <? len s then py_slice s 0 flen else s in
    Ok (s ++ replicate (Z.to_nat (flen - len s)) 0).

(** The loop of [pack_record] over [zip(fields, values)]. *)
Fixpoint pack_fields (fields : list field) (values : list pystr) : result bytes :=
  match fields, values with
  | (fname, ftype, flen) :: fs, val :: vs =>
      chunk ← pack_field ftype flen val;
      rest ← pack_fields fs vs;
      Ok (chunk ++ rest)
  | _, _ => Ok []
  end.

Definition pack_record (fields : list field) (values : list pystr) : result bytes :=
  rest ← pack_fields fields values;
  Ok (1 :: rest).

(** The text [unpack_record] appends for one field. *)
Definition unpack_field (ftype : pystr) (chunk : bytes) : pystr :=
  if bool_decide (ftype = kw_int) then str_of_int (bytes_to_int chunk)
  else decode_ignore (rstrip_zero chunk).

(** The loop of [unpack_record], from [offset] on. *)
Fixpoint unpack_fields (fields : list field) (record_bytes : bytes) (offset : Z)
  : list pystr :=
  match fields with
  | [] => []
  | (fname, ftype, flen) :: fs =>
      let chunk := py_slice record_bytes offset (offset + flen) in
      unpack_field ftype chunk :: unpack_fields fs record_bytes (offset + flen)
  end.

Definition unpack_record (fields : list field) (record_bytes : bytes) : list pystr :=
  unpack_fields fields record_bytes 1.

(** ** Data files *)

(** [f.seek(pos)] followed by [f.read(n)] on a binary file. *)
Definition read_at (f : bytes) (pos n : Z) : result bytes :=
  if pos <? 0 then Raise OSError
  else if n <? -1 then Raise ValueError
  else if n =? -1 then Ok (drop (Z.to_nat pos) f)
  else Ok (take (Z.to_nat n) (drop (Z.to_nat pos) f)).

(** [f.seek(pos)] followed by [f.write(data)]: a write past the end
    fills the gap with zero bytes, an empty write changes nothing. *)
Definition write_at (f : bytes) (pos : Z) (data : bytes) : result bytes :=
  if pos <? 0 then Raise OSError
  else if bool_decide (data = []) then Ok f
  else Ok (take (Z.to_nat pos) f
           ++ replicate (Z.to_nat pos - length f)%nat 0
           ++ data
           ++ drop (Z.to_nat pos + length data)%nat f).

(** [b[i] = v] on a bytearray. *)
Definition bytearray_set (b : bytes) (i v : Z) : result bytes :=
  if (v <? 0) || (255 <? v) then Raise ValueError
  else
    let j := if i <? 0 then i + len b else i in
    if (j <? 0) || (len b <=? j) then Raise IndexError
    else Ok (<[Z.to_nat j := v]> b).

(** The statements inside a [with open(...) as f] block: they read and
    write the contents of the open file, and what was written stays
    written when a later statement raises. *)
Definition io (A : Type) : Type := bytes → result A * bytes.

#[global] Instance io_ret : MRet io := λ A a f, (Ok a, f).
#[global] Instance io_bind : MBind io := λ A B k m f,
  match m f with
  | (Ok a, f') => k a f'
  | (Raise e, f') => (Raise e, f')
  end.

Definition io_lift {A} (r : result A) : io A := λ f, (r, f).
Definition io_read (pos n : Z) : io bytes := λ f, (read_at f pos n, f).
Definition io_write (pos : Z) (data : bytes) : io unit := λ f,
  match write_at f pos data with
  | Ok f' => (Ok (), f')
  | Raise e => (Raise e, f)
  end.
(** [f.seek(0, os.SEEK_END); f.tell()]. *)
Definition io_size : io Z := λ f, (Ok (len f), f).

Definition dat_filename (tname : pystr) : pystr := tname ++ str ".dat".

Definition page_size_of (rec_size : Z) : Z := PAGE_HEADER_SIZE + NUM_SLOTS * rec_size.

(** ** Page scans *)

Section scan.
Context (f : bytes) (fields : list field) (pk_idx : Z) (pk_value : pystr).
Context (rec_size page_size : Z).

(** The [for slot_idx in range(NUM_SLOTS)] loop of
    [find_record_page_slot] on the page at [page_offset]. *)
Fixpoint scan_slots (page_offset : Z) (slot_bitmap : bytes) (slots : list Z)
  : result (option Z) :=
  match slots with
  | [] => Ok None
  | slot_idx :: rest =>
      b ← py_index slot_bitmap slot_idx;
      if b =? 1 then
        let record_offset := page_offset + PAGE_HEADER_SIZE + slot_idx * rec_size in
        record_bytes ← read_at f record_offset rec_size;
        let values := unpack_record fields record_bytes in
        v ← py_index values pk_idx;
        if bool_decide (v = pk_value) then Ok (Some slot_idx)
        else scan_slots page_offset slot_bitmap rest
      else scan_slots page_offset slot_bitmap rest
  end.

(** The [while True] loop of [find_record_page_slot]; [fuel] bounds the
    number of pages visited. *)
Fixpoint scan_pages (fuel : nat) (page_offset : Z) : result (option (Z * Z)) :=
  match fuel with
  | O => Raise LoopBound
  | S fuel' =>
      header ← read_at f page_offset PAGE_HEADER_SIZE;
      if bool_decide (header = []) || (len header <? PAGE_HEADER_SIZE) then Ok None
      else
        occupied_count ← py_index header 0;
        let slot_bitmap := py_slice header 1 (1 + NUM_SLOTS) in
        if occupied_count =? 0 then scan_pages fuel' (page_offset + page_size)
        else
          found ← scan_slots page_offset slot_bitmap (seqZ 0 NUM_SLOTS);
          match found with
          | Some slot_idx => Ok (Some (page_offset, slot_idx))
          | None => scan_pages fuel' (page_offset + page_size)
          end
  end.
End scan.

(** [find_record_page_slot]: [Some (page_offset, slot_index)] or [None]
    for [(None, None)].  A page start advances by at least one byte per
    turn, so one turn per byte of the file and one more suffice. *)
Definition find_record_page_slot (tname pk_value : pystr) (s : fs)
  : result (option (Z * Z)) :=
  catalog ← read_catalog s;
  match catalog !! tname with
  | None => Ok None
  | Some entry =>
      let fields := fields entry in
      let pk_idx := pk_index entry - 1 in
      let rec_size := compute_record_size fields in
      let page_size := PAGE_HEADER_SIZE + NUM_SLOTS * rec_size in
      match dat_files s !! dat_filename tname with
      | None => Ok None
      | Some f =>
          scan_pages f fields pk_idx pk_value rec_size page_size (S (length f)) 0
      end
  end.

(** The [for idx in range(NUM_SLOTS)] loop of [find_free_slot_in_page]. *)
Fixpoint first_free (slot_bitmap : bytes) (idxs : list Z) : result (option Z) :=
  match idxs with
  | [] => Ok None
  | idx :: rest =>
      b ← py_index slot_bitmap idx;
      if b =? 0 then Ok (Some idx) else first_free slot_bitmap rest
  end.

Definition find_free_slot_in_page (page_offset : Z) (fields : list field)
  : io (option Z) :=
  header ← io_read page_offset PAGE_HEADER_SIZE;
  if len header <? PAGE_HEADER_SIZE then mret None
  else
    occupied_count ← io_lift (py_index header 0);
    if NUM_SLOTS <=? occupied_count then mret None
    else
      let slot_bitmap := py_slice header 1 (1 + NUM_SLOTS) in
      io_lift (first_free slot_bitmap (seqZ 0 NUM_SLOTS)).

(** ** Request handlers *)

(** Which check of a handler refused the request. *)
Inductive invalid :=
| TokenCount       (* too few or too many tokens *)
| NotAnInteger     (* the field count or the key index is no integer *)
| FieldCountRange  (* the field count is outside 1..6 *)
| PkIndexRange     (* the key index is outside 1..field count *)
| TypeNameLength   (* the type name is longer than 12 *)
| FieldTokenCount  (* not two tokens per field *)
| FieldNameLength  (* a field name is longer than 20 *)
| FieldKind        (* a field type is neither int nor str *)
| ValueCount.      (* not one value per field *)

(** The failure kinds of the specification.  The handlers return a bare
    [False] (or [None]) on each of them; the embedding names the
    [return] statement that was taken. *)
Inductive failure :=
| ValidationError (why : invalid)
| SchemaNotFound
| DuplicateType
| DuplicateKey
| RecordNotFound
| EncodeError
| CapacityExceeded
| IOFailure.

Inductive outcome (A : Type) :=
| Success (a : A)
| Failure (e : failure).
Arguments Success {A} a.
Arguments Failure {A} e.

(** The Python value the handler returns is truthy. *)
Definition succeeded {A} (o : outcome A) : bool :=
  match o with
  | Success _ => true
  | Failure _ => false
  end.

Definition log_operation (op_string : pystr) (status : bool) (s : fs) : fs :=
  Fs (catalog_meta s) (dat_files s) (log_csv s ++ [(op_string, status)]).

(** [log_operation(op_string, ...)] followed by [return]. *)
Definition finish {A} (op_string : pystr) (o : outcome A) (s : fs)
  : result (outcome A) * fs :=
  (Ok o, log_operation op_string (succeeded o) s).

Definition space : Z := 32.

(** The loop of step 7 of [handle_create_type] over [range(nf)]. *)
Fixpoint validate_fields (field_tokens : list pystr) (idxs : list Z)
  : result (failure + list field) :=
  match idxs with
  | [] => Ok (inr [])
  | i :: rest =>
      fname ← py_index field_tokens (2 * i);
      ftype ← py_index field_tokens (2 * i + 1);
      if 20 <? len fname then Ok (inl (ValidationError FieldNameLength))
      else if negb (bool_decide (ftype = kw_int) || bool_decide (ftype = kw_str))
      then Ok (inl (ValidationError FieldKind))
      else
        let flen := if bool_decide (ftype = kw_int) then 4 else 20 in
        r ← validate_fields field_tokens rest;
        match r with
        | inl e => Ok (inl e)
        | inr fields_list => Ok (inr ((fname, ftype, flen) :: fields_list))
        end
  end.

(** [handle_create_type].  Creating the empty [.dat] file is taken to
    succeed: the embedding has no failing [open]. *)
Definition handle_create_type (tokens : list pystr) (s : fs)
  : result (outcome unit) * fs :=
  let op_string := join [space] tokens in
  if len tokens <? 6 then finish op_string (Failure (ValidationError TokenCount)) s
  else
    match tokens with
    | _ :: _ :: tname :: nf_str :: pk_str :: field_tokens =>
        match (nf ← int_of_str nf_str; pk ← int_of_str pk_str; Ok (nf, pk)) with
        | Raise e =>
            if is_value_error e
            then finish op_string (Failure (ValidationError NotAnInteger)) s
            else (Raise e, s)
        | Ok (nf, pk_index) =>
            if (nf <? 1) || (6 <? nf)
            then finish op_string (Failure (ValidationError FieldCountRange)) s
            else if (pk_index <? 1) || (nf <? pk_index)
            then finish op_string (Failure (ValidationError PkIndexRange)) s
            else if 12 <? len tname
            then finish op_string (Failure (ValidationError TypeNameLength)) s
            else if bool_decide (len field_tokens ≠ nf * 2)
            then finish op_string (Failure (ValidationError FieldTokenCount)) s
            else
              match read_catalog s with
              | Raise e => (Raise e, s)
              | Ok catalog =>
                  if bool_decide (is_Some (catalog !! tname))
                  then finish op_string (Failure DuplicateType) s
                  else
                    match validate_fields field_tokens (seqZ 0 nf) with
                    | Raise e => (Raise e, s)
                    | Ok (inl e) => finish op_string (Failure e) s
                    | Ok (inr fields_list) =>
                        let s1 := write_catalog_entry tname nf pk_index fields_list s in
                        let s2 := Fs (catalog_meta s1)
                                    (<[dat_filename tname := []]> (dat_files s1))
                                    (log_csv s1) in
                        finish op_string (Success ()) s2
                    end
              end
        end
    | _ => (Raise ValueError, s)
    end.

Section insert.
Context (fields : list field) (record_bytes : bytes).
Context (rec_size page_size : Z).

(** The [while page_offset < file_size] loop of [handle_create_record]:
    [Some ()] when the record went into a free slot, [None] when every
    page was full. *)
Fixpoint fill_free_slot (fuel : nat) (file_size page_offset : Z) : io (option unit) :=
  match fuel with
  | O => io_lift (Raise LoopBound)
  | S fuel' =>
      if page_offset <? file_size then
        free_slot ← find_free_slot_in_page page_offset fields;
        match free_slot with
        | Some free_slot =>
            let record_offset :=
              page_offset + PAGE_HEADER_SIZE + free_slot * rec_size in
            _ ← io_write record_offset record_bytes;
            header ← io_read page_offset PAGE_HEADER_SIZE;
            count ← io_lift (py_index header 0);
            header ← io_lift (bytearray_set header 0 (count + 1));
            header ← io_lift (bytearray_set header (1 + free_slot) 1);
            _ ← io_write page_offset header;
            mret (Some ())
        | None => fill_free_slot fuel' file_size (page_offset + page_size)
        end
      else mret None
  end.

(** The body of the [with open(dat_filename, fmode) as f] block of
    [handle_create_record]. *)
Definition insert_record : io (outcome unit) :=
  file_size ← io_size;
  file_size ←
    (if file_size =? 0 then
       _ ← io_write 0 (replicate (Z.to_nat (1 + NUM_SLOTS)) 0);
       _ ← io_write PAGE_HEADER_SIZE (replicate (Z.to_nat (NUM_SLOTS * rec_size)) 0);
       mret page_size
     else mret file_size);
  placed ← fill_free_slot (S (Z.to_nat file_size)) file_size 0;
  match placed with
  | Some _ => mret (Success ())
  | None =>
      _ ← io_lift (if file_size <? 0 then Raise OSError else Ok ());
      let num_pages := file_size / page_size in
      if MAX_PAGES <=? num_pages then mret (Failure CapacityExceeded)
      else
        let new_header := 1 :: 1 :: replicate (Z.to_nat NUM_SLOTS - 1) 0 in
        _ ← io_write file_size new_header;
        _ ← io_lift (if NUM_SLOTS * rec_size <? 0 then Raise ValueError else Ok ());
        let zeros := replicate (Z.to_nat (NUM_SLOTS * rec_size)) 0 in
        let page_content :=
          record_bytes ++ drop (Z.to_nat (clamp_index (len zeros) rec_size)) zeros in
        _ ← io_write (file_size + PAGE_HEADER_SIZE) page_content;
        mret (Success ())
  end.
End insert.

(** [handle_create_record]. *)
Definition handle_create_record (tokens : list pystr) (s : fs)
  : result (outcome unit) * fs :=
  let op_string := join [space] tokens in
  if len tokens <? 4 then finish op_string (Failure (ValidationError TokenCount)) s
  else
    match tokens with
    | _ :: _ :: tname :: value_tokens =>
        match read_catalog s with
        | Raise e => (Raise e, s)
        | Ok catalog =>
            match catalog !! tname with
            | None => finish op_string (Failure SchemaNotFound) s
            | Some entry =>
                let num_fields := num_fields entry in
                let pk_index := pk_index entry - 1 in
                let fields := fields entry in
                let rec_size := compute_record_size fields in
                let page_size := PAGE_HEADER_SIZE + NUM_SLOTS * rec_size in
                if bool_decide (len value_tokens ≠ num_fields)
                then finish op_string (Failure (ValidationError ValueCount)) s
                else
                  match (pk_value ← py_index value_tokens pk_index;
                         find_record_page_slot tname pk_value s) with
                  | Raise e => (Raise e, s)
                  | Ok (Some _) => finish op_string (Failure DuplicateKey) s
                  | Ok None =>
                      match pack_record fields value_tokens with
                      | Raise e =>
                          if is_value_error e
                          then finish op_string (Failure EncodeError) s
                          else (Raise e, s)
                      | Ok record_bytes =>
                          let f := default [] (dat_files s !! dat_filename tname) in
                          let '(r, f') :=
                            insert_record fields record_bytes rec_size page_size f in
                          let s' := Fs (catalog_meta s)
                                      (<[dat_filename tname := f']> (dat_files s))
                                      (log_csv s) in
                          match r with
                          | Ok o => finish op_string o s'
                          | Raise e => (Raise e, s')
                          end
                      end
                  end
            end
        end
    | _ => (Raise ValueError, s)
    end.

(** The body of the [with open(dat_filename, "r+b") as f] block of
    [handle_delete_record]. *)
Definition invalidate_slot (rec_size page_off slot_idx : Z) : io unit :=
  let record_offset := page_off + PAGE_HEADER_SIZE + slot_idx * rec_size in
  _ ← io_write record_offset [0];
  header ← io_read page_off PAGE_HEADER_SIZE;
  count ← io_lift (py_index header 0);
  header ← (if 0 <? count then io_lift (bytearray_set header 0 (count - 1))
            else mret header);
  header ← io_lift (bytearray_set header (1 + slot_idx) 0);
  io_write page_off header.

(** [handle_delete_record]: the [except Exception] of step 5 turns any
    exception of the block into a failure. *)
Definition handle_delete_record (tokens : list pystr) (s : fs)
  : result (outcome unit) * fs :=
  let op_string := join [space] tokens in
  match tokens with
  | [_; _; tname; pk_value] =>
      match read_catalog s with
      | Raise e => (Raise e, s)
      | Ok catalog =>
          match catalog !! tname with
          | None => finish op_string (Failure SchemaNotFound) s
          | Some entry =>
              let rec_size := compute_record_size (fields entry) in
              match find_record_page_slot tname pk_value s with
              | Raise e => (Raise e, s)
              | Ok None => finish op_string (Failure RecordNotFound) s
              | Ok (Some (page_off, slot_idx)) =>
                  match dat_files s !! dat_filename tname with
                  | None => finish op_string (Failure IOFailure) s
                  | Some f =>
                      let '(r, f') := invalidate_slot rec_size page_off slot_idx f in
                      let s' := Fs (catalog_meta s)
                                  (<[dat_filename tname := f']> (dat_files s))
                                  (log_csv s) in
                      match r with
                      | Ok _ => finish op_string (Success ()) s'
                      | Raise _ => finish op_string (Failure IOFailure) s'
                      end
                  end
              end
          end
      end
  | _ => finish op_string (Failure (ValidationError TokenCount)) s
  end.

(** [handle_search_record]: the values of the record, or a failure for
    the [None] it returns. *)
Definition handle_search_record (tokens : list pystr) (s : fs)
  : result (outcome (list pystr)) * fs :=
  let op_string := join [space] tokens in
  match tokens with
  | [_; _; tname; pk_value] =>
      match read_catalog s with
      | Raise e => (Raise e, s)
      | Ok catalog =>
          match catalog !! tname with
          | None => finish op_string (Failure SchemaNotFound) s
          | Some entry =>
              let fields := fields entry in
              let rec_size := compute_record_size fields in
              match find_record_page_slot tname pk_value s with
              | Raise e => (Raise e, s)
              | Ok None => finish op_string (Failure RecordNotFound) s
              | Ok (Some (page_off, slot_idx)) =>
                  match dat_files s !! dat_filename tname with
                  | None => finish op_string (Failure IOFailure) s
                  | Some f =>
                      let record_offset :=
                        page_off + PAGE_HEADER_SIZE + slot_idx * rec_size in
                      match read_at f record_offset rec_size with
                      | Ok record_bytes =>
                          finish op_string (Success (unpack_record fields record_bytes)) s
                      | Raise _ => finish op_string (Failure IOFailure) s
                      end
                  end
              end
          end
      end
  | _ => finish op_string (Failure (ValidationError TokenCount)) s
  end.

(** ** Vocabulary of the properties *)

(** The widths a schema must have for the codec to fill its fields: four
    bytes for an integer, as [int_to_bytes] writes, and no negative
    width.  The schemas [handle_create_type] writes have them. *)
Definition field_widths_ok (f : field) : Prop :=
  (f.1.2 = kw_int → f.2 = 4) ∧ 0 ≤ f.2.

(** What the round trip through the codec gives back for one value: an
    integer re-rendered, a text whose encoding is longer than the field
    cut to the field, any other text as it is. *)
Definition roundtrip_value (ftype : pystr) (flen : Z) (v : pystr) : pystr :=
  if bool_decide (ftype = kw_int) then
    match py_int v with
    | Some z => str_of_int z
    | None => v
    end
  else
    match utf8_encode v with
    | Ok b =>
        if flen <? len b then decode_ignore (rstrip_zero (py_slice b 0 flen))
        else v
    | Raise _ => v
    end.

Definition roundtrip_values (fields : list field) (values : list pystr) : list pystr :=
  zip_with (λ f v, roundtrip_value f.1.2 f.2 v) fields values.

(** The values the round trip holds for: an integer within four signed
    bytes; a text without surrogates that, when it fits its field, does
    not end in U+0000. *)
Definition value_ok (f : field) (v : pystr) : Prop :=
  if bool_decide (f.1.2 = kw_int) then
    ∃ z, py_int v = Some z ∧ -2147483648 ≤ z < 2147483648
  else
    Forall scalar_value v ∧
    (∀ b, utf8_encode v = Ok b → len b ≤ f.2 → last v ≠ Some 0).


(** ** Sample data *)


(** A record of one Text field whose first byte is no valid UTF-8. *)
Definition note_fields : list field := [(str "s", kw_str, 20)].

(** A schema of an integer key and a text. *)
Definition pair_fields : list field := [(str "k", kw_int, 4); (str "s", kw_str, 20)].





(** A file system with an empty catalog and no data file. *)
Definition fs_empty : fs := Fs [] ∅ [].

(** [T], a type of one integer field, the key. *)
Definition tokens_create_T : list pystr :=
  [str "create"; str "type"; str "T"; str "1"; str "1"; str "id"; str "int"].
Definition schema_T : schema := Schema 1 1 [(str "id", kw_int, 4)].
Definition fs_T : fs := (handle_create_type tokens_create_T fs_empty).2.


(** A field token of a catalog line that reads as the field [f]. *)
Definition well_formed_field (fld : pystr) (f : field) : Prop :=
  ∃ flen_str,
    split_on comma fld = [f.1.1; f.1.2; flen_str] ∧ py_int flen_str = Some f.2.

(** A catalog line that reads as the entry [e] of the type [tname]: at
    least three [|]-separated tokens, an integer count and index, field
    tokens of three [,]-separated parts with an integer length, as many
    as the count says. *)
Definition well_formed_line (line tname : pystr) (e : schema) : Prop :=
  ∃ nf_str pk_str flds,
    split_on bar (strip line) = tname :: nf_str :: pk_str :: flds
    ∧ py_int nf_str = Some (num_fields e)
    ∧ py_int pk_str = Some (pk_index e)
    ∧ Forall2 well_formed_field flds (fields e)
    ∧ len (fields e) = num_fields e.


(** ** Data files as pages *)

(** The bytes of [f] from [pos], [n] of them. *)
Definition file_range (f : bytes) (pos n : Z) : bytes :=
  take (Z.to_nat n) (drop (Z.to_nat pos) f).

(** [f] with [d] written in place at [pos]. *)
Definition overwrite (f : bytes) (pos : Z) (d : bytes) : bytes :=
  take (Z.to_nat pos) f ++ d ++ drop (Z.to_nat pos + length d) f.

(** A data file of [n] whole pages of records of [rec_size] bytes. *)
Definition whole_pages (f : bytes) (rec_size n : Z) : Prop :=
  0 ≤ n ∧ len f = n * page_size_of rec_size.

(** The header of page [k], its occupancy count and its slot bitmap. *)
Definition header_of (f : bytes) (rec_size k : Z) : bytes :=
  file_range f (k * page_size_of rec_size) PAGE_HEADER_SIZE.
Definition count_of (f : bytes) (rec_size k : Z) : Z :=
  default 0 (header_of f rec_size k !! 0%nat).
Definition bitmap_of (f : bytes) (rec_size k : Z) : bytes :=
  drop 1 (header_of f rec_size k).

(** The bytes of slot [i] of page [k]. *)
Definition record_of (f : bytes) (rec_size k i : Z) : bytes :=
  file_range f (k * page_size_of rec_size + PAGE_HEADER_SIZE + i * rec_size) rec_size.

(** The number of set entries of a bitmap. *)
Definition set_entries (bitmap : bytes) : Z := len (filter (λ b, b = 1) bitmap).

(** The header of page [k] counts the set entries of its bitmap. *)
Definition header_consistent (f : bytes) (rec_size k : Z) : Prop :=
  count_of f rec_size k = set_entries (bitmap_of f rec_size k).

(** Slot [i] of page [k] holds a live record: the page is in the file,
    its count is not zero and the slot's bitmap entry is set.  These are
    the records [find_record_page_slot] reads. *)
Definition live (f : bytes) (rec_size k i : Z) : Prop :=
  0 ≤ k ∧ (k + 1) * page_size_of rec_size ≤ len f ∧ 0 ≤ i < NUM_SLOTS
  ∧ count_of f rec_size k ≠ 0
  ∧ bitmap_of f rec_size k !! Z.to_nat i = Some 1.

(** Slot [i] of page [k] is free for [find_free_slot_in_page]: the count
    is below the number of slots and [i] is the first clear entry. *)
Definition first_free_slot (f : bytes) (rec_size k i : Z) : Prop :=
  count_of f rec_size k < NUM_SLOTS ∧ 0 ≤ i < NUM_SLOTS
  ∧ bitmap_of f rec_size k !! Z.to_nat i = Some 0
  ∧ ∀ j, 0 ≤ j < i → bitmap_of f rec_size k !! Z.to_nat j ≠ Some 0.

(** Page [k] has no slot for [find_free_slot_in_page]. *)
Definition page_full (f : bytes) (rec_size k : Z) : Prop :=
  NUM_SLOTS ≤ count_of f rec_size k
  ∨ ∀ j, 0 ≤ j < NUM_SLOTS → bitmap_of f rec_size k !! Z.to_nat j ≠ Some 0.

(** The decoded primary key of the record in slot [i] of page [k]. *)
Definition key_of (f : bytes) (fields : list field) (pk_idx k i : Z) : result pystr :=
  py_index (unpack_record fields (record_of f (compute_record_size fields) k i)) pk_idx.

(** [f] after [record_bytes] went into slot [i] of page [k]: the record
    is written, the count is one more and the slot's entry is set. *)
Definition place_record (f : bytes) (rec_size k i : Z) (record_bytes : bytes) : bytes :=
  let page := k * page_size_of rec_size in
  let f1 := overwrite f (page + PAGE_HEADER_SIZE + i * rec_size) record_bytes in
  overwrite f1 page
    (count_of f rec_size k + 1 :: <[Z.to_nat i := 1]> (bitmap_of f rec_size k)).

(** [f] after slot [i] of page [k] was invalidated: the validity byte is
    zero, the count is one less unless it is zero, the slot's entry is
    clear. *)
Definition clear_slot (f : bytes) (rec_size k i : Z) : bytes :=
  let page := k * page_size_of rec_size in
  let f1 := overwrite f (page + PAGE_HEADER_SIZE + i * rec_size) [0] in
  let count := count_of f rec_size k in
  overwrite f1 page
    ((if 0 <? count then count - 1 else count)
       :: <[Z.to_nat i := 0]> (bitmap_of f rec_size k)).

(** The page appended for [record_bytes]: one occupant, in slot 0. *)
Definition new_page (rec_size : Z) (record_bytes : bytes) : bytes :=
  (1 :: 1 :: replicate 9 0)
  ++ record_bytes ++ replicate (Z.to_nat (9 * rec_size)) 0.

(** The zeroed page an empty file is initialised with. *)
Definition zero_page (rec_size : Z) : bytes :=
  replicate (Z.to_nat (page_size_of rec_size)) 0.

(** The type [tname] is stored in [s]: the catalog has the entry [e] for
    it, a schema of usable widths with its key index inside it, and its
    data file [f] is [n] whole pages. *)
Definition type_stored (s : fs) (tname : pystr) (e : schema) (f : bytes) (n : Z) : Prop :=
  (∃ catalog, read_catalog s = Ok catalog ∧ catalog !! tname = Some e)
  ∧ Forall field_widths_ok (fields e)
  ∧ 1 ≤ pk_index e ≤ len (fields e)
  ∧ dat_files s !! dat_filename tname = Some f
  ∧ whole_pages f (compute_record_size (fields e)) n.

(** Every page of the [n] pages of [f] has a consistent header. *)
Definition headers_consistent (f : bytes) (rec_size n : Z) : Prop :=
  ∀ k, 0 ≤ k < n → header_consistent f rec_size k.

(** What the [with] block of [handle_create_record] makes of a file [f]
    of [n] pages: the record goes into the zeroed first page of an empty
    file; or into the first free slot of the first page that has one;
    or, when every page is full, into a new page below the cap, and
    nowhere at the cap. *)
Definition insert_outcome (f : bytes) (rec_size n : Z) (record_bytes : bytes)
    (o : outcome unit) (f' : bytes) : Prop :=
  (n = 0 ∧ o = Success ()
   ∧ f' = place_record (zero_page rec_size) rec_size 0 0 record_bytes)
  ∨ (0 < n ∧ o = Success ()
     ∧ ∃ k i, 0 ≤ k < n ∧ (∀ j, 0 ≤ j < k → page_full f rec_size j)
              ∧ first_free_slot f rec_size k i
              ∧ f' = place_record f rec_size k i record_bytes)
  ∨ (0 < n < MAX_PAGES ∧ (∀ j, 0 ≤ j < n → page_full f rec_size j)
     ∧ o = Success () ∧ f' = f ++ new_page rec_size record_bytes)
  ∨ (MAX_PAGES ≤ n ∧ (∀ j, 0 ≤ j < n → page_full f rec_size j)
     ∧ o = Failure CapacityExceeded ∧ f' = f).

(** The file system after the [with] block of a handler left [f'] as the
    data file of [tname]. *)
Definition with_file (s : fs) (tname : pystr) (f' : bytes) : fs :=
  Fs (catalog_meta s) (<[dat_filename tname := f']> (dat_files s)) (log_csv s).

(** [T] with the record of key 7, and its data file. *)
Definition fs_T7 : fs :=
  (handle_create_record [str "create"; str "record"; str "T"; str "7"] fs_T).2.
Definition file_T7 : bytes := default [] (dat_files fs_T7 !! dat_filename (str "T")).

(** [fs_T7] after a second record, of key text 007, went in, and after
    the delete of key 7 from there. *)
Definition fs_T7_twin : fs :=
  (handle_create_record [str "create"; str "record"; str "T"; str "007"] fs_T7).2.
Definition fs_T7_twin_deleted : fs :=
  (handle_delete_record [str "delete"; str "record"; str "T"; str "7"] fs_T7_twin).2.

(** [fs_T7] after the delete of key 7. *)
Definition fs_T7_deleted : fs :=
  (handle_delete_record [str "delete"; str "record"; str "T"; str "7"] fs_T7).2.

(** A full page of [T], every slot holding the record of key 7, and a
    data file of [MAX_PAGES] such pages. *)
Definition record_7 : bytes := [1; 0; 0; 0; 7].
Definition full_page_T : bytes :=
  (10 :: replicate 10 1) ++ concat (replicate 10 record_7).
Definition full_file_T : bytes := concat (replicate (Z.to_nat MAX_PAGES) full_page_T).
Definition fs_T_full : fs := with_file fs_T (str "T") full_file_T.

(** A type [N] of one text field, its key, and a key text of 21 bytes. *)
Definition tokens_create_N : list pystr :=
  [str "create"; str "type"; str "N"; str "1"; str "1"; str "s"; str "str"].
Definition schema_N : schema := Schema 1 1 [(str "s", kw_str, 20)].
Definition fs_N : fs := (handle_create_type tokens_create_N fs_empty).2.
Definition key_of_21_bytes : pystr := replicate 21 97.

(** ** File order *)

(** Slot [i] of page [k] comes before slot [j] of page [k'] in the order
    [find_record_page_slot] reads the file. *)
Definition before (k i k' j : Z) : Prop := k < k' ∨ (k = k' ∧ i < j).

(** Slot [i] of page [k] holds the first live record, in file order,
    whose decoded key is [pk_value]. *)
Definition first_match (f : bytes) (fields : list field) (pk_idx : Z)
    (pk_value : pystr) (k i : Z) : Prop :=
  live f (compute_record_size fields) k i
  ∧ key_of f fields pk_idx k i = Ok pk_value
  ∧ ∀ k' j, live f (compute_record_size fields) k' j → before k' j k i →
            key_of f fields pk_idx k' j ≠ Ok pk_value.

(** The data file of [fs_T7_twin]: two live records, both of key 7. *)
Definition file_T7_twin : bytes :=
  default [] (dat_files fs_T7_twin !! dat_filename (str "T")).

(** ** Values the codec takes *)



(** ** Catalog lines *)

(** The number a run of decimal digits continues from [acc]. *)
Fixpoint digits_value (acc : Z) (u : Decimal.uint) : Z :=
  match u with
  | Decimal.Nil => acc
  | Decimal.D0 r => digits_value (acc * 10 + 0) r
  | Decimal.D1 r => digits_value (acc * 10 + 1) r
  | Decimal.D2 r => digits_value (acc * 10 + 2) r
  | Decimal.D3 r => digits_value (acc * 10 + 3) r
  | Decimal.D4 r => digits_value (acc * 10 + 4) r
  | Decimal.D5 r => digits_value (acc * 10 + 5) r
  | Decimal.D6 r => digits_value (acc * 10 + 6) r
  | Decimal.D7 r => digits_value (acc * 10 + 7) r
  | Decimal.D8 r => digits_value (acc * 10 + 8) r
  | Decimal.D9 r => digits_value (acc * 10 + 9) r
  end.

(** A line break of a text file. *)
Definition is_newline (c : Z) : bool := (c =? 10) || (c =? 13).

(** The catalog text is empty or ends with the line feed that
    [write_catalog_entry] writes after each entry. *)
Definition ends_lines (text : pystr) : Prop :=
  text = [] ∨ ∃ t, text = t ++ [10].

(** A name that a catalog line can carry: no [|], no [,], no line
    break. *)
Definition plain_name (name : pystr) : Prop :=
  Forall (λ c, c ≠ bar ∧ c ≠ comma ∧ is_newline c = false) name.

(** A type name that a catalog line can carry: a plain name that
    [strip()] leaves as it is at the start of the line. *)
Definition plain_type_name (tname : pystr) : Prop :=
  plain_name tname ∧ ∀ c, head tname = Some c → is_space c = false.

(** A field whose name and kind a catalog line can carry. *)
Definition plain_field (f : field) : Prop := plain_name f.1.1 ∧ plain_name f.1.2.

(** ** Files that saw no delete *)

(** The [m] records of the file fill its slots in file order: slot [i]
    of page [k] is set exactly when [10 * k + i < m], on the
    [(m + 9) / 10] pages that this takes, and every header counts its
    set entries. *)
Definition dense (f : bytes) (rec_size m : Z) : Prop :=
  0 ≤ m
  ∧ headers_consistent f rec_size ((m + 9) / 10)
  ∧ ∀ k i, 0 ≤ k < (m + 9) / 10 → 0 ≤ i < NUM_SLOTS →
      bitmap_of f rec_size k !! Z.to_nat i
      = Some (if 10 * k + i <? m then 1 else 0).

(** * Properties *)

Ltac dlia := Z.div_mod_to_equations; lia.

(** Decide the integer comparison the goal branches on, and drop the
    branch the context refutes. *)
Ltac case_cmp :=
  match goal with
  | |- context [?a <? ?b] => destruct (Z.ltb_spec a b)
  | |- context [?a <=? ?b] => destruct (Z.leb_spec a b)
  | |- context [?a =? ?b] => destruct (Z.eqb_spec a b)
  end; simpl; try (exfalso; dlia).

Lemma bind_Ok {A B} (a : A) (k : A → result B) : (Ok a ≫= k) = k a.
Proof. reflexivity. Qed.

Lemma bind_Raise {A B} e (k : A → result B) : (Raise e ≫= k) = Raise e.
Proof. reflexivity. Qed.

Lemma len_app {A} (l k : list A) : len (l ++ k) = len l + len k.
Proof. unfold len. rewrite length_app. lia. Qed.

Lemma len_cons {A} (x : A) (l : list A) : len (x :: l) = 1 + len l.
Proof. unfold len. simpl. lia. Qed.

Lemma len_nonneg {A} (l : list A) : 0 ≤ len l.
Proof. unfold len. lia. Qed.

(** ** UTF-8 *)

Lemma utf8_encode_cp_scalar c :
  scalar_value c → ∃ b, utf8_encode_cp c = Ok b.
Proof.
  intros Hc. unfold utf8_encode_cp, scalar_value in *.
  repeat case_cmp; eauto.
Qed.

(** Decoding the bytes of a code point gives it back, whatever follows. *)
Lemma utf8_decode_encode_cp err c b rest :
  utf8_encode_cp c = Ok b →
  code_point c →
  utf8_decode err (b ++ rest) = c :: utf8_decode err rest.
Proof.
  unfold utf8_encode_cp, code_point. intros Hb Hc. revert Hb.
  repeat case_cmp; intros [= <-]; simpl; unfold is_cont;
    repeat case_cmp; f_equal; dlia.
Qed.

Lemma utf8_decode_encode err s : ∀ b rest,
  utf8_encode s = Ok b →
  Forall code_point s →
  utf8_decode err (b ++ rest) = s ++ utf8_decode err rest.
Proof.
  induction s as [|c s IH]; intros b rest Hb Hs; simpl in Hb.
  - by injection Hb as <-.
  - destruct (utf8_encode_cp c) as [bc|] eqn:Hc; [|done].
    destruct (utf8_encode s) as [bs|] eqn:Hbs; [|done].
    injection Hb as <-. inversion_clear Hs.
    rewrite <- app_assoc. erewrite utf8_decode_encode_cp by done.
    simpl. f_equal. by apply IH.
Qed.

(** The code point the decoder accepts from two, three or four bytes
    encodes to the very same bytes. *)
Lemma utf8_encode_cp_2 b0 b1 :
  194 ≤ b0 < 224 → 128 ≤ b1 < 192 →
  utf8_encode_cp ((b0 - 192) * 64 + (b1 - 128)) = Ok [b0; b1].
Proof.
  intros. unfold utf8_encode_cp. repeat case_cmp; do 3 f_equal; dlia.
Qed.

Lemma utf8_encode_cp_3 b0 b1 b2 :
  224 ≤ b0 < 240 → 128 ≤ b1 < 192 → 128 ≤ b2 < 192 →
  (b0 = 224 → 160 ≤ b1) → (b0 = 237 → b1 < 160) →
  utf8_encode_cp ((b0 - 224) * 4096 + (b1 - 128) * 64 + (b2 - 128))
  = Ok [b0; b1; b2].
Proof.
  intros. unfold utf8_encode_cp. repeat case_cmp. all: do 4 f_equal; dlia.
Qed.

Lemma utf8_encode_cp_4 b0 b1 b2 b3 :
  240 ≤ b0 < 245 → 128 ≤ b1 < 192 → 128 ≤ b2 < 192 → 128 ≤ b3 < 192 →
  (b0 = 240 → 144 ≤ b1) → (b0 = 244 → b1 < 144) →
  utf8_encode_cp ((b0 - 240) * 262144 + (b1 - 128) * 4096
                  + (b2 - 128) * 64 + (b3 - 128))
  = Ok [b0; b1; b2; b3].
Proof.
  intros. unfold utf8_encode_cp. repeat case_cmp; do 5 f_equal; dlia.
Qed.

(** With ["ignore"] the decoder only drops bytes: what it returns encodes
    to a subsequence of its input. *)
Lemma decode_ignore_reencode b :
  ∃ b', utf8_encode (decode_ignore b) = Ok b' ∧ sublist b' b.
Proof.
  unfold decode_ignore.
  assert (∀ n b, (length b < n)%nat →
            ∃ b', utf8_encode (utf8_decode [] b) = Ok b' ∧ sublist b' b) as H;
    [|apply (H (S (length b))); lia].
  clear b. induction n as [|n IH]; intros b Hn; [lia|].
  (* the decoder goes on from a suffix [r] of the input *)
  assert (∀ cps bs r,
            utf8_encode cps = Ok bs → sublist (bs ++ r) b → (length r < n)%nat →
            ∃ b', utf8_encode (cps ++ utf8_decode [] r) = Ok b' ∧ sublist b' b)
    as Hgo.
  { intros cps bs r Hcps Hsub Hr. destruct (IH r Hr) as (b' & Hb' & Hsub').
    exists (bs ++ b'). split.
    - clear Hsub. revert bs Hcps. induction cps as [|c cps IHc]; intros bs Hcps.
      + by injection Hcps as <-.
      + simpl in *. destruct (utf8_encode_cp c); [|done]. simpl in *.
        destruct (utf8_encode cps); [|done]. simpl in *. injection Hcps as <-.
        erewrite IHc by done. simpl. by rewrite <- app_assoc.
    - etrans; [|exact Hsub]. by apply sublist_app. }
  assert (∃ b', utf8_encode [] = Ok b' ∧ sublist b' b) as Hend
    by (exists []; split; [done|apply sublist_nil_l]).
  destruct b as [|b0 r0]; [done|]. simpl in Hn.
  simpl utf8_decode.
  destruct (Z.ltb_spec b0 128).
  { apply (Hgo [b0] [b0] r0); [|done|lia].
    simpl. unfold utf8_encode_cp. by case_cmp. }
  destruct (Z.ltb_spec b0 194).
  { apply (Hgo [] [] r0); [done|by apply sublist_cons|lia]. }
  destruct (Z.ltb_spec b0 224).
  { destruct r0 as [|b1 r1]; [done|]. simpl in Hn. unfold is_cont.
    destruct (Z.leb_spec 128 b1); cbn [andb];
      [destruct (Z.ltb_spec b1 192)|]; cbn [app].
    - apply (Hgo [_] [b0; b1] r1); [|done|lia].
      simpl. by rewrite utf8_encode_cp_2 by lia.
    - apply (Hgo [] [] (b1 :: r1)); [done|by apply sublist_cons|simpl; lia].
    - apply (Hgo [] [] (b1 :: r1)); [done|by apply sublist_cons|simpl; lia]. }
  destruct (Z.ltb_spec b0 240).
  { destruct r0 as [|b1 r1]; [done|]. simpl in Hn.
    destruct (negb (is_cont b1) || (b0 =? 224) && (b1 <? 160)
              || (b0 =? 237) && (160 <=? b1)) eqn:Hb1.
    { apply (Hgo [] [] (b1 :: r1)); [done|by apply sublist_cons|simpl; lia]. }
    destruct r1 as [|b2 r2]; [done|]. simpl in Hn.
    destruct (is_cont b2) eqn:Hb2.
    - apply (Hgo [_] [b0; b1; b2] r2); [|done|lia].
      simpl. rewrite utf8_encode_cp_3; [done|unfold is_cont in *; lia..].
    - apply (Hgo [] [] (b2 :: r2)); [done|by do 2 apply sublist_cons|simpl; lia]. }
  destruct (Z.ltb_spec b0 245).
  { destruct r0 as [|b1 r1]; [done|]. simpl in Hn.
    destruct (negb (is_cont b1) || (b0 =? 240) && (b1 <? 144)
              || (b0 =? 244) && (144 <=? b1)) eqn:Hb1.
    { apply (Hgo [] [] (b1 :: r1)); [done|by apply sublist_cons|simpl; lia]. }
    destruct r1 as [|b2 r2]; [done|]. simpl in Hn.
    destruct (is_cont b2) eqn:Hb2; cbn [negb].
    2: { apply (Hgo [] [] (b2 :: r2)); [done|by do 2 apply sublist_cons|simpl; lia]. }
    destruct r2 as [|b3 r3]; [done|]. simpl in Hn.
    destruct (is_cont b3) eqn:Hb3.
    - apply (Hgo [_] [b0; b1; b2; b3] r3); [|done|lia].
      simpl. rewrite utf8_encode_cp_4; [done|unfold is_cont in *; lia..].
    - apply (Hgo [] [] (b3 :: r3)); [done|by do 3 apply sublist_cons|simpl; lia]. }
  apply (Hgo [] [] r0); [done|by apply sublist_cons|lia].
Qed.

Lemma sublist_len {A} (l k : list A) : sublist l k → len l ≤ len k.
Proof. intros H%sublist_length. unfold len. lia. Qed.

(** ** Stripping and slicing *)

Lemma rstrip_by_replicate p c n : p c = true → rstrip_by p (replicate n c) = [].
Proof. intros Hp. induction n as [|n IH]; simpl; [done|]. by rewrite IH, Hp. Qed.

Lemma rstrip_by_app_replicate p c n b :
  p c = true → rstrip_by p (b ++ replicate n c) = rstrip_by p b.
Proof.
  intros Hp. induction b as [|x b IH]; simpl.
  - by apply rstrip_by_replicate.
  - by rewrite IH.
Qed.

(** Nothing is stripped from a sequence that ends on a kept element. *)
Lemma rstrip_by_id p b :
  (∀ x, last b = Some x → p x = false) → rstrip_by p b = b.
Proof.
  induction b as [|x b IH]; intros Hlast; simpl; [done|].
  destruct b as [|y b].
  - simpl. by rewrite Hlast.
  - rewrite IH by (intros z Hz; apply Hlast; done). done.
Qed.

Lemma py_slice_nonneg {A} (l : list A) (lo hi : Z) :
  0 ≤ lo ≤ hi →
  py_slice l lo hi = take (Z.to_nat (hi - lo)) (drop (Z.to_nat lo) l).
Proof.
  intros H. unfold py_slice, clamp_index.
  pose proof (len_nonneg l).
  repeat case_cmp.
  destruct (decide (len l ≤ lo)).
  - rewrite !drop_ge by (unfold len in *; lia). by rewrite !take_nil.
  - replace (Z.max 0 (Z.min (len l) lo)) with lo by lia.
    destruct (decide (hi ≤ len l)).
    + by replace (Z.max 0 (Z.min (len l) hi)) with hi by lia.
    + rewrite !take_ge; [done|rewrite length_drop; unfold len in *; lia..].
Qed.

(** The slice that covers exactly the middle part of a concatenation. *)
Lemma py_slice_app_mid {A} (pre chunk rest : list A) :
  py_slice (pre ++ chunk ++ rest) (len pre) (len pre + len chunk) = chunk.
Proof.
  rewrite py_slice_nonneg by (pose proof (len_nonneg pre); pose proof (len_nonneg chunk); lia).
  unfold len. rewrite Nat2Z.id, drop_app_length.
  replace (Z.to_nat _) with (length chunk) by lia.
  by rewrite take_app_length.
Qed.

(** ** Four-byte integers *)

Lemma bytes_to_int_to_bytes x b :
  int_to_bytes x = Ok b → bytes_to_int b = x.
Proof.
  unfold int_to_bytes. destruct (_ && _) eqn:Hr; [|done].
  intros [= <-]. unfold bytes_to_int, be_value, len. simpl.
  repeat case_cmp; dlia.
Qed.

Lemma int_to_bytes_length x b : int_to_bytes x = Ok b → len b = 4.
Proof.
  unfold int_to_bytes. destruct (_ && _); [|done]. by intros [= <-].
Qed.

Lemma int_to_bytes_overflow x :
  x < -2147483648 ∨ 2147483648 ≤ x → int_to_bytes x = Raise OverflowError.
Proof.
  intros H. unfold int_to_bytes. destruct (_ && _) eqn:Hr; [lia|done].
Qed.

(** ** The record codec *)

Lemma scalar_code_point c : scalar_value c → code_point c.
Proof. unfold scalar_value, code_point. lia. Qed.

Lemma utf8_encode_scalar s :
  Forall scalar_value s → ∃ b, utf8_encode s = Ok b.
Proof.
  induction 1 as [|c s Hc _ [bs IH]]; simpl; [by eexists|].
  destruct (utf8_encode_cp_scalar c Hc) as [bc ->]. rewrite IH. by eexists.
Qed.

Lemma utf8_encode_cp_nonzero c b x :
  utf8_encode_cp c = Ok b → 0 ≤ c → c ≠ 0 → x ∈ b → x ≠ 0.
Proof.
  unfold utf8_encode_cp. intros Hb Hc Hc0 Hx. revert Hb.
  repeat case_cmp; intros [= <-]; set_unfold; dlia.
Qed.

Lemma utf8_encode_cp_nonempty c b : utf8_encode_cp c = Ok b → b ≠ [].
Proof. unfold utf8_encode_cp. repeat case_cmp; by intros [= <-]. Qed.

(** A text that does not end in U+0000 encodes to bytes that do not end
    in a zero byte. *)
Lemma utf8_encode_last s : ∀ b x,
  utf8_encode s = Ok b → Forall code_point s → last s ≠ Some 0 →
  last b = Some x → x ≠ 0.
Proof.
  induction s as [|c s IH]; intros b x Hb Hs Hlast Hx; simpl in Hb.
  - by injection Hb as <-.
  - destruct (utf8_encode_cp c) as [bc|] eqn:Hc; [|done].
    destruct (utf8_encode s) as [bs|] eqn:Hbs; [|done].
    injection Hb as <-. inversion_clear Hs as [|?? Hcp Hs'].
    destruct s as [|c' s].
    + injection Hbs as <-. rewrite app_nil_r in Hx.
      apply (utf8_encode_cp_nonzero c bc x Hc); [unfold code_point in *; lia|naive_solver|].
      apply list_elem_of_lookup. exists (pred (length bc)).
      by rewrite <- last_lookup.
    + assert (bs ≠ []) as Hne.
      { simpl in Hbs. destruct (utf8_encode_cp c') as [bc'|] eqn:Hc'; [|done].
        destruct (utf8_encode s); [|done]. injection Hbs as <-.
        apply utf8_encode_cp_nonempty in Hc'. by destruct bc'. }
      rewrite last_app in Hx. destruct (last bs) as [y|] eqn:Hy.
      * injection Hx as ->. by eapply (IH bs x).
      * apply last_None in Hy. done.
Qed.

Lemma pack_field_int flen v z :
  py_int v = Some z → -2147483648 ≤ z < 2147483648 →
  ∃ chunk, pack_field kw_int flen v = Ok chunk ∧ len chunk = 4
           ∧ unpack_field kw_int chunk = str_of_int z.
Proof.
  intros Hv Hz. unfold pack_field, unpack_field, int_of_str. simpl. rewrite Hv. simpl.
  destruct (int_to_bytes z) as [chunk|] eqn:Hc.
  - exists chunk. split; [done|]. split; [by eapply int_to_bytes_length|].
    by rewrite (bytes_to_int_to_bytes z chunk).
  - unfold int_to_bytes in Hc. destruct (_ && _) eqn:Hr; [done|lia].
Qed.

Lemma pack_field_text ftype flen v :
  ftype ≠ kw_int → 0 ≤ flen → value_ok (v, ftype, flen) v →
  ∃ chunk, pack_field ftype flen v = Ok chunk ∧ len chunk = flen
           ∧ unpack_field ftype chunk = roundtrip_value ftype flen v.
Proof.
  intros Hty Hflen. unfold value_ok, pack_field, unpack_field, roundtrip_value. simpl.
  rewrite !bool_decide_eq_false_2 by done. intros [Hs Hlast].
  destruct (utf8_encode_scalar v Hs) as [b Hb]. rewrite Hb. simpl.
  pose proof (len_nonneg b) as Hnn.
  destruct (Z.ltb_spec flen (len b)) as [Hlt|Hge].
  - rewrite py_slice_nonneg by lia. simpl. rewrite drop_0, Z.sub_0_r.
    eexists. split; [done|]. split.
    + rewrite len_app. unfold len in *. rewrite length_replicate, length_take. lia.
    + unfold rstrip_zero. by rewrite rstrip_by_app_replicate.
  - eexists. split; [done|]. split.
    + rewrite len_app. unfold len in *. rewrite length_replicate. lia.
    + unfold rstrip_zero. rewrite rstrip_by_app_replicate by done.
      rewrite rstrip_by_id.
      * pose proof (utf8_decode_encode [] v b [] Hb) as Hd.
        rewrite !app_nil_r in Hd. apply Hd.
        eapply Forall_impl; [exact Hs|]. apply scalar_code_point.
      * intros x Hx. apply Z.eqb_neq. intros <-.
        eapply (utf8_encode_last v b 0); try done.
        -- eapply Forall_impl; [exact Hs|]. apply scalar_code_point.
        -- apply (Hlast b); [done|lia].
Qed.

Lemma pack_field_ok f v :
  field_widths_ok f → value_ok f v →
  ∃ chunk, pack_field f.1.2 f.2 v = Ok chunk ∧ len chunk = f.2
           ∧ unpack_field f.1.2 chunk = roundtrip_value f.1.2 f.2 v.
Proof.
  destruct f as [[fname ftype] flen]. intros [Hint Hnn] Hv. simpl in *.
  destruct (decide (ftype = kw_int)) as [->|Hty].
  - unfold value_ok in Hv. simpl in Hv. destruct Hv as (z & Hz & Hr).
    rewrite Hint by done.
    destruct (pack_field_int 4 v z Hz Hr) as (chunk & ? & ? & ?).
    exists chunk. unfold roundtrip_value. simpl. by rewrite Hz.
  - apply pack_field_text; [done..|].
    unfold value_ok in *. simpl in *. by rewrite bool_decide_eq_false_2 in * by done.
Qed.

Lemma fold_widths (l : list field) a :
  fold_left (λ total f, total + f.2) l a
  = a + fold_left (λ total f, total + f.2) l 0.
Proof.
  revert a. induction l as [|x l IHl]; intros a; simpl; [lia|].
  rewrite (IHl (a + x.2)), (IHl (0 + x.2)). lia.
Qed.

Lemma compute_record_size_cons f fs :
  compute_record_size (f :: fs) = f.2 + compute_record_size fs.
Proof.
  unfold compute_record_size. simpl.
  rewrite (fold_widths fs (1 + f.2)), (fold_widths fs 1). lia.
Qed.

Lemma unpack_pack_fields fields : ∀ values,
  Forall field_widths_ok fields → Forall2 value_ok fields values →
  ∃ packed, pack_fields fields values = Ok packed ∧
    len packed = compute_record_size fields - 1 ∧
    ∀ pre, unpack_fields fields (pre ++ packed) (len pre)
           = roundtrip_values fields values.
Proof.
  induction fields as [|f fs IH]; intros values Hw Hv.
  - inversion Hv; subst. exists []. by repeat split.
  - inversion Hv as [|? v ? vs Hfv Hvs]; subst. inversion_clear Hw as [|?? Hf Hfs].
    destruct (pack_field_ok f v Hf Hfv) as (chunk & Hc & Hlen & Hun).
    destruct (IH vs Hfs Hvs) as (rest & Hrest & Hrlen & Hrun).
    destruct f as [[fname ftype] flen]. simpl in *.
    rewrite Hc, Hrest. simpl. exists (chunk ++ rest). split; [done|]. split.
    + rewrite len_app, Hrlen, compute_record_size_cons. simpl. lia.
    + intros pre. unfold roundtrip_values. simpl. f_equal.
      * rewrite <- Hun. f_equal. rewrite <- Hlen. apply py_slice_app_mid.
      * replace (len pre + flen) with (len (pre ++ chunk)) by (rewrite len_app; lia).
        rewrite (app_assoc pre chunk rest). apply Hrun.
Qed.

(** C1, as amended.  For a schema whose integer fields are four bytes
    wide and whose widths are not negative, and values of which each
    integer lies within four signed bytes and each text has no surrogate
    and, when it fits its field, does not end in U+0000: [pack_record]
    returns a record of the schema's size, and [unpack_record] of it
    returns the integers re-rendered, the texts that fit unchanged, and
    for a longer text the lenient decoding of its first [flen] bytes. *)
Theorem pack_unpack_roundtrip fields values :
  Forall field_widths_ok fields →
  Forall2 value_ok fields values →
  ∃ r, pack_record fields values = Ok r
       ∧ len r = compute_record_size fields
       ∧ unpack_record fields r = roundtrip_values fields values.
Proof.
  intros Hw Hv.
  destruct (unpack_pack_fields fields values Hw Hv) as (packed & Hp & Hlen & Hun).
  exists (1 :: packed). unfold pack_record, unpack_record. rewrite Hp. simpl.
  split; [done|]. split; [rewrite len_cons; lia|].
  apply (Hun [1]).
Qed.

Lemma pack_unpack_roundtrip_witness :
  ∃ r, pack_record pair_fields [str "007"; str "Al"] = Ok r
       ∧ len r = compute_record_size pair_fields
       ∧ unpack_record pair_fields r
         = roundtrip_values pair_fields [str "007"; str "Al"].
Proof.
  apply pack_unpack_roundtrip.
  - repeat constructor; simpl; (done || lia).
  - repeat constructor.
    + exists 7. split; [reflexivity|lia].
    + unfold scalar_value; simpl; lia.
    + unfold scalar_value; simpl; lia.
    + simpl. intros _ _ _. discriminate.
Defined.

(** C1 as stated fails: an integer text that parses but lies outside
    four signed bytes makes [pack_record] raise, and a text that fits
    its field and ends in U+0000 comes back without it. *)
Lemma roundtrip_as_stated_fails :
  (py_int (str "2147483648") = Some 2147483648
   ∧ pack_record pair_fields [str "2147483648"; str "x"] = Raise OverflowError)
  ∧ (∃ r, pack_record pair_fields [str "1"; [97; 0]] = Ok r
          ∧ unpack_record pair_fields r = [str "1"; [97]]
          ∧ roundtrip_values pair_fields [str "1"; [97; 0]] = [str "1"; [97; 0]]
          ∧ unpack_record pair_fields r
            ≠ roundtrip_values pair_fields [str "1"; [97; 0]]).
Proof.
  split; [split; reflexivity|].
  eexists. split; [reflexivity|]. split; [reflexivity|]. split; [reflexivity|].
  discriminate.
Qed.

(** ** Decoding *)

Lemma unpack_fields_length fields record_bytes : ∀ offset,
  length (unpack_fields fields record_bytes offset) = length fields.
Proof.
  induction fields as [|[[fname ftype] flen] fs IH]; intros offset; simpl; [done|].
  by rewrite IH.
Qed.

(** The loop hands field [i] the bytes that start where the sizes of the
    fields before it end. *)
Lemma unpack_fields_lookup fields record_bytes : ∀ i offset fname ftype flen,
  fields !! i = Some (fname, ftype, flen) →
  let start := offset + (compute_record_size (take i fields) - 1) in
  unpack_fields fields record_bytes offset !! i
  = Some (unpack_field ftype (py_slice record_bytes start (start + flen))).
Proof.
  induction fields as [|[[fn ft] fl] fs IH]; intros i offset fname ftype flen Hi; [done|].
  destruct i as [|i]; simpl in *.
  - injection Hi as -> -> ->. unfold compute_record_size. simpl.
    by rewrite Z.add_0_r.
  - rewrite (IH i (offset + fl) fname ftype flen Hi).
    rewrite compute_record_size_cons. simpl. do 3 f_equal; lia.
Qed.

(** Four bytes read as a signed big-endian integer. *)
Lemma bytes_to_int_four chunk :
  len chunk = 4 → Forall byte_value chunk →
  -2147483648 ≤ bytes_to_int chunk < 2147483648
  ∧ bytes_to_int chunk mod 4294967296 = be_value chunk.
Proof.
  intros Hlen Hb. unfold len in Hlen.
  destruct chunk as [|b0 [|b1 [|b2 [|b3 [|]]]]]; simpl in Hlen; try lia.
  repeat match goal with H : Forall _ (_ :: _) |- _ => inversion_clear H end.
  unfold byte_value, bytes_to_int, be_value, len in *. simpl.
  repeat case_cmp; dlia.
Qed.




(** ** An out-of-range integer *)

Lemma pack_fields_app fs1 : ∀ vs1 f fs2 v vs2,
  length vs1 = length fs1 →
  pack_fields (fs1 ++ f :: fs2) (vs1 ++ v :: vs2) =
    (b1 ← pack_fields fs1 vs1;
     chunk ← pack_field f.1.2 f.2 v;
     rest ← pack_fields fs2 vs2;
     Ok (b1 ++ chunk ++ rest)).
Proof.
  induction fs1 as [|[[fname ftype] flen] fs1 IH];
    intros [|v1 vs1] [[fn ft] fl] fs2 v vs2 Hlen; simplify_eq/=.
  - destruct (pack_field ft fl v); simpl; [|done]. by destruct (pack_fields fs2 vs2).
  - rewrite IH by done. destruct (pack_field ftype flen v1) as [c1|]; simpl; [|done].
    destruct (pack_fields fs1 vs1) as [b1|]; simpl; [|done].
    destruct (pack_field ft fl v) as [c|]; simpl; [|done].
    destruct (pack_fields fs2 vs2) as [r|]; simpl; [|done].
    by rewrite <- app_assoc.
Qed.

Lemma len_tokens_ge {A} (a b c : A) (l : list A) n :
  l ≠ [] → n ≤ 4 → (len (a :: b :: c :: l) <? n) = false.
Proof.
  intros Hl Hn. apply Z.ltb_ge. destruct l; [done|]. unfold len. simpl. lia.
Qed.

(** C9.  When the values of an insert request pass the checks before the
    encoding (the type exists, there is one value per field, the key is
    not found) and the first value that [pack_record] cannot encode is
    an Integer text that parses to an integer outside four signed bytes,
    [pack_record] raises [OverflowError], which [except ValueError] does
    not catch: the handler raises it, returns no outcome, logs nothing
    and leaves the files as they were. *)
Theorem overflow_escapes_insert s c1 c2 tname catalog entry
    fs1 fname flen fs2 vs1 v vs2 b1 z pk_value :
  read_catalog s = Ok catalog →
  catalog !! tname = Some entry →
  fields entry = fs1 ++ (fname, kw_int, flen) :: fs2 →
  length vs1 = length fs1 →
  len (vs1 ++ v :: vs2) = num_fields entry →
  py_index (vs1 ++ v :: vs2) (pk_index entry - 1) = Ok pk_value →
  find_record_page_slot tname pk_value s = Ok None →
  pack_fields fs1 vs1 = Ok b1 →
  py_int v = Some z →
  z < -2147483648 ∨ 2147483648 ≤ z →
  pack_record (fields entry) (vs1 ++ v :: vs2) = Raise OverflowError
  ∧ is_value_error OverflowError = false
  ∧ handle_create_record (c1 :: c2 :: tname :: vs1 ++ v :: vs2) s
    = (Raise OverflowError, s).
Proof.
  intros Hcat Ht Hf Hl Hn Hpk Hfind Hb1 Hv Hz.
  assert (pack_record (fields entry) (vs1 ++ v :: vs2) = Raise OverflowError) as Hpack.
  { unfold pack_record. rewrite Hf, pack_fields_app by done. rewrite Hb1. simpl.
    unfold pack_field, int_of_str. simpl. rewrite Hv. simpl.
    by rewrite int_to_bytes_overflow. }
  split; [done|]. split; [done|].
  unfold handle_create_record.
  rewrite len_tokens_ge; [|by destruct vs1|lia].
  rewrite Hcat, Ht. rewrite bool_decide_eq_false_2 by (intros ?; done).
  rewrite Hpk. simpl. rewrite Hfind, Hpack. done.
Qed.

Lemma overflow_escapes_insert_witness :
  handle_create_record [str "create"; str "record"; str "T"; str "2147483648"] fs_T
  = (Raise OverflowError, fs_T).
Proof.
  apply (overflow_escapes_insert fs_T (str "create") (str "record") (str "T")
           (<[str "T" := schema_T]> ∅) schema_T [] (str "id") 4 [] []
           (str "2147483648") [] [] 2147483648 (str "2147483648")).
  - vm_compute. reflexivity.
  - vm_compute. reflexivity.
  - reflexivity.
  - reflexivity.
  - reflexivity.
  - reflexivity.
  - vm_compute. reflexivity.
  - reflexivity.
  - reflexivity.
  - lia.
Defined.

(** ** Validation of [create type] *)











(** ** Loading the catalog *)

Lemma int_of_str_Ok s z : int_of_str s = Ok z ↔ py_int s = Some z.
Proof.
  unfold int_of_str. destruct (py_int s); split; intros H; by simplify_eq.
Qed.

Lemma parse_field_spec fld :
  (∀ f, parse_field fld = Ok f ↔ well_formed_field fld f)
  ∧ (∀ e, parse_field fld = Raise e → e = ValueError).
Proof.
  unfold parse_field, well_formed_field, int_of_str.
  destruct (split_on comma fld) as [|a [|b [|c [|??]]]];
    try (split; [intros f; split; [done|by intros (? & ? & ?)]|by intros ? [= <-]]).
  destruct (py_int c) as [z|] eqn:Hc; simpl; split.
  - intros [[fn ft] fl]; simpl. split.
    + intros [= <- <- <-]. by exists c.
    + intros (? & [= <- <- <-] & Hz). rewrite Hc in Hz. by injection Hz as <-.
  - done.
  - intros [[fn ft] fl]; simpl. split; [done|].
    intros (? & [= <- <- <-] & Hz). by rewrite Hc in Hz.
  - by intros ? [= <-].
Qed.

Lemma parse_fields_spec flds :
  (∀ fs, parse_fields flds = Ok fs ↔ Forall2 well_formed_field flds fs)
  ∧ (∀ e, parse_fields flds = Raise e → e = ValueError).
Proof.
  induction flds as [|fld flds [IH1 IH2]]; simpl.
  - split; [|done]. intros fs. split; [intros [= <-]; constructor|].
    by inversion 1.
  - destruct (parse_field_spec fld) as [Hf1 Hf2].
    destruct (parse_field fld) as [f|e] eqn:Hf; simpl.
    + destruct (parse_fields flds) as [fs'|e] eqn:Hfs; simpl.
      * split; [|done]. intros fs. split.
        -- intros [= <-]. constructor; [by apply Hf1|by apply IH1].
        -- inversion 1 as [|???? Hw Hws]; subst.
           apply Hf1 in Hw. apply IH1 in Hws. congruence.
      * split; [|by intros ? [= <-]; apply IH2].
        intros fs. split; [done|]. inversion 1 as [|???? Hw Hws]; subst.
        apply IH1 in Hws. done.
    + split; [|by intros ? [= <-]; apply Hf2].
      intros fs. split; [done|]. inversion 1 as [|???? Hw Hws]; subst.
      apply Hf1 in Hw. done.
Qed.

(** The [try] body stores the entry of a well-formed line, and nothing
    for any other; it raises nothing but [ValueError]. *)
Lemma parse_entry_spec tname nf_str pk_str flds :
  let parts := tname :: nf_str :: pk_str :: flds in
  (∀ t e, parse_entry parts = Ok (Some (t, e)) ↔
     t = tname ∧ py_int nf_str = Some (num_fields e)
     ∧ py_int pk_str = Some (pk_index e)
     ∧ Forall2 well_formed_field flds (fields e)
     ∧ len (fields e) = num_fields e)
  ∧ (∀ e, parse_entry parts = Raise e → e = ValueError).
Proof.
  simpl. unfold int_of_str.
  destruct (parse_fields_spec flds) as [Hfs1 Hfs2].
  destruct (py_int nf_str) as [nf|]; simpl;
    [|split; [intros ??; split; [done|by intros (? & ? & ?)]|by intros ? [= <-]]].
  destruct (py_int pk_str) as [pk|]; simpl;
    [|split; [intros ??; split; [done|by intros (? & ? & ? & ?)]|by intros ? [= <-]]].
  destruct (parse_fields flds) as [fs|e'] eqn:Hfs; simpl.
  - case_bool_decide as Hn; (split; [|done]); intros t [nf' pk' fs']; simpl.
    + split; [done|]. intros (-> & [= <-] & [= <-] & Hw%Hfs1 & Hl). congruence.
    + split.
      * intros [= <- <- <- <-]. repeat split; [by apply Hfs1|].
        destruct (decide (len fs = nf)); [done|]. by destruct Hn.
      * intros (-> & [= <-] & [= <-] & Hw%Hfs1 & Hl). congruence.
  - split; [|by intros ? [= <-]; apply Hfs2].
    intros t [nf' pk' fs']; simpl. split; [done|].
    intros (-> & _ & _ & Hw%Hfs1 & _). done.
Qed.

Lemma well_formed_line_fun line t1 e1 t2 e2 :
  well_formed_line line t1 e1 → well_formed_line line t2 e2 → t1 = t2 ∧ e1 = e2.
Proof.
  intros (nf1 & pk1 & fl1 & Hs1 & ? & ? & Hw1 & ?) (nf2 & pk2 & fl2 & Hs2 & ? & ? & Hw2 & ?).
  rewrite Hs1 in Hs2. injection Hs2 as <- <- <- <-.
  destruct (parse_entry_spec t1 nf1 pk1 fl1) as [Hp _].
  assert (parse_entry (t1 :: nf1 :: pk1 :: fl1) = Ok (Some (t1, e1))) as He1
    by (apply Hp; done).
  assert (parse_entry (t1 :: nf1 :: pk1 :: fl1) = Ok (Some (t1, e2))) as He2
    by (apply Hp; done).
  split; [done|congruence].
Qed.

(** One turn of the loop: a well-formed line stores its entry, any
    other line leaves the catalog as it is; no line stops the loop. *)
Lemma read_catalog_line_spec catalog line :
  (∃ t e, well_formed_line line t e
          ∧ read_catalog_line catalog line = Ok (<[t := e]> catalog))
  ∨ ((∀ t e, ¬ well_formed_line line t e)
     ∧ read_catalog_line catalog line = Ok catalog).
Proof.
  unfold read_catalog_line, well_formed_line.
  case_bool_decide as Hempty.
  { right. split; [|done]. intros t e (? & ? & ? & Hs & _). by rewrite Hempty in Hs. }
  destruct (split_on bar (strip line)) as [|tname [|nf_str [|pk_str flds]]] eqn:Hparts;
    try (right; split; [intros t e (? & ? & ? & Hs & _); done|done]).
  assert ((len (tname :: nf_str :: pk_str :: flds) <? 3) = false) as ->
    by (rewrite !len_cons; pose proof (len_nonneg flds); lia).
  destruct (parse_entry_spec tname nf_str pk_str flds) as [Hok Hraise].
  cbn zeta in *.
  destruct (parse_entry (tname :: nf_str :: pk_str :: flds)) as [[[t e]|]|x].
  - left. exists t, e. destruct (proj1 (Hok t e) eq_refl) as (-> & ? & ? & ? & ?).
    split; [|done]. by exists nf_str, pk_str, flds.
  - right. split; [|done]. intros t e (? & ? & ? & [= <- <- <- <-] & ? & ? & ? & ?).
    assert (Ok None = Ok (Some (tname, e))) by (apply Hok; done). done.
  - right. rewrite (Hraise x eq_refl). split; [|done].
    intros t e (? & ? & ? & [= <- <- <- <-] & ? & ? & ? & ?).
    assert (Raise x = Ok (Some (tname, e)) :> result (option (pystr * schema)))
      by (apply Hok; done).
    done.
Qed.

(** The loop from any catalog: an entry of the result comes from the
    last well-formed line of its type, or from the catalog the loop
    started with when no line is one of its type. *)
Lemma read_catalog_lines_spec lines : ∀ catalog,
  ∃ catalog', read_catalog_lines catalog lines = Ok catalog' ∧
    ∀ t e, catalog' !! t = Some e ↔
      (∃ i line, lines !! i = Some line ∧ well_formed_line line t e
         ∧ ∀ j line' e', (i < j)%nat → lines !! j = Some line' →
                         ¬ well_formed_line line' t e')
      ∨ (catalog !! t = Some e
         ∧ ∀ j line' e', lines !! j = Some line' → ¬ well_formed_line line' t e').
Proof.
  induction lines as [|line lines IH]; intros catalog; simpl.
  - exists catalog. split; [done|]. intros t e. split; [by right|].
    intros [(i & ? & ? & _)|[? _]]; done.
  - destruct (read_catalog_line_spec catalog line) as [(t0 & e0 & Hwf & ->)|[Hnwf ->]]; simpl.
    + destruct (IH (<[t0 := e0]> catalog)) as (cat' & -> & Hcat').
      exists cat'. split; [done|]. intros t e. rewrite Hcat'. split.
      * intros [(i & l & Hi & Hl & Hlater)|[Hin Hnone]].
        -- left. exists (S i), l. split; [done|]. split; [done|].
           intros [|j] l' e' Hj Hl'; [lia|]. apply (Hlater j); [lia|done].
        -- destruct (decide (t0 = t)) as [->|Hne].
           ++ rewrite lookup_insert_eq in Hin. injection Hin as ->.
              left. exists 0%nat, line. split; [done|]. split; [done|].
              intros [|j] l' e' Hj Hl'; [lia|]. by apply (Hnone j).
           ++ rewrite lookup_insert_ne in Hin by done. right. split; [done|].
              intros [|j] l' e' Hl'; simpl in Hl'.
              ** injection Hl' as <-. intros Hw.
                 by destruct (well_formed_line_fun _ _ _ _ _ Hwf Hw).
              ** by apply (Hnone j).
      * intros [(i & l & Hi & Hl & Hlater)|[Hin Hnone]].
        -- destruct i as [|i]; simpl in Hi.
           ++ injection Hi as <-.
              destruct (well_formed_line_fun _ _ _ _ _ Hwf Hl) as [-> ->].
              right. rewrite lookup_insert_eq. split; [done|].
              intros j l' e'. apply (Hlater (S j)). lia.
           ++ left. exists i, l. split; [done|]. split; [done|].
              intros j l' e' Hj. apply (Hlater (S j)). lia.
        -- assert (t0 ≠ t) as Hne.
           { intros ->. by apply (Hnone 0%nat line e0). }
           right. rewrite lookup_insert_ne by done. split; [done|].
           intros j l' e'. apply (Hnone (S j)).
    + destruct (IH catalog) as (cat' & -> & Hcat').
      exists cat'. split; [done|]. intros t e. rewrite Hcat'. split.
      * intros [(i & l & Hi & Hl & Hlater)|[Hin Hnone]].
        -- left. exists (S i), l. split; [done|]. split; [done|].
           intros [|j] l' e' Hj Hl'; [lia|]. apply (Hlater j); [lia|done].
        -- right. split; [done|]. intros [|j] l' e' Hl'; simpl in Hl'.
           ++ injection Hl' as <-. apply Hnwf.
           ++ by apply (Hnone j).
      * intros [(i & l & Hi & Hl & Hlater)|[Hin Hnone]].
        -- destruct i as [|i]; simpl in Hi.
           ++ injection Hi as <-. by destruct (Hnwf t e).
           ++ left. exists i, l. split; [done|]. split; [done|].
              intros j l' e' Hj. apply (Hlater (S j)). lia.
        -- right. split; [done|]. intros j l' e'. apply (Hnone (S j)).
Qed.


(** ** Reading and writing ranges of a file *)

Lemma file_range_length f pos n :
  0 ≤ pos → 0 ≤ n → pos + n ≤ len f → len (file_range f pos n) = n.
Proof.
  intros. unfold file_range, len in *. rewrite length_take, length_drop. lia.
Qed.

Lemma file_range_lookup f pos n (j : nat) :
  file_range f pos n !! j
  = if decide (j < Z.to_nat n)%nat then f !! (Z.to_nat pos + j)%nat else None.
Proof.
  unfold file_range. case_decide.
  - rewrite lookup_take_lt by done. by rewrite lookup_drop.
  - by rewrite lookup_take_ge by lia.
Qed.

Lemma overwrite_length f pos d :
  0 ≤ pos → pos + len d ≤ len f → len (overwrite f pos d) = len f.
Proof.
  intros. unfold overwrite, len in *.
  rewrite !length_app, length_take, length_drop. lia.
Qed.

Lemma overwrite_lookup f pos d (j : nat) :
  0 ≤ pos → pos + len d ≤ len f →
  overwrite f pos d !! j
  = if decide (Z.to_nat pos ≤ j < Z.to_nat pos + length d)%nat
    then d !! (j - Z.to_nat pos)%nat else f !! j.
Proof.
  intros Hpos Hlen. unfold overwrite, len in *.
  destruct (decide (j < Z.to_nat pos)%nat).
  - rewrite lookup_app_l by (rewrite length_take; lia).
    rewrite lookup_take_lt by lia. case_decide; [lia|done].
  - rewrite lookup_app_r by (rewrite length_take; lia).
    rewrite length_take. replace (Z.to_nat pos `min` length f)%nat with (Z.to_nat pos) by lia.
    destruct (decide (j < Z.to_nat pos + length d)%nat).
    + rewrite lookup_app_l by lia. case_decide; [done|lia].
    + rewrite lookup_app_r by lia. rewrite lookup_drop.
      case_decide; [lia|]. f_equal. lia.
Qed.

(** A range that the write does not touch reads as before. *)
Lemma file_range_overwrite_other f pos d q m :
  0 ≤ pos → pos + len d ≤ len f → 0 ≤ q → 0 ≤ m →
  q + m ≤ pos ∨ pos + len d ≤ q →
  file_range (overwrite f pos d) q m = file_range f q m.
Proof.
  intros ?? ?? Hdisj. apply list_eq. intros j.
  rewrite !file_range_lookup. case_decide; [|done].
  rewrite overwrite_lookup by done. unfold len in *.
  case_decide; [lia|done].
Qed.

(** The range just written reads as what was written. *)
Lemma file_range_overwrite_same f pos d :
  0 ≤ pos → pos + len d ≤ len f →
  file_range (overwrite f pos d) pos (len d) = d.
Proof.
  intros. apply list_eq. intros j. rewrite file_range_lookup.
  unfold len in *. case_decide.
  - rewrite overwrite_lookup by (unfold len; lia).
    case_decide; [|lia]. f_equal. lia.
  - symmetry. apply lookup_ge_None. lia.
Qed.

Lemma file_range_app_l f g q m :
  0 ≤ q → 0 ≤ m → q + m ≤ len f →
  file_range (f ++ g) q m = file_range f q m.
Proof.
  intros. apply list_eq. intros j. rewrite !file_range_lookup.
  case_decide; [|done]. unfold len in *. by rewrite lookup_app_l by lia.
Qed.

Lemma file_range_app_r f g q m :
  0 ≤ q → 0 ≤ m →
  file_range (f ++ g) (len f + q) m = file_range g q m.
Proof.
  intros. unfold file_range, len.
  replace (Z.to_nat (Z.of_nat (length f) + q)) with (length f + Z.to_nat q)%nat by lia.
  by rewrite <- drop_drop, drop_app_length.
Qed.

Lemma read_at_range f pos n :
  0 ≤ pos → 0 ≤ n → read_at f pos n = Ok (file_range f pos n).
Proof. intros. unfold read_at. by repeat case_cmp. Qed.

Lemma write_at_overwrite f pos d :
  0 ≤ pos → pos + len d ≤ len f → write_at f pos d = Ok (overwrite f pos d).
Proof.
  intros. unfold write_at, overwrite. case_cmp. case_bool_decide as Hd.
  - subst d. simpl. by rewrite Nat.add_0_r, take_drop.
  - unfold len in *. by replace (Z.to_nat pos - length f)%nat with 0%nat by lia.
Qed.

Lemma write_at_end f d : write_at f (len f) d = Ok (f ++ d).
Proof.
  unfold write_at. pose proof (len_nonneg f). case_cmp. case_bool_decide as Hd.
  - subst d. by rewrite app_nil_r.
  - unfold len. rewrite Nat2Z.id, take_ge, Nat.sub_diag, drop_ge by lia.
    simpl. by rewrite app_nil_r.
Qed.

(** ** Pages of a data file *)

Lemma page_size_of_pos rs : 0 ≤ rs → 11 ≤ page_size_of rs.
Proof. unfold page_size_of, PAGE_HEADER_SIZE, NUM_SLOTS. lia. Qed.

Lemma compute_record_size_pos fields :
  Forall field_widths_ok fields → 1 ≤ compute_record_size fields.
Proof.
  induction 1 as [|f fs [_ Hf] _ IH]; [done|].
  rewrite compute_record_size_cons. lia.
Qed.

Lemma py_index_lookup {A} (l : list A) i x :
  0 ≤ i → l !! Z.to_nat i = Some x → py_index l i = Ok x.
Proof.
  intros Hi Hx. unfold py_index. assert ((i <? 0) = false) as -> by lia.
  cbv zeta. assert ((i <? 0) = false) as -> by lia. by rewrite Hx.
Qed.

Lemma py_index_nil {A} i : py_index (@nil A) i = Raise IndexError.
Proof. unfold py_index. by repeat case_cmp. Qed.

Lemma py_index_Ok_nonempty {A} (l : list A) i x : py_index l i = Ok x → l ≠ [].
Proof. intros H ->. by rewrite py_index_nil in H. Qed.

Lemma py_index_total {A} (l : list A) i :
  0 ≤ i < len l → ∃ x, l !! Z.to_nat i = Some x ∧ py_index l i = Ok x.
Proof.
  intros Hi. destruct (lookup_lt_is_Some_2 l (Z.to_nat i)) as [x Hx];
    [unfold len in *; lia|].
  exists x. split; [done|]. apply py_index_lookup; [lia|done].
Qed.

Section pages.
Context (rs : Z) (Hrs : 0 ≤ rs).
Local Abbreviation ps := (page_size_of rs).
Implicit Types f : list Z.

Lemma page_start_bounds f k :
  0 ≤ k → (k + 1) * ps ≤ len f →
  0 ≤ k * ps ∧ k * ps + 11 + NUM_SLOTS * rs ≤ len f.
Proof.
  intros. pose proof (page_size_of_pos rs Hrs).
  unfold page_size_of, PAGE_HEADER_SIZE, NUM_SLOTS in *. nia.
Qed.

Lemma header_of_length f k :
  0 ≤ k → (k + 1) * ps ≤ len f → length (header_of f rs k) = 11%nat.
Proof.
  intros Hk Hin. destruct (page_start_bounds f k Hk Hin) as [? Hb].
  pose proof (file_range_length f (k * ps) PAGE_HEADER_SIZE) as Hl.
  unfold header_of, len, PAGE_HEADER_SIZE, NUM_SLOTS in *. lia.
Qed.

Lemma header_of_split f k :
  0 ≤ k → (k + 1) * ps ≤ len f →
  header_of f rs k = count_of f rs k :: bitmap_of f rs k
  ∧ length (bitmap_of f rs k) = 10%nat.
Proof.
  intros Hk Hin. pose proof (header_of_length f k Hk Hin) as Hl.
  unfold count_of, bitmap_of. destruct (header_of f rs k) as [|c b]; [done|].
  cbn [lookup list_lookup default drop length] in *. rewrite ?drop_0.
  split; [done|]. injection Hl as Hl. exact Hl.
Qed.

Lemma header_read f k :
  0 ≤ k → (k + 1) * ps ≤ len f →
  read_at f (k * ps) PAGE_HEADER_SIZE = Ok (count_of f rs k :: bitmap_of f rs k).
Proof.
  intros Hk Hin. destruct (page_start_bounds f k Hk Hin).
  rewrite read_at_range by (done || unfold PAGE_HEADER_SIZE, NUM_SLOTS; lia).
  f_equal. by apply header_of_split.
Qed.

(** Past the last page there is no header to read. *)
Lemma header_read_end f n :
  0 ≤ n → len f = n * ps → read_at f (n * ps) PAGE_HEADER_SIZE = Ok [].
Proof.
  intros Hn Hlen. pose proof (page_size_of_pos rs Hrs).
  rewrite read_at_range by (unfold PAGE_HEADER_SIZE, NUM_SLOTS; nia).
  unfold file_range. rewrite drop_ge by (unfold len in *; lia). by rewrite take_nil.
Qed.

Lemma record_read f k i :
  0 ≤ k → (k + 1) * ps ≤ len f → 0 ≤ i < NUM_SLOTS →
  read_at f (k * ps + PAGE_HEADER_SIZE + i * rs) rs = Ok (record_of f rs k i)
  ∧ len (record_of f rs k i) = rs.
Proof.
  intros Hk Hin Hi. destruct (page_start_bounds f k Hk Hin).
  unfold record_of, PAGE_HEADER_SIZE, NUM_SLOTS in *.
  assert (0 ≤ i * rs) by nia. assert (i * rs + rs ≤ 10 * rs) by nia.
  rewrite read_at_range by lia. split; [done|].
  apply file_range_length; lia.
Qed.

Lemma bitmap_index f k i :
  0 ≤ k → (k + 1) * ps ≤ len f → 0 ≤ i < NUM_SLOTS →
  ∃ b, bitmap_of f rs k !! Z.to_nat i = Some b
       ∧ py_index (bitmap_of f rs k) i = Ok b.
Proof.
  intros Hk Hin Hi. destruct (header_of_split f k Hk Hin) as [_ Hl].
  unfold NUM_SLOTS in *.
  apply py_index_total. unfold len. lia.
Qed.

Lemma header_slice c (b : list Z) :
  length b = 10%nat → py_slice (c :: b) 1 (1 + NUM_SLOTS) = b.
Proof.
  intros Hl. rewrite py_slice_nonneg by (unfold NUM_SLOTS; lia).
  simpl. rewrite drop_0. apply take_ge. unfold NUM_SLOTS. lia.
Qed.

(** *** The scan for a free slot *)

Lemma first_free_spec (bitmap : list Z) : ∀ m a,
  0 ≤ a → a + Z.of_nat m ≤ len bitmap →
  ∃ r, first_free bitmap (seqZ a (Z.of_nat m)) = Ok r ∧
    match r with
    | Some i => a ≤ i < a + Z.of_nat m ∧ bitmap !! Z.to_nat i = Some 0
                ∧ ∀ j, a ≤ j < i → bitmap !! Z.to_nat j ≠ Some 0
    | None => ∀ j, a ≤ j < a + Z.of_nat m → bitmap !! Z.to_nat j ≠ Some 0
    end.
Proof.
  induction m as [|m IH]; intros a Ha Hlen.
  - exists None. split; [done|]. intros; lia.
  - rewrite seqZ_cons by lia. replace (Z.pred (Z.of_nat (S m))) with (Z.of_nat m) by lia.
    cbn [first_free].
    destruct (py_index_total bitmap a) as (b & Hb & ->); [lia|].
    simpl. destruct (Z.eqb_spec b 0) as [->|Hb0].
    + exists (Some a). split; [done|]. split; [lia|]. split; [done|]. intros; lia.
    + destruct (IH (Z.succ a)) as (r & -> & Hr); [lia..|].
      exists r. split; [done|]. destruct r as [i|].
      * destruct Hr as (? & ? & Hfirst). split; [lia|]. split; [done|].
        intros j Hj. destruct (decide (j = a)) as [->|]; [|apply Hfirst; lia].
        rewrite Hb. congruence.
      * intros j Hj. destruct (decide (j = a)) as [->|]; [|apply Hr; lia].
        rewrite Hb. congruence.
Qed.

Lemma find_free_slot_spec fields f k :
  0 ≤ k → (k + 1) * ps ≤ len f →
  ∃ r, find_free_slot_in_page (k * ps) fields f = (Ok r, f) ∧
    match r with
    | Some i => first_free_slot f rs k i
    | None => page_full f rs k
    end.
Proof.
  intros Hk Hin. unfold find_free_slot_in_page.
  destruct (header_of_split f k Hk Hin) as [Hh Hl].
  unfold mbind, io_bind, io_read. rewrite header_read by done.
  assert ((len (count_of f rs k :: bitmap_of f rs k) <? PAGE_HEADER_SIZE) = false) as ->
    by (rewrite len_cons; unfold len, PAGE_HEADER_SIZE, NUM_SLOTS; lia).
  unfold io_lift. rewrite (py_index_lookup _ 0 (count_of f rs k)) by done.
  destruct (Z.leb_spec NUM_SLOTS (count_of f rs k)) as [Hfull|Hroom].
  { exists None. split; [done|]. by left. }
  rewrite header_slice by done.
  destruct (first_free_spec (bitmap_of f rs k) 10 0) as (r & Hr & Hspec);
    [lia|unfold len; lia|].
  change (Z.of_nat 10) with NUM_SLOTS in *. rewrite Hr.
  exists r. split; [done|]. destruct r as [i|].
  - destruct Hspec as (? & ? & ?). unfold first_free_slot. by repeat split; try lia.
  - right. intros j Hj. apply Hspec. lia.
Qed.

End pages.

(** ** Locating a record *)

Section locate.
Context (fields : list field) (pk_idx : Z) (pk_value : list Z).
Context (Hw : Forall field_widths_ok fields).
Context (Hpk : 0 ≤ pk_idx < len fields).
Local Abbreviation rs := (compute_record_size fields).
Local Abbreviation ps := (page_size_of (compute_record_size fields)).
Implicit Types f : list Z.

Lemma rs_nonneg : 0 ≤ rs.
Proof using Hw. pose proof (compute_record_size_pos fields Hw). lia. Qed.

(** With a key index inside the schema every record has a key. *)
Lemma key_of_total f k i : ∃ v, key_of f fields pk_idx k i = Ok v.
Proof using Hpk.
  unfold key_of.
  destruct (py_index_total (unpack_record fields (record_of f rs k i)) pk_idx)
    as (v & _ & ->); [|by exists v].
  unfold len, unpack_record in *. by rewrite unpack_fields_length.
Qed.

Lemma scan_slots_spec f k :
  0 ≤ k → (k + 1) * ps ≤ len f →
  ∀ m a, 0 ≤ a → a + Z.of_nat m ≤ NUM_SLOTS →
  ∃ r, scan_slots f fields pk_idx pk_value rs (k * ps) (bitmap_of f rs k)
         (seqZ a (Z.of_nat m)) = Ok r ∧
    match r with
    | Some i => a ≤ i < a + Z.of_nat m
                ∧ bitmap_of f rs k !! Z.to_nat i = Some 1
                ∧ key_of f fields pk_idx k i = Ok pk_value
    | None => ∀ i, a ≤ i < a + Z.of_nat m →
                bitmap_of f rs k !! Z.to_nat i = Some 1 →
                key_of f fields pk_idx k i ≠ Ok pk_value
    end.
Proof using Hw Hpk.
  intros Hk Hin. pose proof rs_nonneg as Hrs.
  induction m as [|m IH]; intros a Ha Hm.
  - exists None. split; [done|]. intros; lia.
  - rewrite seqZ_cons by lia. replace (Z.pred (Z.of_nat (S m))) with (Z.of_nat m) by lia.
    cbn [scan_slots].
    destruct (bitmap_index rs Hrs f k a Hk Hin) as (b & Hb & ->); [lia|].
    destruct (IH (Z.succ a)) as (r & Hr & Hspec); [lia..|].
    rewrite bind_Ok.
    destruct (Z.eqb_spec b 1) as [->|Hb1].
    + destruct (record_read rs Hrs f k a Hk Hin) as [-> _]; [lia|].
      rewrite bind_Ok.
      destruct (key_of_total f k a) as [v Hv]. unfold key_of in Hv. rewrite Hv.
      rewrite bind_Ok. case_bool_decide as Heq.
      * exists (Some a). split; [done|]. split; [lia|]. split; [done|].
        unfold key_of. by rewrite Hv, Heq.
      * rewrite Hr. exists r. split; [done|]. destruct r as [i|].
        -- destruct Hspec as (? & ? & ?). split; [lia|]. done.
        -- intros i Hi Hbit. destruct (decide (i = a)) as [->|]; [|apply Hspec; [lia|done]].
           unfold key_of. rewrite Hv. congruence.
    + rewrite Hr. exists r. split; [done|]. destruct r as [i|].
      * destruct Hspec as (? & ? & ?). split; [lia|]. done.
      * intros i Hi Hbit. destruct (decide (i = a)) as [->|]; [|apply Hspec; [lia|done]].
        rewrite Hb in Hbit. congruence.
Qed.

(** The page loop from page [k] on: it returns a live record with the
    key, or nothing when no live record from page [k] on has it. *)
Lemma scan_pages_spec f n :
  whole_pages f rs n →
  ∀ (d : nat) k fuel, 0 ≤ k → k + Z.of_nat d = n → (d < fuel)%nat →
  ∃ r, scan_pages f fields pk_idx pk_value rs ps fuel (k * ps) = Ok r ∧
    match r with
    | Some (off, i) =>
        ∃ k', off = k' * ps ∧ k ≤ k' < n ∧ live f rs k' i
              ∧ key_of f fields pk_idx k' i = Ok pk_value
    | None =>
        ∀ k' i, k ≤ k' < n → live f rs k' i →
                key_of f fields pk_idx k' i ≠ Ok pk_value
    end.
Proof using Hw Hpk.
  intros [Hn Hlen]. pose proof rs_nonneg as Hrs.
  induction d as [|d IH]; intros k fuel Hk Hd Hfuel;
    (destruct fuel as [|fuel]; [lia|]); cbn [scan_pages].
  - replace k with n by lia. rewrite header_read_end by done. rewrite bind_Ok.
    exists None. split; [done|]. intros; lia.
  - pose proof (page_size_of_pos rs Hrs) as Hps.
    assert ((k + 1) * ps ≤ len f) as Hin
      by (rewrite Hlen; apply Z.mul_le_mono_nonneg_r; lia).
    rewrite header_read by done. rewrite bind_Ok.
    destruct (header_of_split rs Hrs f k Hk Hin) as [Hh Hl].
    rewrite bool_decide_eq_false_2 by done.
    assert ((len (count_of f rs k :: bitmap_of f rs k) <? PAGE_HEADER_SIZE) = false) as ->
      by (rewrite len_cons; unfold len, PAGE_HEADER_SIZE, NUM_SLOTS; lia).
    cbn [orb]. rewrite (py_index_lookup _ 0 (count_of f rs k)) by done. rewrite bind_Ok.
    rewrite header_slice by done.
    replace (k * ps + ps) with ((k + 1) * ps) by lia.
    destruct (IH (k + 1) fuel) as (r & Hr & Hspec); [lia..|].
    assert (∀ k' i, k ≤ k' < n → live f rs k' i →
              (k' = k → key_of f fields pk_idx k i ≠ Ok pk_value) →
              match r with
              | Some _ => True
              | None => key_of f fields pk_idx k' i ≠ Ok pk_value
              end) as Hrest.
    { intros k' i Hk' Hlive Hhere. destruct r; [done|].
      destruct (decide (k' = k)) as [->|]; [by apply Hhere|].
      apply Hspec; [lia|done]. }
    destruct (Z.eqb_spec (count_of f rs k) 0) as [Hzero|Hnz].
    + rewrite Hr. exists r. split; [done|]. destruct r as [[off i]|].
      * destruct Hspec as (k' & ? & ? & ?). exists k'. split; [done|]. split; [lia|done].
      * intros k' i Hk' Hlive. apply (Hrest k' i Hk' Hlive).
        intros ->. destruct Hlive as (_ & _ & _ & Hc & _). done.
    + destruct (scan_slots_spec f k Hk Hin 10 0) as (found & Hscan & Hfound);
        [lia|unfold NUM_SLOTS; lia|].
      change (Z.of_nat 10) with NUM_SLOTS in Hscan. rewrite Hscan, bind_Ok. destruct found as [i|].
      * exists (Some (k * ps, i)). split; [done|]. exists k.
        destruct Hfound as (? & ? & ?). split; [done|]. split; [lia|].
        split; [|done]. unfold live, NUM_SLOTS in *. repeat split; try done; lia.
      * rewrite Hr. exists r. split; [done|]. destruct r as [[off i]|].
        -- destruct Hspec as (k' & ? & ? & ?). exists k'. split; [done|]. split; [lia|done].
        -- intros k' i Hk' Hlive. apply (Hrest k' i Hk' Hlive).
           intros ->. destruct Hlive as (_ & _ & ? & _ & Hbit).
           apply Hfound; [unfold NUM_SLOTS in *; lia|done].
Qed.

End locate.

(** ** Duplicate keys *)

Lemma read_catalog_log op st s : read_catalog (log_operation op st s) = read_catalog s.
Proof. reflexivity. Qed.

Lemma find_record_page_slot_log tname pk op st s :
  find_record_page_slot tname pk (log_operation op st s)
  = find_record_page_slot tname pk s.
Proof. reflexivity. Qed.

Lemma live_page_bound f rs n k i :
  0 ≤ rs → whole_pages f rs n → live f rs k i → 0 ≤ k < n.
Proof.
  intros Hrs [Hn Hlen] (Hk & Hin & _). pose proof (page_size_of_pos rs Hrs).
  split; [done|]. rewrite Hlen in Hin. nia.
Qed.

(** [find_record_page_slot] on a stored type: it returns a live record
    whose key is the one looked for, or nothing when no live record has
    it. *)
Lemma find_record_page_slot_spec s tname e f n pk_value :
  type_stored s tname e f n →
  ∃ r, find_record_page_slot tname pk_value s = Ok r ∧
    match r with
    | Some (off, i) =>
        ∃ k, off = k * page_size_of (compute_record_size (fields e))
             ∧ live f (compute_record_size (fields e)) k i
             ∧ key_of f (fields e) (pk_index e - 1) k i = Ok pk_value
    | None =>
        ∀ k i, live f (compute_record_size (fields e)) k i →
               key_of f (fields e) (pk_index e - 1) k i ≠ Ok pk_value
    end.
Proof.
  intros ((catalog & Hcat & Ht) & Hw & Hpk & Hf & Hpages).
  unfold find_record_page_slot. rewrite Hcat, bind_Ok, Ht, Hf.
  pose proof (rs_nonneg (fields e) Hw) as Hrs.
  pose proof (page_size_of_pos _ Hrs) as Hps.
  destruct Hpages as [Hn Hlen].
  destruct (scan_pages_spec (fields e) (pk_index e - 1) pk_value Hw
              ltac:(lia) f n (conj Hn Hlen) (Z.to_nat n) 0 (S (length f)))
    as (r & Hr & Hspec); [lia|lia|unfold len in *; nia|].
  change (0 * page_size_of (compute_record_size (fields e))) with 0 in Hr.
  unfold page_size_of in Hr at 1. rewrite Hr.
  exists r. split; [done|]. destruct r as [[off i]|].
  - destruct Hspec as (k & ? & ? & ? & ?). by exists k.
  - intros k i Hlive. apply Hspec; [|done].
    by apply (live_page_bound f _ n k i Hrs).
Qed.

(** C2.  For a stored type and an insert request with one value per
    field whose key text is the decoded key of a live record of the
    type: [handle_create_record] fails as a duplicate key, changes no
    file but the log, and a search for the key returns, before as after
    the request, the values of a live record with this key. *)
Theorem duplicate_key_rejected s c1 c2 tname values e f n k i pk_value :
  type_stored s tname e f n →
  len values = num_fields e →
  py_index values (pk_index e - 1) = Ok pk_value →
  live f (compute_record_size (fields e)) k i →
  key_of f (fields e) (pk_index e - 1) k i = Ok pk_value →
  let tokens := c1 :: c2 :: tname :: values in
  let s' := log_operation (join [space] tokens) false s in
  handle_create_record tokens s = (Ok (Failure DuplicateKey), s')
  ∧ catalog_meta s' = catalog_meta s
  ∧ dat_files s' = dat_files s
  ∧ ∃ k' i',
      live f (compute_record_size (fields e)) k' i'
      ∧ key_of f (fields e) (pk_index e - 1) k' i' = Ok pk_value
      ∧ ∀ d1 d2 s0, s0 = s ∨ s0 = s' →
          handle_search_record [d1; d2; tname; pk_value] s0
          = (Ok (Success (unpack_record (fields e)
                            (record_of f (compute_record_size (fields e)) k' i'))),
             log_operation (join [space] [d1; d2; tname; pk_value]) true s0).
Proof.
  intros Hst Hlen Hpkv Hlive Hkey tokens s'.
  destruct (find_record_page_slot_spec s tname e f n pk_value Hst) as (r & Hfind & Hr).
  destruct r as [[off i']|]; [|by destruct (Hr k i Hlive)].
  destruct Hr as (k' & -> & Hlive' & Hkey').
  destruct Hst as ((catalog & Hcat & Ht) & Hw & Hpk & Hf & Hpages).
  split.
  { subst tokens. unfold handle_create_record.
    rewrite len_tokens_ge; [|by eapply py_index_Ok_nonempty|lia].
    rewrite Hcat, Ht. rewrite bool_decide_eq_false_2 by (intros ?; done).
    rewrite Hpkv, bind_Ok, Hfind. done. }
  split; [done|]. split; [done|].
  exists k', i'. split; [done|]. split; [done|].
  intros d1 d2 s0 Hs0.
  assert (read_catalog s0 = Ok catalog ∧ dat_files s0 = dat_files s
          ∧ find_record_page_slot tname pk_value s0 = Ok (Some
              (k' * page_size_of (compute_record_size (fields e)), i'))) as (Hc0 & Hd0 & Hf0)
    by (destruct Hs0 as [-> | ->]; done).
  unfold handle_search_record. rewrite Hc0, Ht, Hf0, Hd0, Hf.
  pose proof (rs_nonneg (fields e) Hw) as Hrs.
  destruct Hlive' as (? & ? & ? & _).
  by destruct (record_read _ Hrs f k' i') as [-> _].
Qed.

(** ** What a write leaves of the pages *)

Lemma mul_step a b c : a < b → 0 ≤ c → a * c + c ≤ b * c.
Proof. nia. Qed.

Section effects.
Context (rs : Z) (Hrs : 0 ≤ rs).
Local Abbreviation ps := (page_size_of rs).
Implicit Types f d : list Z.

(** A write inside a slot leaves every header as it was. *)
Lemma header_of_overwrite_slot f k i d k' :
  0 ≤ k → (k + 1) * ps ≤ len f → 0 ≤ i < NUM_SLOTS → len d ≤ rs → 0 ≤ k' →
  header_of (overwrite f (k * ps + PAGE_HEADER_SIZE + i * rs) d) rs k'
  = header_of f rs k'.
Proof using Hrs.
  intros Hk Hin Hi Hd Hk'. destruct (page_start_bounds rs Hrs f k Hk Hin).
  pose proof (page_size_of_pos rs Hrs). pose proof (len_nonneg d).
  unfold header_of, PAGE_HEADER_SIZE, NUM_SLOTS in *.
  assert (0 ≤ i * rs) by nia. assert (i * rs + rs ≤ 10 * rs) by nia.
  assert (0 ≤ k' * ps) by nia.
  apply file_range_overwrite_other; try lia.
  destruct (Z.lt_trichotomy k' k) as [Hlt|[->|Hgt]].
  - pose proof (mul_step k' k ps Hlt). lia.
  - lia.
  - pose proof (mul_step k k' ps Hgt). unfold page_size_of, PAGE_HEADER_SIZE, NUM_SLOTS in *.
    lia.
Qed.

(** A write of a header leaves every other header as it was. *)
Lemma header_of_overwrite_header f k h k' :
  0 ≤ k → (k + 1) * ps ≤ len f → len h = PAGE_HEADER_SIZE → 0 ≤ k' → k' ≠ k →
  header_of (overwrite f (k * ps) h) rs k' = header_of f rs k'.
Proof using Hrs.
  intros Hk Hin Hh Hk' Hne. destruct (page_start_bounds rs Hrs f k Hk Hin).
  pose proof (page_size_of_pos rs Hrs).
  unfold header_of, PAGE_HEADER_SIZE, NUM_SLOTS in *.
  assert (0 ≤ k' * ps) by nia.
  apply file_range_overwrite_other; try lia.
  destruct (Z.lt_trichotomy k' k) as [Hlt|[->|Hgt]]; [|done|].
  - pose proof (mul_step k' k ps Hlt). lia.
  - pose proof (mul_step k k' ps Hgt). lia.
Qed.

Lemma header_of_overwrite_same f k h :
  0 ≤ k → (k + 1) * ps ≤ len f → len h = PAGE_HEADER_SIZE →
  header_of (overwrite f (k * ps) h) rs k = h.
Proof using Hrs.
  intros Hk Hin Hh. destruct (page_start_bounds rs Hrs f k Hk Hin).
  unfold header_of. rewrite <- Hh. apply file_range_overwrite_same; [done|].
  rewrite Hh. unfold PAGE_HEADER_SIZE, NUM_SLOTS in *. lia.
Qed.

(** A write of a header leaves every slot as it was. *)
Lemma record_of_overwrite_header f k h k' j :
  0 ≤ k → (k + 1) * ps ≤ len f → len h = PAGE_HEADER_SIZE →
  0 ≤ k' → 0 ≤ j < NUM_SLOTS →
  record_of (overwrite f (k * ps) h) rs k' j = record_of f rs k' j.
Proof using Hrs.
  intros Hk Hin Hh Hk' Hj. destruct (page_start_bounds rs Hrs f k Hk Hin).
  pose proof (page_size_of_pos rs Hrs).
  unfold record_of, PAGE_HEADER_SIZE, NUM_SLOTS in *.
  assert (0 ≤ j * rs) by nia. assert (j * rs + rs ≤ 10 * rs) by nia.
  assert (0 ≤ k' * ps) by nia.
  apply file_range_overwrite_other; try lia.
  destruct (Z.lt_trichotomy k' k) as [Hlt|[->|Hgt]].
  - pose proof (mul_step k' k ps Hlt). unfold page_size_of, PAGE_HEADER_SIZE, NUM_SLOTS in *.
    lia.
  - lia.
  - pose proof (mul_step k k' ps Hgt). lia.
Qed.

(** A write inside a slot leaves every other slot as it was. *)
Lemma record_of_overwrite_slot f k i d k' j :
  0 ≤ k → (k + 1) * ps ≤ len f → 0 ≤ i < NUM_SLOTS → len d ≤ rs →
  0 ≤ k' → 0 ≤ j < NUM_SLOTS → (k', j) ≠ (k, i) →
  record_of (overwrite f (k * ps + PAGE_HEADER_SIZE + i * rs) d) rs k' j
  = record_of f rs k' j.
Proof using Hrs.
  intros Hk Hin Hi Hd Hk' Hj Hne. destruct (page_start_bounds rs Hrs f k Hk Hin).
  pose proof (page_size_of_pos rs Hrs). pose proof (len_nonneg d).
  unfold record_of, PAGE_HEADER_SIZE, NUM_SLOTS in *.
  assert (0 ≤ i * rs) by nia. assert (i * rs + rs ≤ 10 * rs) by nia.
  assert (0 ≤ j * rs) by nia. assert (j * rs + rs ≤ 10 * rs) by nia.
  assert (0 ≤ k' * ps) by nia.
  apply file_range_overwrite_other; try lia.
  destruct (Z.lt_trichotomy k' k) as [Hlt|[->|Hgt]].
  - pose proof (mul_step k' k ps Hlt). unfold page_size_of, PAGE_HEADER_SIZE, NUM_SLOTS in *.
    lia.
  - assert (j ≠ i) by congruence.
    destruct (Z.lt_trichotomy j i) as [Hji|[->|Hij]]; [|done|].
    + pose proof (mul_step j i rs Hji). lia.
    + pose proof (mul_step i j rs Hij). lia.
  - pose proof (mul_step k k' ps Hgt). unfold page_size_of, PAGE_HEADER_SIZE, NUM_SLOTS in *.
    lia.
Qed.

Lemma record_of_overwrite_same f k i d :
  0 ≤ k → (k + 1) * ps ≤ len f → 0 ≤ i < NUM_SLOTS → len d = rs →
  record_of (overwrite f (k * ps + PAGE_HEADER_SIZE + i * rs) d) rs k i = d.
Proof using Hrs.
  intros Hk Hin Hi Hd. destruct (page_start_bounds rs Hrs f k Hk Hin).
  unfold record_of, PAGE_HEADER_SIZE, NUM_SLOTS in *.
  assert (0 ≤ i * rs) by nia. assert (i * rs + rs ≤ 10 * rs) by nia.
  etrans; [|apply (file_range_overwrite_same f (k * ps + (1 + 10) + i * rs) d); lia].
  by rewrite Hd.
Qed.

Lemma overwrite_slot_length f k i d :
  0 ≤ k → (k + 1) * ps ≤ len f → 0 ≤ i < NUM_SLOTS → len d ≤ rs →
  len (overwrite f (k * ps + PAGE_HEADER_SIZE + i * rs) d) = len f.
Proof using Hrs.
  intros Hk Hin Hi Hd. destruct (page_start_bounds rs Hrs f k Hk Hin).
  unfold PAGE_HEADER_SIZE, NUM_SLOTS in *.
  assert (0 ≤ i * rs) by nia. assert (i * rs + rs ≤ 10 * rs) by nia.
  apply overwrite_length; lia.
Qed.

Lemma overwrite_header_length f k h :
  0 ≤ k → (k + 1) * ps ≤ len f → len h = PAGE_HEADER_SIZE →
  len (overwrite f (k * ps) h) = len f.
Proof using Hrs.
  intros Hk Hin Hh. destruct (page_start_bounds rs Hrs f k Hk Hin).
  unfold PAGE_HEADER_SIZE, NUM_SLOTS in *. apply overwrite_length; lia.
Qed.

End effects.

(** ** Inserting into and clearing a slot *)

Lemma bytearray_set_head c (b : list Z) v :
  0 ≤ v < 256 → bytearray_set (c :: b) 0 v = Ok (v :: b).
Proof.
  intros Hv. unfold bytearray_set. pose proof (len_nonneg b).
  assert (((v <? 0) || (255 <? v)) = false) as -> by lia.
  change (0 <? 0) with false. cbv beta iota zeta.
  by assert (((0 <? 0) || (len (c :: b) <=? 0)) = false) as -> by (rewrite len_cons; lia).
Qed.

Lemma bytearray_set_tail c (b : list Z) i v :
  0 ≤ v < 256 → 0 ≤ i < len b →
  bytearray_set (c :: b) (1 + i) v = Ok (c :: <[Z.to_nat i := v]> b).
Proof.
  intros Hv Hi. unfold bytearray_set.
  assert (((v <? 0) || (255 <? v)) = false) as -> by lia.
  assert ((1 + i <? 0) = false) as -> by lia. cbv beta iota zeta.
  assert (((1 + i <? 0) || (len (c :: b) <=? 1 + i)) = false) as ->
    by (rewrite len_cons; lia).
  replace (Z.to_nat (1 + i)) with (S (Z.to_nat i)) by lia. done.
Qed.

Lemma io_bind_ok {A B} (m : io A) (k : A → io B) f a f' :
  m f = (Ok a, f') → (m ≫= k) f = k a f'.
Proof. intros H. unfold mbind, io_bind. by rewrite H. Qed.

Lemma io_write_end f d : io_write (len f) d f = (Ok (), f ++ d).
Proof. unfold io_write. by rewrite write_at_end. Qed.

Section insert_effects.
Context (fields : list field) (record_bytes : list Z) (rs : Z).
Context (Hrs : 1 ≤ rs) (Hrec : len record_bytes = rs).
Local Abbreviation ps := (page_size_of rs).
Implicit Types f : list Z.

(** The writes that put the record into a free slot. *)
Lemma place_record_writes f k i :
  0 ≤ count_of f rs k →
  0 ≤ k → (k + 1) * ps ≤ len f → first_free_slot f rs k i →
  (_ ← io_write (k * ps + PAGE_HEADER_SIZE + i * rs) record_bytes;
   header ← io_read (k * ps) PAGE_HEADER_SIZE;
   count ← io_lift (py_index header 0);
   header ← io_lift (bytearray_set header 0 (count + 1));
   header ← io_lift (bytearray_set header (1 + i) 1);
   _ ← io_write (k * ps) header;
   mret (Some ())) f
  = (Ok (Some ()), place_record f rs k i record_bytes).
Proof using Hrs Hrec.
  intros Hcb Hk Hin (Hc & Hi & Hbit & _).
  assert (0 ≤ rs) as Hrs0 by lia.
  destruct (page_start_bounds rs Hrs0 f k Hk Hin) as [Hp0 Hp1].
  destruct (header_of_split rs Hrs0 f k Hk Hin) as [Hh Hl].
  unfold mbind, io_bind, io_write, io_read, io_lift, mret, io_ret.
  unfold PAGE_HEADER_SIZE, NUM_SLOTS in *.
  assert (0 ≤ i * rs) by nia. assert (i * rs + rs ≤ 10 * rs) by nia.
  rewrite write_at_overwrite by lia.
  rewrite read_at_range by lia.
  pose proof (header_of_overwrite_slot rs Hrs0 f k i record_bytes k Hk Hin) as Hh1.
  unfold header_of, PAGE_HEADER_SIZE, NUM_SLOTS in Hh1, Hh.
  rewrite Hh1 by lia. rewrite Hh.
  rewrite (py_index_lookup _ 0 (count_of f rs k)) by done.
  rewrite bytearray_set_head by lia.
  rewrite bytearray_set_tail by (unfold len; lia).
  rewrite write_at_overwrite; [done|lia|].
  rewrite overwrite_length by lia.
  rewrite len_cons. unfold len in *. rewrite length_insert. lia.
Qed.

(** The loop over the pages from page [k] on. *)
Lemma fill_free_slot_spec f n :
  whole_pages f rs n → (∀ k, 0 ≤ k < n → 0 ≤ count_of f rs k) →
  ∀ (d : nat) k fuel, 0 ≤ k → k + Z.of_nat d = n → (d < fuel)%nat →
  ∃ r f', fill_free_slot fields record_bytes rs ps fuel (n * ps) (k * ps) f = (Ok r, f') ∧
    match r with
    | Some _ =>
        ∃ k' i, k ≤ k' < n ∧ (∀ j, k ≤ j < k' → page_full f rs j)
                ∧ first_free_slot f rs k' i
                ∧ f' = place_record f rs k' i record_bytes
    | None => f' = f ∧ ∀ j, k ≤ j < n → page_full f rs j
    end.
Proof using Hrs Hrec.
  intros [Hn Hlen] Hf. assert (0 ≤ rs) as Hrs0 by lia.
  pose proof (page_size_of_pos rs Hrs0) as Hps.
  induction d as [|d IH]; intros k fuel Hk Hd Hfuel;
    (destruct fuel as [|fuel]; [lia|]); cbn [fill_free_slot].
  - replace k with n by lia. rewrite Z.ltb_irrefl.
    exists None, f. split; [done|]. split; [done|]. intros; lia.
  - assert ((k + 1) * ps ≤ len f) as Hin
      by (rewrite Hlen; apply Z.mul_le_mono_nonneg_r; lia).
    assert ((k * ps <? n * ps) = true) as -> by nia.
    destruct (find_free_slot_spec rs Hrs0 fields f k Hk Hin) as (r & Hr & Hspec).
    unfold mbind at 1. unfold io_bind at 1. rewrite Hr.
    destruct r as [i|].
    + rewrite place_record_writes by (done || apply Hf; lia).
      exists (Some ()), (place_record f rs k i record_bytes). split; [done|].
      exists k, i. split; [lia|]. split; [intros; lia|]. done.
    + replace (k * ps + ps) with ((k + 1) * ps) by lia.
      destruct (IH (k + 1) fuel) as (r & f' & -> & Hrest); [lia..|].
      exists r, f'. split; [done|]. destruct r as [[]|].
      * destruct Hrest as (k' & i & ? & Hfull & ? & ?). exists k', i.
        split; [lia|]. split; [|done]. intros j Hj.
        destruct (decide (j = k)) as [->|]; [done|]. apply Hfull. lia.
      * destruct Hrest as [-> Hfull]. split; [done|]. intros j Hj.
        destruct (decide (j = k)) as [->|]; [done|]. apply Hfull. lia.
Qed.

Lemma zero_page_header :
  header_of (zero_page rs) rs 0 = replicate 11 0.
Proof using Hrs.
  pose proof (page_size_of_pos rs ltac:(lia)).
  unfold header_of, zero_page, file_range, PAGE_HEADER_SIZE, NUM_SLOTS.
  change (0 * ps) with 0. change (Z.to_nat 0) with 0%nat.
  rewrite drop_0, take_replicate.
  replace (Z.to_nat (1 + 10) `min` Z.to_nat ps)%nat with 11%nat by lia. done.
Qed.

Lemma zero_page_pages :
  whole_pages (zero_page rs) rs 1
  ∧ ∀ k, 0 ≤ k < 1 → 0 ≤ count_of (zero_page rs) rs k.
Proof using Hrs.
  pose proof (page_size_of_pos rs ltac:(lia)). split.
  - split; [lia|]. unfold zero_page, len. rewrite length_replicate. lia.
  - intros k Hk. replace k with 0 by lia. unfold count_of.
    by rewrite zero_page_header.
Qed.

Lemma zero_page_first_free i :
  first_free_slot (zero_page rs) rs 0 i ↔ i = 0.
Proof using Hrs.
  unfold first_free_slot, count_of, bitmap_of. rewrite zero_page_header. simpl.
  unfold NUM_SLOTS. split.
  - intros (_ & Hi & _ & Hfirst). destruct (decide (i = 0)) as [|Hne]; [done|].
    by destruct (Hfirst 0 ltac:(lia)).
  - intros ->. repeat split; try lia; try done.
Qed.

Lemma zero_page_not_full : ¬ page_full (zero_page rs) rs 0.
Proof using Hrs.
  unfold page_full, count_of, bitmap_of. rewrite zero_page_header. simpl.
  unfold NUM_SLOTS. intros [?|Hfull]; [lia|]. by apply (Hfull 0 ltac:(lia)).
Qed.

(** The [with] block of [handle_create_record] on a file of whole pages:
    into the zeroed first page of an empty file; into the first free
    slot of the first page that has one; into a new page when every
    page is full and the file is below the cap; nowhere at the cap. *)
Lemma insert_record_spec f n :
  whole_pages f rs n → (∀ k, 0 ≤ k < n → 0 ≤ count_of f rs k) →
  ∃ o f', insert_record fields record_bytes rs ps f = (Ok o, f')
          ∧ insert_outcome f rs n record_bytes o f'.
Proof using Hrs Hrec.
  intros Hpages Hf. pose proof Hpages as [Hn Hlen].
  assert (0 ≤ rs) as Hrs0 by lia.
  pose proof (page_size_of_pos rs Hrs0) as Hps.
  unfold insert_record, insert_outcome.
  rewrite (io_bind_ok io_size _ f (len f) f eq_refl).
  destruct (decide (n = 0)) as [->|Hn0].
  - (* an empty file *)
    assert (f = []) as -> by (destruct f; [done|]; rewrite len_cons in Hlen;
                              pose proof (len_nonneg f); lia).
    change (len [] =? 0) with true. cbv iota.
    assert ((_ ← io_write 0 (replicate (Z.to_nat (1 + NUM_SLOTS)) 0);
             _ ← io_write PAGE_HEADER_SIZE (replicate (Z.to_nat (NUM_SLOTS * rs)) 0);
             mret ps) [] = (Ok ps, zero_page rs)) as Hinit.
    { rewrite (io_bind_ok _ _ _ _ _ (io_write_end [] _)), app_nil_l.
      replace PAGE_HEADER_SIZE with (len (replicate (Z.to_nat (1 + NUM_SLOTS)) 0))
        by (unfold len; rewrite length_replicate; done).
      rewrite (io_bind_ok _ _ _ _ _ (io_write_end _ _)).
      unfold mret, io_ret. f_equal.
      unfold zero_page, page_size_of, PAGE_HEADER_SIZE, NUM_SLOTS.
      rewrite <- replicate_add. f_equal. lia. }
    rewrite (io_bind_ok _ _ _ _ _ Hinit).
    destruct zero_page_pages as [Hzp Hzb].
    destruct (fill_free_slot_spec (zero_page rs) 1 Hzp Hzb 1 0 (S (Z.to_nat ps)))
      as (r & f' & Hfill & Hr); [lia..|].
    change (0 * ps) with 0 in Hfill. rewrite Z.mul_1_l in Hfill.
    rewrite (io_bind_ok _ _ _ _ _ Hfill).
    destruct r as [[]|].
    + destruct Hr as (k & i & Hk & _ & Hfree & ->).
      assert (k = 0) as -> by lia. apply zero_page_first_free in Hfree as ->.
      exists (Success ()), (place_record (zero_page rs) rs 0 0 record_bytes).
      split; [done|]. by left.
    + destruct Hr as [_ Hfull]. by destruct (zero_page_not_full (Hfull 0 ltac:(lia))).
  - assert (0 < n) by lia. assert ((len f =? 0) = false) as -> by nia.
    rewrite (io_bind_ok (mret (len f)) _ f (len f) f eq_refl).
    destruct (fill_free_slot_spec f n Hpages Hf (Z.to_nat n) 0 (S (Z.to_nat (len f))))
      as (r & f' & Hfill & Hr); [lia|lia|nia|].
    change (0 * ps) with 0 in Hfill. rewrite <- Hlen in Hfill.
    rewrite (io_bind_ok _ _ _ _ _ Hfill).
    destruct r as [[]|].
    + exists (Success ()), f'. split; [done|]. right. left. by repeat split.
    + destruct Hr as [-> Hfull].
      pose proof (len_nonneg f).
      assert ((len f <? 0) = false) as -> by lia.
      rewrite (io_bind_ok (io_lift (Ok ())) _ f () f eq_refl).
      assert (len f / ps = n) as -> by (rewrite Hlen; apply Z.div_mul; lia).
      destruct (Z.leb_spec MAX_PAGES n).
      { exists (Failure CapacityExceeded), f. split; [done|]. by do 3 right. }
      rewrite (io_bind_ok _ _ _ _ _ (io_write_end f _)).
      assert ((NUM_SLOTS * rs <? 0) = false) as -> by (unfold NUM_SLOTS; lia).
      set (header := 1 :: 1 :: replicate (Z.to_nat NUM_SLOTS - 1) 0).
      rewrite (io_bind_ok (io_lift (Ok ())) _ (f ++ header) () _ eq_refl).
      replace (len f + PAGE_HEADER_SIZE) with (len (f ++ header))
        by (rewrite len_app; subst header; rewrite !len_cons; unfold len;
            rewrite length_replicate; unfold PAGE_HEADER_SIZE, NUM_SLOTS; lia).
      rewrite (io_bind_ok _ _ _ _ _ (io_write_end _ _)).
      exists (Success ()), (f ++ new_page rs record_bytes). split.
      * unfold mret, io_ret. f_equal. rewrite <- app_assoc. f_equal.
        unfold new_page. subst header.
        change (Z.to_nat NUM_SLOTS - 1)%nat with 9%nat. do 2 f_equal.
        unfold clamp_index, len. assert ((rs <? 0) = false) as -> by lia.
        rewrite length_replicate, drop_replicate.
        unfold NUM_SLOTS. f_equal. lia.
      * right. right. left. by repeat split.
Qed.

End insert_effects.

Section clear_effects.
Context (rs : Z) (Hrs : 1 ≤ rs).
Local Abbreviation ps := (page_size_of rs).
Implicit Types f : list Z.

(** The [with] block of [handle_delete_record] on a live record. *)
Lemma invalidate_slot_spec f k i :
  0 ≤ count_of f rs k < 256 → live f rs k i →
  invalidate_slot rs (k * ps) i f = (Ok (), clear_slot f rs k i).
Proof using Hrs.
  intros Hcb (Hk & Hin & Hi & Hc & Hbit).
  assert (0 ≤ rs) as Hrs0 by lia.
  destruct (page_start_bounds rs Hrs0 f k Hk Hin) as [Hp0 Hp1].
  destruct (header_of_split rs Hrs0 f k Hk Hin) as [Hh Hl].
  unfold invalidate_slot, clear_slot.
  unfold mbind, io_bind, io_write, io_read, io_lift, mret, io_ret.
  unfold PAGE_HEADER_SIZE, NUM_SLOTS in *.
  assert (0 ≤ i * rs) by nia. assert (i * rs + rs ≤ 10 * rs) by nia.
  rewrite write_at_overwrite by (change (len [0]) with 1; lia).
  rewrite read_at_range by lia.
  pose proof (header_of_overwrite_slot rs Hrs0 f k i [0] k Hk Hin) as Hh1.
  unfold header_of, PAGE_HEADER_SIZE, NUM_SLOTS in Hh1, Hh.
  rewrite Hh1 by (change (len [0]) with 1; lia). rewrite Hh.
  rewrite (py_index_lookup _ 0 (count_of f rs k)) by done.
  assert ((0 <? count_of f rs k) = true) as -> by lia.
  rewrite bytearray_set_head by lia.
  rewrite bytearray_set_tail by (unfold len; lia).
  rewrite write_at_overwrite; [done|lia|].
  rewrite overwrite_length by (change (len [0]) with 1; lia).
  rewrite len_cons. unfold len in *. rewrite length_insert. lia.
Qed.

End clear_effects.

(** ** The pages after a write *)

Lemma set_entries_nonneg b : 0 ≤ set_entries b.
Proof. unfold set_entries. apply len_nonneg. Qed.

Lemma set_entries_le b : set_entries b ≤ len b.
Proof. unfold set_entries, len. pose proof (length_filter (λ x, x = 1) b). lia. Qed.

Lemma set_entries_cons x b :
  set_entries (x :: b) = (if bool_decide (x = 1) then 1 else 0) + set_entries b.
Proof.
  unfold set_entries. rewrite filter_cons. case_bool_decide.
  - rewrite decide_True by done. rewrite len_cons. lia.
  - rewrite decide_False by done. lia.
Qed.

(** Setting or clearing one entry of a bitmap. *)
Lemma set_entries_insert b : ∀ (i : nat) x v,
  b !! i = Some x →
  set_entries (<[i := v]> b)
  = set_entries b - (if bool_decide (x = 1) then 1 else 0)
    + (if bool_decide (v = 1) then 1 else 0).
Proof.
  induction b as [|y b IH]; intros [|i] x v Hx; simplify_eq/=.
  - rewrite !set_entries_cons. lia.
  - rewrite !set_entries_cons, (IH i x v Hx). lia.
Qed.

Section page_facts.
Context (rs : Z) (Hrs : 1 ≤ rs).
Local Abbreviation ps := (page_size_of rs).
Implicit Types f : list Z.

Lemma rs0 : 0 ≤ rs.
Proof using Hrs. lia. Qed.

Lemma page_in_file f n k : whole_pages f rs n → 0 ≤ k < n → (k + 1) * ps ≤ len f.
Proof using Hrs.
  intros [Hn ->] Hk. pose proof (page_size_of_pos rs rs0).
  apply Z.mul_le_mono_nonneg_r; lia.
Qed.

Lemma count_bitmap_of_header f k c b :
  header_of f rs k = c :: b → count_of f rs k = c ∧ bitmap_of f rs k = b.
Proof. unfold count_of, bitmap_of. by intros ->. Qed.

(** *** A record placed into a slot *)

Section place.
Context (f : list Z) (n k i : Z) (record_bytes : list Z).
Context (Hpages : whole_pages f rs n) (Hk : 0 ≤ k < n) (Hi : 0 ≤ i < NUM_SLOTS).
Context (Hrec : len record_bytes = rs).
Local Abbreviation f' := (place_record f rs k i record_bytes).

Lemma place_record_pages : whole_pages f' rs n.
Proof using Hrs Hpages Hk Hi Hrec.
  pose proof (page_in_file f n k Hpages Hk) as Hin.
  destruct (header_of_split rs rs0 f k ltac:(lia) Hin) as [_ Hl].
  destruct Hpages as [Hn Hlen]. split; [done|]. rewrite <- Hlen.
  unfold place_record. cbv zeta.
  rewrite overwrite_header_length.
  - apply overwrite_slot_length; (done || lia).
  - exact rs0.
  - lia.
  - rewrite overwrite_slot_length by (done || lia || exact rs0). done.
  - rewrite len_cons. unfold len. rewrite length_insert, Hl. done.
Qed.

Lemma place_record_header k' :
  0 ≤ k' →
  header_of f' rs k'
  = if decide (k' = k)
    then count_of f rs k + 1 :: <[Z.to_nat i := 1]> (bitmap_of f rs k)
    else header_of f rs k'.
Proof using Hrs Hpages Hk Hi Hrec.
  intros Hk'. pose proof (page_in_file f n k Hpages Hk) as Hin.
  destruct (header_of_split rs rs0 f k ltac:(lia) Hin) as [_ Hl].
  assert (len (count_of f rs k + 1 :: <[Z.to_nat i := 1]> (bitmap_of f rs k))
          = PAGE_HEADER_SIZE) as Hh
    by (rewrite len_cons; unfold len; rewrite length_insert, Hl; done).
  assert ((k + 1) * ps
          ≤ len (overwrite f (k * ps + PAGE_HEADER_SIZE + i * rs) record_bytes)) as Hin1
    by (rewrite overwrite_slot_length by (done || lia || exact rs0); done).
  unfold place_record. cbv zeta. case_decide as Hkk.
  - subst k'. apply header_of_overwrite_same; (done || lia || exact rs0).
  - rewrite header_of_overwrite_header by (done || lia || exact rs0).
    apply header_of_overwrite_slot; (done || lia || exact rs0).
Qed.

Lemma place_record_slot k' j :
  0 ≤ k' → 0 ≤ j < NUM_SLOTS →
  record_of f' rs k' j
  = if decide ((k', j) = (k, i)) then record_bytes else record_of f rs k' j.
Proof using Hrs Hpages Hk Hi Hrec.
  intros Hk' Hj. pose proof (page_in_file f n k Hpages Hk) as Hin.
  destruct (header_of_split rs rs0 f k ltac:(lia) Hin) as [_ Hl].
  assert (len (count_of f rs k + 1 :: <[Z.to_nat i := 1]> (bitmap_of f rs k))
          = PAGE_HEADER_SIZE) as Hh
    by (rewrite len_cons; unfold len; rewrite length_insert, Hl; done).
  assert ((k + 1) * ps
          ≤ len (overwrite f (k * ps + PAGE_HEADER_SIZE + i * rs) record_bytes)) as Hin1
    by (rewrite overwrite_slot_length by (done || lia || exact rs0); done).
  unfold place_record. cbv zeta.
  rewrite record_of_overwrite_header by (done || lia || exact rs0).
  case_decide as Hkk.
  - injection Hkk as -> ->. apply record_of_overwrite_same; (done || lia || exact rs0).
  - apply record_of_overwrite_slot; (done || lia || exact rs0).
Qed.

End place.

(** *** A slot cleared *)

Section clear.
Context (f : list Z) (n k i : Z).
Context (Hpages : whole_pages f rs n) (Hk : 0 ≤ k < n) (Hi : 0 ≤ i < NUM_SLOTS).
Local Abbreviation f' := (clear_slot f rs k i).
Local Abbreviation count' :=
  (if 0 <? count_of f rs k then count_of f rs k - 1 else count_of f rs k).

Lemma clear_slot_pages : whole_pages f' rs n.
Proof using Hrs Hpages Hk Hi.
  pose proof (page_in_file f n k Hpages Hk) as Hin.
  destruct (header_of_split rs rs0 f k ltac:(lia) Hin) as [_ Hl].
  destruct Hpages as [Hn Hlen]. split; [done|]. rewrite <- Hlen.
  unfold clear_slot. cbv zeta.
  rewrite overwrite_header_length.
  - apply overwrite_slot_length; (done || (change (len [0]) with 1; lia) || lia).
  - exact rs0.
  - lia.
  - rewrite overwrite_slot_length
      by (done || (change (len [0]) with 1; lia) || lia || exact rs0). done.
  - rewrite len_cons. unfold len. rewrite length_insert, Hl. done.
Qed.

Lemma clear_slot_header k' :
  0 ≤ k' →
  header_of f' rs k'
  = if decide (k' = k)
    then count' :: <[Z.to_nat i := 0]> (bitmap_of f rs k)
    else header_of f rs k'.
Proof using Hrs Hpages Hk Hi.
  intros Hk'. pose proof (page_in_file f n k Hpages Hk) as Hin.
  destruct (header_of_split rs rs0 f k ltac:(lia) Hin) as [_ Hl].
  assert (len (count' :: <[Z.to_nat i := 0]> (bitmap_of f rs k))
          = PAGE_HEADER_SIZE) as Hh
    by (rewrite len_cons; unfold len; rewrite length_insert, Hl; done).
  assert (len [0] ≤ rs) as H1 by (change (len [0]) with 1; lia).
  assert ((k + 1) * ps
          ≤ len (overwrite f (k * ps + PAGE_HEADER_SIZE + i * rs) [0])) as Hin1
    by (rewrite overwrite_slot_length by (done || lia || exact rs0); done).
  unfold clear_slot. cbv zeta. case_decide as Hkk.
  - subst k'. apply header_of_overwrite_same; (done || lia || exact rs0).
  - rewrite header_of_overwrite_header by (done || lia || exact rs0).
    apply header_of_overwrite_slot; (done || lia || exact rs0).
Qed.

Lemma clear_slot_slot k' j :
  0 ≤ k' → 0 ≤ j < NUM_SLOTS → (k', j) ≠ (k, i) →
  record_of f' rs k' j = record_of f rs k' j.
Proof using Hrs Hpages Hk Hi.
  intros Hk' Hj Hne. pose proof (page_in_file f n k Hpages Hk) as Hin.
  destruct (header_of_split rs rs0 f k ltac:(lia) Hin) as [_ Hl].
  assert (len (count' :: <[Z.to_nat i := 0]> (bitmap_of f rs k))
          = PAGE_HEADER_SIZE) as Hh
    by (rewrite len_cons; unfold len; rewrite length_insert, Hl; done).
  assert (len [0] ≤ rs) as H1 by (change (len [0]) with 1; lia).
  assert ((k + 1) * ps
          ≤ len (overwrite f (k * ps + PAGE_HEADER_SIZE + i * rs) [0])) as Hin1
    by (rewrite overwrite_slot_length by (done || lia || exact rs0); done).
  unfold clear_slot. cbv zeta.
  rewrite record_of_overwrite_header by (done || lia || exact rs0).
  apply record_of_overwrite_slot; (done || lia || exact rs0).
Qed.

(** The validity byte of the cleared record is zero. *)
Lemma clear_slot_validity : record_of f' rs k i !! 0%nat = Some 0.
Proof using Hrs Hpages Hk Hi.
  pose proof (page_in_file f n k Hpages Hk) as Hin.
  destruct (header_of_split rs rs0 f k ltac:(lia) Hin) as [_ Hl].
  destruct (page_start_bounds rs rs0 f k ltac:(lia) Hin) as [Hp0 Hp1].
  assert (len (count' :: <[Z.to_nat i := 0]> (bitmap_of f rs k))
          = PAGE_HEADER_SIZE) as Hh
    by (rewrite len_cons; unfold len; rewrite length_insert, Hl; done).
  assert (len [0] ≤ rs) as H1 by (change (len [0]) with 1; lia).
  assert ((k + 1) * ps
          ≤ len (overwrite f (k * ps + PAGE_HEADER_SIZE + i * rs) [0])) as Hin1
    by (rewrite overwrite_slot_length by (done || lia || exact rs0); done).
  unfold clear_slot. cbv zeta.
  rewrite record_of_overwrite_header by (done || lia || exact rs0).
  unfold record_of, PAGE_HEADER_SIZE, NUM_SLOTS in *.
  assert (0 ≤ i * rs) by nia. assert (i * rs + rs ≤ 10 * rs) by nia.
  rewrite file_range_lookup. rewrite decide_True by lia.
  rewrite overwrite_lookup by (change (len [0]) with 1; lia).
  rewrite decide_True by (simpl; lia).
  by replace (Z.to_nat (k * ps + (1 + 10) + i * rs) + 0
              - Z.to_nat (k * ps + (1 + 10) + i * rs))%nat with 0%nat by lia.
Qed.

End clear.

(** *** A page appended *)

Section append.
Context (f : list Z) (n : Z) (record_bytes : list Z).
Context (Hpages : whole_pages f rs n) (Hrec : len record_bytes = rs).
Local Abbreviation f' := (f ++ new_page rs record_bytes).

Lemma new_page_length : len (new_page rs record_bytes) = ps.
Proof using Hrs Hrec.
  unfold new_page, page_size_of, PAGE_HEADER_SIZE, NUM_SLOTS.
  rewrite !len_app, !len_cons, Hrec. unfold len. rewrite !length_replicate. lia.
Qed.

Lemma append_pages : whole_pages f' rs (n + 1).
Proof using Hrs Hpages Hrec.
  destruct Hpages as [Hn Hlen]. split; [lia|].
  rewrite len_app, new_page_length, Hlen. lia.
Qed.

Lemma append_header k' :
  0 ≤ k' ≤ n →
  header_of f' rs k'
  = if decide (k' = n) then 1 :: 1 :: replicate 9 0 else header_of f rs k'.
Proof using Hrs Hpages Hrec.
  intros Hk'. destruct Hpages as [Hn Hlen]. unfold header_of.
  pose proof (page_size_of_pos rs rs0). case_decide as Hkk.
  - subst k'. rewrite <- Hlen.
    replace (len f) with (len f + 0) by lia.
    rewrite file_range_app_r by (unfold PAGE_HEADER_SIZE, NUM_SLOTS; lia).
    unfold new_page, file_range. change (Z.to_nat 0) with 0%nat. rewrite drop_0.
    by rewrite take_app_length'.
  - assert ((k' + 1) * ps ≤ len f) by (apply (page_in_file f n); [done|lia]).
    destruct (page_start_bounds rs rs0 f k' ltac:(lia) ltac:(done)).
    apply file_range_app_l; unfold PAGE_HEADER_SIZE, NUM_SLOTS in *; lia.
Qed.

Lemma append_slot k' j :
  0 ≤ k' < n → 0 ≤ j < NUM_SLOTS →
  record_of f' rs k' j = record_of f rs k' j.
Proof using Hrs Hpages Hrec.
  intros Hk' Hj.
  assert ((k' + 1) * ps ≤ len f) by (by apply (page_in_file f n)).
  destruct (page_start_bounds rs rs0 f k' ltac:(lia) ltac:(done)).
  unfold record_of, PAGE_HEADER_SIZE, NUM_SLOTS in *.
  assert (0 ≤ j * rs) by nia. assert (j * rs + rs ≤ 10 * rs) by nia.
  apply file_range_app_l; lia.
Qed.

Lemma append_slot_new : record_of f' rs n 0 = record_bytes.
Proof using Hrs Hpages Hrec.
  destruct Hpages as [Hn Hlen]. unfold record_of. rewrite <- Hlen.
  replace (len f + PAGE_HEADER_SIZE + 0 * rs) with (len f + 11)
    by (unfold PAGE_HEADER_SIZE, NUM_SLOTS; lia).
  rewrite file_range_app_r by lia.
  unfold new_page, file_range.
  rewrite drop_app_length' by done.
  apply take_app_length'. unfold len in Hrec. lia.
Qed.

End append.

End page_facts.

(** ** The handlers on a stored type *)

Lemma pack_field_length ftype flen v chunk :
  field_widths_ok (v, ftype, flen) → pack_field ftype flen v = Ok chunk →
  len chunk = flen.
Proof.
  intros [Hint Hnn]. simpl in *. unfold pack_field. case_bool_decide as Hty.
  - unfold int_of_str. destruct (py_int v) as [z|]; [|done]. simpl.
    intros Hz%int_to_bytes_length. rewrite Hint by done. done.
  - destruct (utf8_encode v) as [s|]; [|done]. simpl. intros [= <-].
    pose proof (len_nonneg s). rewrite len_app.
    destruct (Z.ltb_spec flen (len s)).
    + rewrite py_slice_nonneg by lia. unfold len in *.
      rewrite length_replicate, !length_take, length_drop. lia.
    + unfold len in *. rewrite length_replicate. lia.
Qed.

Lemma pack_fields_length fields : ∀ values packed,
  Forall field_widths_ok fields → length values = length fields →
  pack_fields fields values = Ok packed →
  len packed = compute_record_size fields - 1.
Proof.
  induction fields as [|[[fname ftype] flen] fs IH]; intros [|v vs] packed Hw Hl Hp;
    simplify_eq/=.
  - done.
  - inversion_clear Hw as [|?? Hf Hfs].
    destruct (pack_field ftype flen v) as [chunk|] eqn:Hc; [|done]. simpl in Hp.
    destruct (pack_fields fs vs) as [rest|] eqn:Hrest; [|done]. simpl in Hp.
    injection Hp as <-. rewrite len_app, compute_record_size_cons. simpl.
    rewrite (IH vs rest) by done.
    rewrite (pack_field_length ftype flen v chunk); [lia| |done].
    destruct Hf as [? ?]. by split.
Qed.

Lemma pack_record_length fields values rec :
  Forall field_widths_ok fields → len values = len fields →
  pack_record fields values = Ok rec → len rec = compute_record_size fields.
Proof.
  intros Hw Hl. unfold pack_record.
  destruct (pack_fields fields values) as [packed|] eqn:Hp; [|done].
  intros [= <-]. rewrite len_cons.
  rewrite (pack_fields_length fields values packed); [lia|done| |done].
  unfold len in Hl. lia.
Qed.

(** An entry of the loaded catalog has as many fields as it declares. *)
Lemma read_catalog_entry_count s catalog t e :
  read_catalog s = Ok catalog → catalog !! t = Some e →
  len (fields e) = num_fields e.
Proof.
  unfold read_catalog. intros Hc Ht.
  destruct (read_catalog_lines_spec (file_lines (catalog_meta s)) ∅) as (c' & Hc' & Hspec).
  rewrite Hc in Hc'. injection Hc' as <-. apply Hspec in Ht.
  destruct Ht as [(i & line & _ & (? & ? & ? & _ & _ & _ & _ & Hn) & _)|[Ht _]]; [done|].
  by rewrite lookup_empty in Ht.
Qed.

Lemma fs_eta s : Fs (catalog_meta s) (dat_files s) (log_csv s) = s.
Proof. by destruct s. Qed.

Lemma with_file_same s tname f :
  dat_files s !! dat_filename tname = Some f → with_file s tname f = s.
Proof. intros Hf. unfold with_file. rewrite insert_id by done. apply fs_eta. Qed.

(** [handle_create_record] when the checks before the [with] block
    pass: the block runs on the data file of the type. *)
Lemma handle_create_record_packed s tname e f n c1 c2 values pk_value rec :
  type_stored s tname e f n →
  (∀ k, 0 ≤ k < n → 0 ≤ count_of f (compute_record_size (fields e)) k) →
  len values = num_fields e →
  py_index values (pk_index e - 1) = Ok pk_value →
  find_record_page_slot tname pk_value s = Ok None →
  pack_record (fields e) values = Ok rec →
  len rec = compute_record_size (fields e)
  ∧ ∃ o f',
      insert_outcome f (compute_record_size (fields e)) n rec o f'
      ∧ handle_create_record (c1 :: c2 :: tname :: values) s
        = (Ok o, log_operation (join [space] (c1 :: c2 :: tname :: values))
                   (succeeded o) (with_file s tname f')).
Proof.
  intros Hst Hcounts Hlen Hpkv Hfind Hpack.
  pose proof Hst as ((catalog & Hcat & Ht) & Hw & Hpk & Hf & Hpages).
  pose proof (read_catalog_entry_count s catalog tname e Hcat Ht) as Hnf.
  pose proof (pack_record_length (fields e) values rec Hw ltac:(lia) Hpack) as Hrec.
  pose proof (compute_record_size_pos (fields e) Hw) as Hrs.
  split; [done|].
  destruct (insert_record_spec (fields e) rec _ Hrs Hrec f n Hpages Hcounts)
    as (o & f' & Hins & Hout).
  exists o, f'. split; [done|].
  unfold handle_create_record.
  rewrite len_tokens_ge; [|by eapply py_index_Ok_nonempty|lia].
  rewrite Hcat, Ht. rewrite bool_decide_eq_false_2 by (intros ?; done).
  rewrite Hpkv, bind_Ok, Hfind, Hpack, Hf. simpl default.
  unfold page_size_of in Hins. by rewrite Hins.
Qed.


(** [handle_delete_record] for a stored type: no live record has the
    key and nothing but the log changes, or a live record with the key
    is cleared. *)
Lemma handle_delete_record_cases s tname e f n c1 c2 pk_value :
  type_stored s tname e f n →
  (∀ k, 0 ≤ k < n → 0 ≤ count_of f (compute_record_size (fields e)) k < 256) →
  let op := join [space] [c1; c2; tname; pk_value] in
  ((∀ k i, live f (compute_record_size (fields e)) k i →
           key_of f (fields e) (pk_index e - 1) k i ≠ Ok pk_value)
   ∧ handle_delete_record [c1; c2; tname; pk_value] s
     = (Ok (Failure RecordNotFound), log_operation op false s))
  ∨ ∃ k i,
      live f (compute_record_size (fields e)) k i
      ∧ key_of f (fields e) (pk_index e - 1) k i = Ok pk_value
      ∧ handle_delete_record [c1; c2; tname; pk_value] s
        = (Ok (Success ()),
           log_operation op true
             (with_file s tname (clear_slot f (compute_record_size (fields e)) k i))).
Proof.
  intros Hst Hcounts op.
  pose proof Hst as ((catalog & Hcat & Ht) & Hw & Hpk & Hf & Hpages).
  pose proof (compute_record_size_pos (fields e) Hw) as Hrs.
  unfold handle_delete_record. rewrite Hcat, Ht.
  destruct (find_record_page_slot_spec s tname e f n pk_value Hst) as (r & -> & Hr).
  destruct r as [[off i]|]; [|by left].
  destruct Hr as (k & -> & Hlive & Hkey). right. exists k, i.
  split; [done|]. split; [done|]. rewrite Hf.
  assert (0 ≤ k < n) as Hk
    by (apply (live_page_bound f (compute_record_size (fields e)) n k i); [lia|done..]).
  by rewrite (invalidate_slot_spec _ Hrs f k i (Hcounts k Hk) Hlive).
Qed.

(** [handle_search_record] for a stored type without a live record of
    the key. *)
Lemma handle_search_record_none s tname e f n c1 c2 pk_value :
  type_stored s tname e f n →
  (∀ k i, live f (compute_record_size (fields e)) k i →
          key_of f (fields e) (pk_index e - 1) k i ≠ Ok pk_value) →
  handle_search_record [c1; c2; tname; pk_value] s
  = (Ok (Failure RecordNotFound),
     log_operation (join [space] [c1; c2; tname; pk_value]) false s).
Proof.
  intros Hst Hnone.
  pose proof Hst as ((catalog & Hcat & Ht) & Hw & Hpk & Hf & Hpages).
  unfold handle_search_record. rewrite Hcat, Ht.
  destruct (find_record_page_slot_spec s tname e f n pk_value Hst) as (r & -> & Hr).
  destruct r as [[off i]|]; [|done].
  destruct Hr as (k & _ & Hlive & Hkey). by destruct (Hnone k i Hlive).
Qed.

(** The type stays stored when its data file is replaced by another
    file of whole pages and the log grows. *)
Lemma type_stored_with_file s tname e f n f' n' op st :
  type_stored s tname e f n →
  whole_pages f' (compute_record_size (fields e)) n' →
  type_stored (log_operation op st (with_file s tname f')) tname e f' n'.
Proof.
  intros (Hcat & Hw & Hpk & Hf & Hpages) Hpages'.
  split; [done|]. split; [done|]. split; [done|]. split; [|done].
  simpl. apply lookup_insert_eq.
Qed.


(** A key that no live record decodes to is not found. *)
Lemma fresh_key_not_found s tname e f n pk_value :
  type_stored s tname e f n →
  (∀ k i, live f (compute_record_size (fields e)) k i →
          key_of f (fields e) (pk_index e - 1) k i ≠ Ok pk_value) →
  find_record_page_slot tname pk_value s = Ok None.
Proof.
  intros Hst Hfresh.
  destruct (find_record_page_slot_spec s tname e f n pk_value Hst) as (r & -> & Hr).
  destruct r as [[off i]|]; [|done].
  destruct Hr as (k & _ & Hlive & Hkey). by destruct (Hfresh k i Hlive).
Qed.

(** ** The header invariant *)

Lemma headers_count_bounds f rs n k :
  1 ≤ rs → whole_pages f rs n → headers_consistent f rs n → 0 ≤ k < n →
  0 ≤ count_of f rs k ≤ 10.
Proof.
  intros Hrs Hpages Hcons Hk. rewrite (Hcons k Hk).
  pose proof (page_in_file rs Hrs f n k Hpages Hk) as Hin.
  destruct (header_of_split rs ltac:(lia) f k ltac:(lia) Hin) as [_ Hl].
  pose proof (set_entries_nonneg (bitmap_of f rs k)).
  pose proof (set_entries_le (bitmap_of f rs k)). unfold len in *. lia.
Qed.

Lemma live_not_past_end f rs n k i :
  1 ≤ rs → whole_pages f rs n → live f rs k i → 0 ≤ k < n.
Proof. intros Hrs. apply live_page_bound. lia. Qed.

Section invariant.
Context (rs : Z) (Hrs : 1 ≤ rs).
Context (f : list Z) (n : Z).
Context (Hpages : whole_pages f rs n) (Hcons : headers_consistent f rs n).
Local Abbreviation ps := (page_size_of rs).

(** After a record went into the first free slot [i] of page [k]. *)
Lemma place_record_post k i record_bytes :
  0 ≤ k < n → first_free_slot f rs k i → len record_bytes = rs →
  let f' := place_record f rs k i record_bytes in
  whole_pages f' rs n ∧ headers_consistent f' rs n
  ∧ count_of f' rs k = count_of f rs k + 1
  ∧ bitmap_of f' rs k = <[Z.to_nat i := 1]> (bitmap_of f rs k)
  ∧ live f' rs k i ∧ record_of f' rs k i = record_bytes ∧ ¬ live f rs k i
  ∧ ∀ k' j, live f rs k' j →
            live f' rs k' j ∧ record_of f' rs k' j = record_of f rs k' j.
Proof using Hrs Hpages Hcons.
  intros Hk (Hc & Hi & Hbit & Hfirst) Hrec f'. subst f'.
  pose proof (place_record_pages rs Hrs f n k i record_bytes Hpages Hk Hi Hrec) as Hpages'.
  pose proof (place_record_header rs Hrs f n k i record_bytes Hpages Hk Hi Hrec) as Hhdr.
  pose proof (place_record_slot rs Hrs f n k i record_bytes Hpages Hk Hi Hrec) as Hslot.
  pose proof (headers_count_bounds f rs n k Hrs Hpages Hcons Hk) as Hcb.
  assert (∀ k', 0 ≤ k' < n →
            count_of (place_record f rs k i record_bytes) rs k' = (if decide (k' = k) then count_of f rs k + 1
                                 else count_of f rs k')
            ∧ bitmap_of (place_record f rs k i record_bytes) rs k' = (if decide (k' = k)
                                    then <[Z.to_nat i := 1]> (bitmap_of f rs k)
                                    else bitmap_of f rs k')) as Hcb'.
  { intros k' Hk'. unfold count_of, bitmap_of.
    rewrite Hhdr by lia. by case_decide. }
  split; [done|]. split.
  { intros k' Hk'. unfold header_consistent.
    destruct (Hcb' k' Hk') as [-> ->]. case_decide as Hkk; [|by apply Hcons].
    subst k'. rewrite (set_entries_insert _ _ 0 1 Hbit). simpl.
    rewrite (Hcons k Hk). lia. }
  destruct (Hcb' k Hk) as [Hc' Hb']. destruct (decide (k = k)); [|done].
  split; [done|]. split; [done|]. split.
  { unfold live. rewrite Hc', Hb'. destruct Hpages' as [_ Hlen'].
    pose proof (page_in_file rs Hrs _ n k (conj (proj1 Hpages) Hlen') Hk).
    repeat split; try lia; try done.
    apply list_lookup_insert_eq. by apply lookup_lt_Some in Hbit. }
  split; [rewrite Hslot by lia; by rewrite decide_True|].
  split; [intros (_ & _ & _ & _ & Hb1); congruence|].
  intros k' j Hlive.
  pose proof (live_not_past_end f rs n k' j Hrs Hpages Hlive) as Hk'.
  destruct Hlive as (? & Hin & Hj & Hcnz & Hb1). split.
  - unfold live. destruct (Hcb' k' Hk') as [-> ->].
    destruct Hpages as [_ Hlen], Hpages' as [_ Hlen']. rewrite Hlen', <- Hlen.
    repeat split; try lia; try done.
    + case_decide; [lia|done].
    + case_decide as Hkk; [|done]. subst k'.
      destruct (decide (j = i)) as [->|]; [congruence|].
      rewrite list_lookup_insert_ne by lia. done.
  - rewrite Hslot by lia. case_decide as Hkk; [|done].
    injection Hkk as -> ->. congruence.
Qed.

(** After a page was appended for the record. *)
Lemma append_post record_bytes :
  len record_bytes = rs →
  let f' := f ++ new_page rs record_bytes in
  whole_pages f' rs (n + 1) ∧ headers_consistent f' rs (n + 1)
  ∧ count_of f' rs n = 1
  ∧ bitmap_of f' rs n = 1 :: replicate 9 0
  ∧ live f' rs n 0 ∧ record_of f' rs n 0 = record_bytes ∧ ¬ live f rs n 0
  ∧ ∀ k' j, live f rs k' j →
            live f' rs k' j ∧ record_of f' rs k' j = record_of f rs k' j.
Proof using Hrs Hpages Hcons.
  intros Hrec f'. subst f'.
  pose proof (append_pages rs Hrs f n record_bytes Hpages Hrec) as Hpages'.
  pose proof (append_header rs Hrs f n record_bytes Hpages Hrec) as Hhdr.
  pose proof Hpages as [Hn Hlen].
  assert (∀ k', 0 ≤ k' ≤ n →
            count_of (f ++ new_page rs record_bytes) rs k' = (if decide (k' = n) then 1 else count_of f rs k')
            ∧ bitmap_of (f ++ new_page rs record_bytes) rs k' = (if decide (k' = n) then 1 :: replicate 9 0
                                    else bitmap_of f rs k')) as Hcb'.
  { intros k' Hk'. unfold count_of, bitmap_of.
    rewrite Hhdr by lia. by case_decide. }
  split; [done|]. split.
  { intros k' Hk'. unfold header_consistent.
    destruct (Hcb' k' ltac:(lia)) as [-> ->]. case_decide; [done|].
    apply Hcons. lia. }
  destruct (Hcb' n ltac:(lia)) as [Hc' Hb']. destruct (decide (n = n)); [|done].
  split; [done|]. split; [done|]. split.
  { unfold live. rewrite Hc', Hb'. destruct Hpages' as [_ ->].
    unfold NUM_SLOTS. repeat split; try lia; done. }
  split; [by apply (append_slot_new rs Hrs f n)|].
  split; [intros Hl%(live_not_past_end f rs n n 0 Hrs Hpages); lia|].
  intros k' j Hlive.
  pose proof (live_not_past_end f rs n k' j Hrs Hpages Hlive) as Hk'.
  destruct Hlive as (? & Hin & Hj & Hcnz & Hb1). split.
  - unfold live. destruct (Hcb' k' ltac:(lia)) as [-> ->].
    destruct Hpages' as [_ ->]. pose proof (page_size_of_pos rs ltac:(lia)).
    rewrite !decide_False by lia. repeat split; try done; try lia.
  - apply (append_slot rs Hrs f n record_bytes Hpages Hrec); [lia|done].
Qed.

(** After the live record in slot [i] of page [k] was cleared. *)
Lemma clear_slot_post k i :
  live f rs k i →
  let f' := clear_slot f rs k i in
  whole_pages f' rs n ∧ headers_consistent f' rs n
  ∧ count_of f' rs k = count_of f rs k - 1 ∧ 0 ≤ count_of f' rs k < NUM_SLOTS
  ∧ bitmap_of f' rs k = <[Z.to_nat i := 0]> (bitmap_of f rs k)
  ∧ bitmap_of f' rs k !! Z.to_nat i = Some 0
  ∧ record_of f' rs k i !! 0%nat = Some 0
  ∧ ∀ k' j, live f' rs k' j →
            (k', j) ≠ (k, i) ∧ live f rs k' j
            ∧ record_of f' rs k' j = record_of f rs k' j.
Proof using Hrs Hpages Hcons.
  intros Hlive f'. subst f'.
  pose proof (live_not_past_end f rs n k i Hrs Hpages Hlive) as Hk.
  destruct Hlive as (_ & Hin & Hi & Hcnz & Hbit).
  pose proof (clear_slot_pages rs Hrs f n k i Hpages Hk Hi) as Hpages'.
  pose proof (clear_slot_header rs Hrs f n k i Hpages Hk Hi) as Hhdr.
  pose proof (clear_slot_slot rs Hrs f n k i Hpages Hk Hi) as Hslot.
  pose proof (headers_count_bounds f rs n k Hrs Hpages Hcons Hk) as Hcb.
  assert ((0 <? count_of f rs k) = true) as Hpos by lia.
  rewrite Hpos in Hhdr.
  assert (∀ k', 0 ≤ k' < n →
            count_of (clear_slot f rs k i) rs k'
            = (if decide (k' = k) then count_of f rs k - 1 else count_of f rs k')
            ∧ bitmap_of (clear_slot f rs k i) rs k'
              = (if decide (k' = k) then <[Z.to_nat i := 0]> (bitmap_of f rs k)
                 else bitmap_of f rs k')) as Hcb'.
  { intros k' Hk'. unfold count_of, bitmap_of.
    rewrite Hhdr by lia. by case_decide. }
  split; [done|]. split.
  { intros k' Hk'. unfold header_consistent.
    destruct (Hcb' k' Hk') as [-> ->]. case_decide as Hkk; [|by apply Hcons].
    subst k'. rewrite (set_entries_insert _ _ 1 0 Hbit). simpl.
    rewrite (Hcons k Hk). lia. }
  destruct (Hcb' k Hk) as [Hc' Hb']. destruct (decide (k = k)); [|done].
  split; [done|]. split; [unfold NUM_SLOTS; lia|]. split; [done|].
  split; [rewrite Hb'; apply list_lookup_insert_eq; by apply lookup_lt_Some in Hbit|].
  split; [by apply (clear_slot_validity rs Hrs f n k i Hpages Hk Hi)|].
  intros k' j Hlive'.
  pose proof (live_not_past_end _ rs n k' j Hrs Hpages' Hlive') as Hk'.
  destruct Hlive' as (? & Hin' & Hj & Hcnz' & Hb1).
  destruct (Hcb' k' Hk') as [Hck Hbk]. rewrite Hck in Hcnz'. rewrite Hbk in Hb1.
  assert ((k', j) ≠ (k, i)) as Hne.
  { intros [= -> ->]. rewrite decide_True in Hb1 by done.
    rewrite list_lookup_insert_eq in Hb1 by (by apply lookup_lt_Some in Hbit). done. }
  split; [done|]. split; [|by apply Hslot; [lia|done|done]].
  unfold live. destruct Hpages as [_ Hlen], Hpages' as [_ Hlen'].
  rewrite Hlen' in Hin'. rewrite Hlen. repeat split; try lia; try done.
  - case_decide; [subst k'; lia|done].
  - case_decide as Hkk; [|done]. subst k'.
    destruct (decide (j = i)) as [->|]; [done|].
    by rewrite list_lookup_insert_ne in Hb1 by lia.
Qed.

End invariant.

Lemma new_slot_not_full f rs k c (b : list Z) :
  header_of f rs k = c :: 1 :: 0 :: b → c < NUM_SLOTS → ¬ page_full f rs k.
Proof.
  intros Hh Hc. unfold page_full, count_of, bitmap_of. rewrite Hh. simpl.
  intros [?|Hfull]; [lia|]. by apply (Hfull 1); [unfold NUM_SLOTS; lia|].
Qed.

(** What a run of the [with] block of [handle_create_record] leaves. *)
Lemma insert_outcome_post rs f n record_bytes o f' :
  1 ≤ rs → whole_pages f rs n → headers_consistent f rs n →
  len record_bytes = rs → insert_outcome f rs n record_bytes o f' →
  ∃ n', whole_pages f' rs n' ∧ headers_consistent f' rs n' ∧
    ((o = Failure CapacityExceeded ∧ f' = f ∧ n' = n ∧ MAX_PAGES ≤ n
      ∧ ∀ j, 0 ≤ j < n → page_full f rs j)
     ∨ (o = Success () ∧ ∃ k i,
          0 ≤ k < n' ∧ 0 ≤ i < NUM_SLOTS
          ∧ live f' rs k i ∧ record_of f' rs k i = record_bytes ∧ ¬ live f rs k i
          ∧ (∀ k' j, live f rs k' j →
               live f' rs k' j ∧ record_of f' rs k' j = record_of f rs k' j)
          ∧ ((n' = n ∧ k < n
              ∧ (∀ j, 0 ≤ j < k → page_full f rs j) ∧ first_free_slot f rs k i
              ∧ f' = place_record f rs k i record_bytes
              ∧ count_of f' rs k = count_of f rs k + 1
              ∧ bitmap_of f' rs k = <[Z.to_nat i := 1]> (bitmap_of f rs k))
             ∨ (n' = n + 1 ∧ n < MAX_PAGES ∧ k = n ∧ i = 0
                ∧ (∀ j, 0 ≤ j < n → page_full f rs j)
                ∧ count_of f' rs k = 1
                ∧ bitmap_of f' rs k = 1 :: replicate 9 0
                ∧ ¬ page_full f' rs k)))).
Proof.
  intros Hrs Hpages Hcons Hrec
    [(-> & -> & ->)|[(Hn & -> & k & i & Hk & Hfull & Hfree & ->)
                    |[(Hn & Hfull & -> & ->)|(Hn & Hfull & -> & ->)]]].
  - (* the first page of an empty file *)
    destruct (zero_page_pages rs Hrs) as [Hzp _].
    assert (headers_consistent (zero_page rs) rs 1) as Hzc.
    { intros k Hk. replace k with 0 by lia.
      unfold header_consistent, count_of, bitmap_of. by rewrite zero_page_header. }
    assert (first_free_slot (zero_page rs) rs 0 0) as Hfree
      by (by apply zero_page_first_free).
    destruct (place_record_post rs Hrs (zero_page rs) 1 Hzp Hzc 0 0 record_bytes
                ltac:(lia) Hfree Hrec) as (Hp' & Hc' & Hcount & Hbitmap & Hlive & Hr & _ & _).
    assert (f = []) as ->.
    { destruct Hpages as [_ Hlen]. destruct f; [done|]. rewrite len_cons in Hlen.
      pose proof (len_nonneg f). lia. }
    assert (∀ k' j, ¬ live [] rs k' j) as Hnolive.
    { intros k' j (? & Hin & _). pose proof (page_size_of_pos rs ltac:(lia)).
      change (len []) with 0 in Hin. nia. }
    exists 1. split; [done|]. split; [done|]. right. split; [done|].
    exists 0, 0. split; [lia|]. split; [unfold NUM_SLOTS; lia|].
    split; [done|]. split; [done|]. split; [apply Hnolive|].
    split; [intros k' j Hl; by destruct (Hnolive k' j)|].
    right. unfold count_of, bitmap_of in Hcount, Hbitmap.
    rewrite zero_page_header in Hcount, Hbitmap by done.
    repeat split; try done; try (unfold MAX_PAGES; lia); try (intros; lia).
    pose proof (place_record_header rs Hrs (zero_page rs) 1 0 0 record_bytes Hzp
                  ltac:(lia) ltac:(unfold NUM_SLOTS; lia) Hrec 0 ltac:(lia)) as Hh.
    rewrite decide_True in Hh by done. unfold count_of, bitmap_of in Hh.
    rewrite zero_page_header in Hh by done.
    eapply new_slot_not_full; [exact Hh|]. unfold NUM_SLOTS. simpl. lia.
  - destruct (place_record_post rs Hrs f n Hpages Hcons k i record_bytes Hk Hfree Hrec)
      as (Hp' & Hc' & Hcount & Hbitmap & Hlive & Hr & Hnl & Hframe).
    exists n. split; [done|]. split; [done|]. right. split; [done|].
    exists k, i. pose proof Hfree as (? & ? & ?).
    split; [done|]. split; [done|]. split; [done|]. split; [done|].
    split; [done|]. split; [done|]. left.
    split; [done|]. split; [lia|]. split; [done|]. split; [exact Hfree|].
    split; [done|]. split; done.
  - destruct (append_post rs Hrs f n Hpages Hcons record_bytes Hrec)
      as (Hp' & Hc' & Hcount & Hbitmap & Hlive & Hr & Hnl & Hframe).
    exists (n + 1). split; [done|]. split; [done|]. right. split; [done|].
    exists n, 0. split; [lia|]. split; [unfold NUM_SLOTS; lia|].
    split; [done|]. split; [done|]. split; [done|]. split; [done|].
    right. repeat split; try done; try lia.
    pose proof (append_header rs Hrs f n record_bytes Hpages Hrec n ltac:(lia)) as Hh.
    rewrite decide_True in Hh by done.
    eapply new_slot_not_full; [exact Hh|]. unfold NUM_SLOTS. lia.
  - exists n. split; [done|]. split; [done|]. left. by repeat split.
Qed.

(** ** Capacity *)

(** C3.  For a stored type whose data file holds [MAX_PAGES] pages, each
    with a count of [NUM_SLOTS] and every bitmap entry set, an insert
    request with one value per field, a key that no live record decodes
    to and values that pack into a record fails as capacity exceeded,
    and leaves the catalog and every data file as they were. *)
Theorem capacity_ceiling s c1 c2 tname values e f pk_value rec :
  type_stored s tname e f MAX_PAGES →
  (∀ k, 0 ≤ k < MAX_PAGES →
        count_of f (compute_record_size (fields e)) k = NUM_SLOTS
        ∧ bitmap_of f (compute_record_size (fields e)) k = replicate 10 1) →
  len values = num_fields e →
  py_index values (pk_index e - 1) = Ok pk_value →
  (∀ k i, live f (compute_record_size (fields e)) k i →
          key_of f (fields e) (pk_index e - 1) k i ≠ Ok pk_value) →
  pack_record (fields e) values = Ok rec →
  let s' := log_operation (join [space] (c1 :: c2 :: tname :: values)) false s in
  handle_create_record (c1 :: c2 :: tname :: values) s
  = (Ok (Failure CapacityExceeded), s')
  ∧ catalog_meta s' = catalog_meta s
  ∧ dat_files s' = dat_files s
  ∧ dat_files s' !! dat_filename tname = Some f.
Proof.
  intros Hst Hfull Hlen Hpkv Hfresh Hpack s'. subst s'.
  pose proof (fresh_key_not_found s tname e f MAX_PAGES pk_value Hst Hfresh) as Hfind.
  assert (dat_files s !! dat_filename tname = Some f) as Hfile by apply Hst.
  split; [|done].
  destruct (handle_create_record_packed s tname e f MAX_PAGES c1 c2 values pk_value rec
              Hst) as (Hrec & o & f' & Hout & ->); try done.
  { intros k Hk. destruct (Hfull k Hk) as [-> _]. unfold NUM_SLOTS. lia. }
  destruct Hst as (_ & _ & _ & Hf & _).
  destruct Hout as [(Hn & _)|[(_ & _ & k & i & Hk & _ & Hfree & _)
                            |[(Hn & _)|(_ & _ & -> & ->)]]].
  - unfold MAX_PAGES in Hn. lia.
  - destruct Hfree as (Hc & _). destruct (Hfull k Hk) as [Hc' _]. lia.
  - lia.
  - by rewrite with_file_same.
Qed.

(** ** The count and the bitmap *)


(** ** Deleting, searching again and reusing the slot *)

Lemma key_of_record f f' fields pk_idx k i k' i' :
  record_of f' (compute_record_size fields) k' i'
  = record_of f (compute_record_size fields) k i →
  key_of f' fields pk_idx k' i' = key_of f fields pk_idx k i.
Proof. intros H. unfold key_of. by rewrite H. Qed.

(** C7, with the proviso the search needs.  A successful delete request
    for the key [pk_value] clears a live record of that key: its validity
    byte is zero, its bitmap entry is clear and the count of its page is
    one less, and not below zero.  When no other live record of the type
    decodes to [pk_value], a search for it then finds no record.  And an
    insert request with one value per field, a key that no live record
    decodes to and values that pack into a record then succeeds without
    the file growing: the record goes into the first free slot in
    file order, which is the freed slot or one before it. *)
Theorem delete_then_search_and_reuse s tname e f n d1 d2 pk_value s1 :
  type_stored s tname e f n →
  headers_consistent f (compute_record_size (fields e)) n →
  handle_delete_record [d1; d2; tname; pk_value] s = (Ok (Success ()), s1) →
  ∃ k i f1,
    live f (compute_record_size (fields e)) k i
    ∧ key_of f (fields e) (pk_index e - 1) k i = Ok pk_value
    ∧ f1 = clear_slot f (compute_record_size (fields e)) k i
    ∧ s1 = log_operation (join [space] [d1; d2; tname; pk_value]) true
             (with_file s tname f1)
    ∧ type_stored s1 tname e f1 n
    ∧ headers_consistent f1 (compute_record_size (fields e)) n
    ∧ record_of f1 (compute_record_size (fields e)) k i !! 0%nat = Some 0
    ∧ bitmap_of f1 (compute_record_size (fields e)) k
      = <[Z.to_nat i := 0]> (bitmap_of f (compute_record_size (fields e)) k)
    ∧ count_of f1 (compute_record_size (fields e)) k
      = count_of f (compute_record_size (fields e)) k - 1
    ∧ 0 ≤ count_of f1 (compute_record_size (fields e)) k
    ∧ ((∀ k' j, live f (compute_record_size (fields e)) k' j →
                key_of f (fields e) (pk_index e - 1) k' j = Ok pk_value →
                (k', j) = (k, i)) →
       ∀ c1 c2,
         handle_search_record [c1; c2; tname; pk_value] s1
         = (Ok (Failure RecordNotFound),
            log_operation (join [space] [c1; c2; tname; pk_value]) false s1))
    ∧ ∀ c1 c2 values key rec,
        len values = num_fields e →
        py_index values (pk_index e - 1) = Ok key →
        (∀ k' j, live f1 (compute_record_size (fields e)) k' j →
                 key_of f1 (fields e) (pk_index e - 1) k' j ≠ Ok key) →
        pack_record (fields e) values = Ok rec →
        ∃ k' i',
          0 ≤ k' ∧ (k' < k ∨ (k' = k ∧ i' ≤ i))
          ∧ (∀ j, 0 ≤ j < k' → page_full f1 (compute_record_size (fields e)) j)
          ∧ first_free_slot f1 (compute_record_size (fields e)) k' i'
          ∧ handle_create_record (c1 :: c2 :: tname :: values) s1
            = (Ok (Success ()),
               log_operation (join [space] (c1 :: c2 :: tname :: values)) true
                 (with_file s1 tname
                    (place_record f1 (compute_record_size (fields e)) k' i' rec)))
          ∧ len (place_record f1 (compute_record_size (fields e)) k' i' rec) = len f
          ∧ record_of (place_record f1 (compute_record_size (fields e)) k' i' rec)
              (compute_record_size (fields e)) k' i' = rec
          ∧ ((∀ j, 0 ≤ j < k → page_full f1 (compute_record_size (fields e)) j) →
             (∀ j, 0 ≤ j < i →
                   bitmap_of f1 (compute_record_size (fields e)) k !! Z.to_nat j
                   ≠ Some 0) →
             (k', i') = (k, i)).
Proof.
  intros Hst Hcons Hrun.
  pose proof Hst as (_ & Hw & _ & _ & Hpages).
  pose proof (compute_record_size_pos (fields e) Hw) as Hrs.
  assert (∀ k, 0 ≤ k < n → 0 ≤ count_of f (compute_record_size (fields e)) k ≤ 10)
    as Hcounts by (intros k Hk; by eapply headers_count_bounds).
  destruct (handle_delete_record_cases s tname e f n d1 d2 pk_value Hst)
    as [(_ & Hrun')|(k & i & Hlive & Hkey & Hrun')].
  { intros k Hk. specialize (Hcounts k Hk). lia. }
  { rewrite Hrun in Hrun'. done. }
  rewrite Hrun in Hrun'. injection Hrun' as ->.
  destruct (clear_slot_post _ Hrs f n Hpages Hcons k i Hlive)
    as (Hpages1 & Hcons1 & Hc1 & Hcb1 & Hb1 & Hbit1 & Hval1 & Hframe1).
  pose proof (live_not_past_end f _ n k i Hrs Hpages Hlive) as Hk.
  pose proof Hlive as (_ & _ & Hi & _ & _).
  set (f1 := clear_slot f (compute_record_size (fields e)) k i) in *.
  assert (type_stored
            (log_operation (join [space] [d1; d2; tname; pk_value]) true
               (with_file s tname f1)) tname e f1 n) as Hst1
    by (by eapply type_stored_with_file).
  assert (¬ page_full f1 (compute_record_size (fields e)) k) as Hnotfull.
  { intros [?|Hfull]; [lia|]. by apply (Hfull i). }
  exists k, i, f1.
  split; [done|]. split; [done|]. split; [done|]. split; [done|].
  split; [done|]. split; [done|]. split; [done|]. split; [done|].
  split; [done|]. split; [lia|]. split.
  - intros Huniq c1 c2. eapply handle_search_record_none; [exact Hst1|].
    intros k' j Hlive' Hkey'.
    destruct (Hframe1 k' j Hlive') as (Hne & Hl & Hr).
    rewrite (key_of_record f f1 _ _ k' j k' j Hr) in Hkey'.
    by apply Hne, Huniq.
  - intros c1 c2 values key rec Hlen Hpkv Hfresh Hpack.
    pose proof (fresh_key_not_found _ tname e f1 n key Hst1 Hfresh) as Hfind.
    destruct (handle_create_record_packed _ tname e f1 n c1 c2 values key rec
                Hst1) as (Hrec & o & f' & Hout & Hrun'); try done.
    { intros k' Hk'.
      pose proof (headers_count_bounds f1 _ n k' Hrs Hpages1 Hcons1 Hk'). lia. }
    destruct (insert_outcome_post _ f1 n rec o f' Hrs Hpages1 Hcons1 Hrec Hout)
      as (n' & Hpages' & Hcons' & [(_ & _ & _ & _ & Hfull)
                                  |(-> & k' & i' & Hk' & Hi' & _ & Hr' & _ & _ & Hwhere)]).
    { destruct Hnotfull. by apply Hfull. }
    destruct Hwhere as [(-> & Hkn & Hfull & Hfree & -> & _)
                       |(_ & _ & _ & _ & Hfull & _)].
    2: { destruct Hnotfull. by apply Hfull. }
    assert (k' < k ∨ (k' = k ∧ i' ≤ i)) as Hbefore.
    { destruct (decide (k < k')) as [Hlt|Hge].
      { destruct Hnotfull. apply Hfull. lia. }
      destruct (decide (k' = k)) as [->|]; [|lia]. right. split; [done|].
      destruct (decide (i < i')) as [Hlt|]; [|lia].
      destruct Hfree as (_ & _ & _ & Hfirst). by destruct (Hfirst i ltac:(lia)). }
    exists k', i'. split; [lia|]. split; [done|].
    split; [done|]. split; [done|]. split; [done|].
    split; [destruct Hpages as [_ ->], Hpages' as [_ ->]; done|].
    split; [done|]. intros Hfullk Hfirsti.
    destruct Hfree as (Hc' & _ & Hbit' & _).
    destruct Hbefore as [Hlt|[-> Hle]].
    { destruct (Hfullk k' ltac:(lia)) as [?|Hnone]; [lia|].
      by destruct (Hnone i' Hi'). }
    destruct (decide (i' = i)) as [->|]; [done|].
    by destruct (Hfirsti i' ltac:(lia)).
Qed.

(** ** The sample states *)

Lemma type_stored_put s tname e f n f' n' :
  type_stored s tname e f n →
  whole_pages f' (compute_record_size (fields e)) n' →
  type_stored (with_file s tname f') tname e f' n'.
Proof.
  intros (Hcat & Hw & Hpk & Hf & Hpages) Hpages'.
  split; [done|]. split; [done|]. split; [done|]. split; [|done].
  simpl. apply lookup_insert_eq.
Qed.

Lemma type_stored_T : type_stored fs_T (str "T") schema_T [] 0.
Proof.
  split; [exists (<[str "T" := schema_T]> ∅); split; vm_compute; reflexivity|].
  split; [repeat constructor; simpl; lia|].
  split; [vm_compute; split; discriminate|].
  split; [vm_compute; reflexivity|]. split; [lia|reflexivity].
Qed.

Lemma type_stored_T7 : type_stored fs_T7 (str "T") schema_T file_T7 1.
Proof.
  split; [exists (<[str "T" := schema_T]> ∅); split; vm_compute; reflexivity|].
  split; [repeat constructor; simpl; lia|].
  split; [vm_compute; split; discriminate|].
  split; [vm_compute; reflexivity|]. split; [lia|vm_compute; reflexivity].
Qed.

Lemma headers_consistent_T7 :
  headers_consistent file_T7 (compute_record_size (fields schema_T)) 1.
Proof. intros k Hk. replace k with 0 by lia. vm_compute. reflexivity. Qed.

Lemma live_T7 k i :
  live file_T7 (compute_record_size (fields schema_T)) k i → (k, i) = (0, 0).
Proof.
  intros (Hk & Hin & Hi & _ & Hbit).
  assert (len file_T7 = 61) as Hlen by (vm_compute; reflexivity).
  assert (page_size_of (compute_record_size (fields schema_T)) = 61) as Hps
    by (vm_compute; reflexivity).
  rewrite Hlen, Hps in Hin.
  assert (k = 0) as -> by lia. unfold NUM_SLOTS in Hi.
  assert (i = 0 ∨ i = 1 ∨ i = 2 ∨ i = 3 ∨ i = 4 ∨ i = 5 ∨ i = 6 ∨ i = 7
          ∨ i = 8 ∨ i = 9) as Hcases by lia.
  assert (bitmap_of file_T7 (compute_record_size (fields schema_T)) 0
          = 1 :: replicate 9 0) as Hb by (vm_compute; reflexivity).
  rewrite Hb in Hbit.
  destruct Hcases as [->|Hcases]; [reflexivity|]. exfalso.
  repeat destruct Hcases as [->|Hcases]; try subst i; discriminate Hbit.
Qed.

Lemma live_T7_first : live file_T7 (compute_record_size (fields schema_T)) 0 0.
Proof.
  assert (len file_T7 = 61) as Hlen by (vm_compute; reflexivity).
  assert (page_size_of (compute_record_size (fields schema_T)) = 61) as Hps
    by (vm_compute; reflexivity).
  unfold live. rewrite Hlen, Hps. unfold NUM_SLOTS.
  split; [lia|]. split; [lia|]. split; [lia|].
  split; vm_compute; [discriminate|reflexivity].
Qed.

(** A file of [n] copies of a page [p]: its length and its ranges. *)
Lemma len_concat_replicate (p : list Z) n :
  len (concat (replicate n p)) = Z.of_nat n * len p.
Proof.
  induction n as [|n IH]; [done|].
  cbn [replicate concat]. rewrite len_app, IH. lia.
Qed.

Lemma file_range_pages (p : list Z) n : ∀ k a m,
  0 ≤ k < Z.of_nat n → 0 ≤ a → 0 ≤ m → a + m ≤ len p →
  file_range (concat (replicate n p)) (k * len p + a) m = file_range p a m.
Proof.
  induction n as [|n IH]; intros k a m Hk Ha Hm Ham; [lia|].
  cbn [replicate concat].
  destruct (decide (k = 0)) as [->|Hk0].
  - rewrite Z.mul_0_l, Z.add_0_l. by apply file_range_app_l.
  - replace (k * len p + a) with (len p + ((k - 1) * len p + a)) by lia.
    pose proof (len_nonneg p).
    rewrite file_range_app_r by nia. apply IH; lia.
Qed.

Lemma full_file_T_pages :
  whole_pages full_file_T (compute_record_size (fields schema_T)) MAX_PAGES.
Proof.
  split; [unfold MAX_PAGES; lia|]. unfold full_file_T.
  rewrite len_concat_replicate. reflexivity.
Qed.

Lemma type_stored_T_full :
  type_stored fs_T_full (str "T") schema_T full_file_T MAX_PAGES.
Proof. eapply type_stored_put; [exact type_stored_T|exact full_file_T_pages]. Qed.

Lemma full_file_T_header k :
  0 ≤ k < MAX_PAGES →
  header_of full_file_T (compute_record_size (fields schema_T)) k
  = 10 :: replicate 10 1.
Proof.
  intros Hk. unfold header_of, full_file_T.
  change (page_size_of (compute_record_size (fields schema_T))) with (len full_page_T).
  rewrite <- (Z.add_0_r (k * len full_page_T)).
  rewrite file_range_pages; [reflexivity|unfold MAX_PAGES in *; lia|lia|done|done].
Qed.

Lemma full_file_T_record k i :
  0 ≤ k < MAX_PAGES → 0 ≤ i < NUM_SLOTS →
  record_of full_file_T (compute_record_size (fields schema_T)) k i = record_7.
Proof.
  intros Hk Hi. unfold record_of, full_file_T.
  change (page_size_of (compute_record_size (fields schema_T))) with (len full_page_T).
  change (compute_record_size (fields schema_T)) with 5.
  unfold NUM_SLOTS in Hi.
  replace (k * len full_page_T + PAGE_HEADER_SIZE + i * 5)
    with (k * len full_page_T + (11 + i * 5))
    by (unfold PAGE_HEADER_SIZE, NUM_SLOTS; lia).
  rewrite file_range_pages;
    [|unfold MAX_PAGES in *; lia|lia|lia|change (len full_page_T) with 61; lia].
  assert (i = 0 ∨ i = 1 ∨ i = 2 ∨ i = 3 ∨ i = 4 ∨ i = 5 ∨ i = 6 ∨ i = 7
          ∨ i = 8 ∨ i = 9) as Hcases by lia.
  repeat destruct Hcases as [->|Hcases]; try subst i; reflexivity.
Qed.

Lemma full_file_T_other_key pk_value k i :
  pk_value ≠ str "7" →
  live full_file_T (compute_record_size (fields schema_T)) k i →
  key_of full_file_T (fields schema_T) (pk_index schema_T - 1) k i ≠ Ok pk_value.
Proof.
  intros Hne Hlive Hkey.
  pose proof (live_not_past_end full_file_T (compute_record_size (fields schema_T))
                MAX_PAGES k i ltac:(done) full_file_T_pages Hlive) as Hk.
  destruct Hlive as (_ & _ & Hi & _).
  unfold key_of in Hkey. rewrite (full_file_T_record k i Hk Hi) in Hkey.
  vm_compute in Hkey. injection Hkey as <-. by destruct Hne.
Qed.

Lemma cleared_T7_no_live k i :
  ¬ live (clear_slot file_T7 (compute_record_size (fields schema_T)) 0 0)
      (compute_record_size (fields schema_T)) k i.
Proof.
  intros (Hk & Hin & _ & Hc & _).
  assert (len (clear_slot file_T7 (compute_record_size (fields schema_T)) 0 0) = 61)
    as Hlen by (vm_compute; reflexivity).
  assert (page_size_of (compute_record_size (fields schema_T)) = 61) as Hps
    by (vm_compute; reflexivity).
  rewrite Hlen, Hps in Hin. assert (k = 0) as -> by lia.
  apply Hc. vm_compute. reflexivity.
Qed.

(** ** Text keys longer than their field *)

Lemma rstrip_by_length p s : (length (rstrip_by p s) ≤ length s)%nat.
Proof.
  induction s as [|c r IH]; simpl; [done|].
  destruct (rstrip_by p r); [destruct (p c); simpl; lia|simpl in *; lia].
Qed.

(** A decoded text field encodes to no more bytes than the field read. *)
Lemma unpack_field_text_width ftype chunk b :
  ftype ≠ kw_int → utf8_encode (unpack_field ftype chunk) = Ok b →
  len b ≤ len chunk.
Proof.
  intros Hft Hb. unfold unpack_field in Hb.
  rewrite bool_decide_eq_false_2 in Hb by done.
  destruct (decode_ignore_reencode (rstrip_zero chunk)) as (b' & Hb' & Hsub).
  rewrite Hb' in Hb. injection Hb as <-.
  apply sublist_len in Hsub.
  pose proof (rstrip_by_length (Z.eqb 0) chunk). unfold rstrip_zero, len in *. lia.
Qed.

(** No stored record decodes to a key whose encoding is longer than the
    key field: [find_record_page_slot] does not find such a key. *)
Lemma long_key_not_found s tname e f n key fname ftype flen b :
  type_stored s tname e f n →
  fields e !! Z.to_nat (pk_index e - 1) = Some (fname, ftype, flen) →
  ftype ≠ kw_int →
  utf8_encode key = Ok b → flen < len b →
  find_record_page_slot tname key s = Ok None.
Proof.
  intros Hst Hfield Hft Hb Hlong.
  destruct (find_record_page_slot_spec s tname e f n key Hst) as (r & -> & Hr).
  destruct r as [[off i]|]; [exfalso|done].
  destruct Hr as (k & _ & _ & Hkey).
  destruct Hst as (_ & Hw & Hpk & _).
  unfold key_of, unpack_record in Hkey.
  pose proof (unpack_fields_lookup (fields e)
                (record_of f (compute_record_size (fields e)) k i)
                _ 1 fname ftype flen Hfield) as Hlook.
  cbv zeta in Hlook.
  rewrite (py_index_lookup _ (pk_index e - 1) _ ltac:(lia) Hlook) in Hkey.
  injection Hkey as Hkey. rewrite <- Hkey in Hb.
  apply unpack_field_text_width in Hb; [|done].
  assert (Forall field_widths_ok (take (Z.to_nat (pk_index e - 1)) (fields e)))
    as Hw' by (by apply Forall_take).
  pose proof (compute_record_size_pos _ Hw').
  assert (0 ≤ flen) as Hflen.
  { rewrite Forall_lookup in Hw. by destruct (Hw _ _ Hfield). }
  rewrite py_slice_nonneg in Hb by lia.
  unfold len in Hb, Hlong. rewrite length_take in Hb. lia.
Qed.

(** C10.  For a stored type with consistent headers and fewer than
    [MAX_PAGES] pages, whose key field is a text field, and values that
    pack into a record and whose key encodes to more bytes than the key
    field has: the key is never found, the same insert request succeeds
    twice in a row, and two different live slots of the data file then
    hold the same record bytes, so the same stored key. *)
Theorem long_text_key_inserted_twice s c1 c2 tname values e f n key fname flen b rec :
  type_stored s tname e f n →
  headers_consistent f (compute_record_size (fields e)) n →
  n < MAX_PAGES →
  len values = num_fields e →
  py_index values (pk_index e - 1) = Ok key →
  fields e !! Z.to_nat (pk_index e - 1) = Some (fname, kw_str, flen) →
  utf8_encode key = Ok b → flen < len b →
  pack_record (fields e) values = Ok rec →
  let tokens := c1 :: c2 :: tname :: values in
  ∃ s1 s2 f2 n2 k1 i1 k2 i2,
    find_record_page_slot tname key s = Ok None
    ∧ handle_create_record tokens s = (Ok (Success ()), s1)
    ∧ find_record_page_slot tname key s1 = Ok None
    ∧ handle_create_record tokens s1 = (Ok (Success ()), s2)
    ∧ type_stored s2 tname e f2 n2
    ∧ (k1, i1) ≠ (k2, i2)
    ∧ live f2 (compute_record_size (fields e)) k1 i1
    ∧ live f2 (compute_record_size (fields e)) k2 i2
    ∧ record_of f2 (compute_record_size (fields e)) k1 i1 = rec
    ∧ record_of f2 (compute_record_size (fields e)) k2 i2 = rec
    ∧ key_of f2 (fields e) (pk_index e - 1) k1 i1
      = key_of f2 (fields e) (pk_index e - 1) k2 i2.
Proof.
  intros Hst Hcons Hn Hlen Hpkv Hfield Hb Hlong Hpack tokens. subst tokens.
  assert (kw_str ≠ kw_int) as Hft by discriminate.
  pose proof Hst as (_ & Hw & _ & _ & Hpages).
  pose proof (compute_record_size_pos (fields e) Hw) as Hrs.
  pose proof (long_key_not_found s tname e f n key fname kw_str flen b
                Hst Hfield Hft Hb Hlong) as Hfind.
  destruct (handle_create_record_packed s tname e f n c1 c2 values key rec
              Hst) as (Hrec & o & f1 & Hout & Hrun1); try done.
  { intros k Hk.
    pose proof (headers_count_bounds f _ n k Hrs Hpages Hcons Hk). lia. }
  destruct (insert_outcome_post _ f n rec o f1 Hrs Hpages Hcons Hrec Hout)
    as (n1 & Hpages1 & Hcons1 & [(_ & _ & _ & ? & _)
         |(-> & k1 & i1 & Hk1 & Hi1 & Hlive1 & Hr1 & _ & _ & Hwhere1)]); [lia|].
  simpl succeeded in Hrun1.
  set (s1 := log_operation (join [space] (c1 :: c2 :: tname :: values)) true
               (with_file s tname f1)) in *.
  assert (type_stored s1 tname e f1 n1) as Hst1
    by (by eapply type_stored_with_file).
  pose proof (long_key_not_found s1 tname e f1 n1 key fname kw_str flen b
                Hst1 Hfield Hft Hb Hlong) as Hfind1.
  destruct (handle_create_record_packed s1 tname e f1 n1 c1 c2 values key rec
              Hst1) as (_ & o2 & f2 & Hout2 & Hrun2); try done.
  { intros k Hk.
    pose proof (headers_count_bounds f1 _ n1 k Hrs Hpages1 Hcons1 Hk). lia. }
  destruct (insert_outcome_post _ f1 n1 rec o2 f2 Hrs Hpages1 Hcons1 Hrec Hout2)
    as (n2 & Hpages2 & Hcons2 & [(_ & _ & _ & Hcap & Hfull)
         |(-> & k2 & i2 & Hk2 & Hi2 & Hlive2 & Hr2 & Hnl2 & Hframe2 & _)]).
  { exfalso.
    destruct Hwhere1 as [(-> & _)|(-> & _ & -> & _ & _ & _ & _ & Hnf)]; [lia|].
    apply Hnf, Hfull. lia. }
  simpl succeeded in Hrun2.
  destruct (Hframe2 k1 i1 Hlive1) as [Hlive1' Hr1'].
  eexists s1, _, f2, n2, k1, i1, k2, i2.
  split; [done|]. split; [exact Hrun1|]. split; [done|]. split; [exact Hrun2|].
  split; [by eapply type_stored_with_file|].
  split; [intros [= -> ->]; done|]. split; [done|]. split; [done|].
  split; [congruence|]. split; [done|].
  apply key_of_record. congruence.
Qed.

Lemma type_stored_N : type_stored fs_N (str "N") schema_N [] 0.
Proof.
  split; [exists (<[str "N" := schema_N]> ∅); split; vm_compute; reflexivity|].
  split; [repeat constructor; simpl; try lia; discriminate|].
  split; [vm_compute; split; discriminate|].
  split; [vm_compute; reflexivity|]. split; [lia|reflexivity].
Qed.

Lemma long_text_key_inserted_twice_witness :
  ∃ s1 s2 f2 n2 k1 i1 k2 i2,
    find_record_page_slot (str "N") key_of_21_bytes fs_N = Ok None
    ∧ handle_create_record
        [str "create"; str "record"; str "N"; key_of_21_bytes] fs_N
      = (Ok (Success ()), s1)
    ∧ find_record_page_slot (str "N") key_of_21_bytes s1 = Ok None
    ∧ handle_create_record
        [str "create"; str "record"; str "N"; key_of_21_bytes] s1
      = (Ok (Success ()), s2)
    ∧ type_stored s2 (str "N") schema_N f2 n2
    ∧ (k1, i1) ≠ (k2, i2)
    ∧ live f2 (compute_record_size (fields schema_N)) k1 i1
    ∧ live f2 (compute_record_size (fields schema_N)) k2 i2
    ∧ record_of f2 (compute_record_size (fields schema_N)) k1 i1
      = 1 :: replicate 20 97
    ∧ record_of f2 (compute_record_size (fields schema_N)) k2 i2
      = 1 :: replicate 20 97
    ∧ key_of f2 (fields schema_N) (pk_index schema_N - 1) k1 i1
      = key_of f2 (fields schema_N) (pk_index schema_N - 1) k2 i2.
Proof.
  apply (long_text_key_inserted_twice fs_N (str "create") (str "record") (str "N")
           [key_of_21_bytes] schema_N [] 0 key_of_21_bytes (str "s") 20
           (replicate 21 97) (1 :: replicate 20 97) type_stored_N).
  - intros k Hk. lia.
  - unfold MAX_PAGES. lia.
  - reflexivity.
  - reflexivity.
  - reflexivity.
  - reflexivity.
  - vm_compute. reflexivity.
  - reflexivity.
Defined.

(** ** The theorems at the sample states *)

Lemma duplicate_key_rejected_witness :
  handle_create_record [str "create"; str "record"; str "T"; str "7"] fs_T7
  = (Ok (Failure DuplicateKey),
     log_operation (join [space] [str "create"; str "record"; str "T"; str "7"])
       false fs_T7)
  ∧ handle_search_record [str "search"; str "record"; str "T"; str "7"] fs_T7
    = (Ok (Success [str "7"]),
       log_operation (join [space] [str "search"; str "record"; str "T"; str "7"])
         true fs_T7).
Proof.
  destruct (duplicate_key_rejected fs_T7 (str "create") (str "record") (str "T")
              [str "7"] schema_T file_T7 1 0 0 (str "7")
              type_stored_T7 eq_refl eq_refl live_T7_first)
    as (Hrun & _ & _ & k & i & Hlive & _ & Hsearch).
  - vm_compute. reflexivity.
  - split; [exact Hrun|].
    rewrite (Hsearch (str "search") (str "record") fs_T7 (or_introl eq_refl)).
    apply live_T7 in Hlive. injection Hlive as -> ->.
    vm_compute. reflexivity.
Defined.


Lemma delete_then_search_and_reuse_witness :
  handle_search_record [str "search"; str "record"; str "T"; str "7"] fs_T7_deleted
  = (Ok (Failure RecordNotFound),
     log_operation (join [space] [str "search"; str "record"; str "T"; str "7"])
       false fs_T7_deleted)
  ∧ ∃ k' i',
      (k', i') = (0, 0)
      ∧ handle_create_record [str "create"; str "record"; str "T"; str "8"]
          fs_T7_deleted
        = (Ok (Success ()),
           log_operation
             (join [space] [str "create"; str "record"; str "T"; str "8"]) true
             (with_file fs_T7_deleted (str "T")
                (place_record
                   (clear_slot file_T7 (compute_record_size (fields schema_T)) 0 0)
                   (compute_record_size (fields schema_T)) k' i' [1; 0; 0; 0; 8]))).
Proof.
  destruct (delete_then_search_and_reuse fs_T7 (str "T") schema_T file_T7 1
              (str "delete") (str "record") (str "7") fs_T7_deleted
              type_stored_T7 headers_consistent_T7)
    as (k & i & f1 & Hlive & _ & -> & _ & _ & _ & _ & _ & _ & _ & Hsearch & Hins).
  - vm_compute. reflexivity.
  - apply live_T7 in Hlive. injection Hlive as -> ->. split.
    + apply Hsearch. intros k' j Hl _. by apply live_T7.
    + destruct (Hins (str "create") (str "record") [str "8"] (str "8") [1; 0; 0; 0; 8]
                  eq_refl eq_refl)
        as (k' & i' & Hk' & Hbefore & _ & (_ & Hi' & _) & Hrun & _).
      * intros k' j Hl. by destruct (cleared_T7_no_live k' j).
      * reflexivity.
      * exists k', i'. split; [|exact Hrun]. f_equal; lia.
Defined.

(** C7 as stated fails.  After the records of key texts 7 and 007 went
    into [T], both of stored key 7, the delete of key 7 succeeds and the
    search for key 7 that follows still finds a record. *)
Lemma search_after_delete_finds_twin :
  (handle_create_record [str "create"; str "record"; str "T"; str "7"] fs_T).1
  = Ok (Success ())
  ∧ (handle_create_record [str "create"; str "record"; str "T"; str "007"] fs_T7).1
    = Ok (Success ())
  ∧ handle_delete_record [str "delete"; str "record"; str "T"; str "7"] fs_T7_twin
    = (Ok (Success ()), fs_T7_twin_deleted)
  ∧ (handle_search_record [str "search"; str "record"; str "T"; str "7"]
       fs_T7_twin_deleted).1
    = Ok (Success [str "7"])
  ∧ (handle_search_record [str "search"; str "record"; str "T"; str "7"]
       fs_T7_twin_deleted).1
    ≠ Ok (Failure RecordNotFound).
Proof.
  split; [vm_compute; reflexivity|]. split; [vm_compute; reflexivity|].
  split; [vm_compute; reflexivity|]. split; [vm_compute; reflexivity|].
  vm_compute. discriminate.
Qed.

Lemma capacity_ceiling_witness :
  handle_create_record [str "create"; str "record"; str "T"; str "8"] fs_T_full
  = (Ok (Failure CapacityExceeded),
     log_operation (join [space] [str "create"; str "record"; str "T"; str "8"])
       false fs_T_full)
  ∧ dat_files
      (log_operation (join [space] [str "create"; str "record"; str "T"; str "8"])
         false fs_T_full) !! dat_filename (str "T")
    = Some full_file_T.
Proof.
  destruct (capacity_ceiling fs_T_full (str "create") (str "record") (str "T")
              [str "8"] schema_T full_file_T (str "8") [1; 0; 0; 0; 8]
              type_stored_T_full) as (Hrun & _ & _ & Hfile).
  - intros k Hk. unfold count_of, bitmap_of.
    rewrite (full_file_T_header k Hk). split; reflexivity.
  - reflexivity.
  - reflexivity.
  - intros k i. apply full_file_T_other_key. discriminate.
  - reflexivity.
  - split; [exact Hrun|exact Hfile].
Defined.

(** * Further properties of the handlers *)

(** ** What a request leaves alone *)


Lemma finish_files {A} op (o : outcome A) s :
  catalog_meta (finish op o s).2 = catalog_meta s
  ∧ dat_files (finish op o s).2 = dat_files s.
Proof. done. Qed.



(** Only [handle_create_type] writes the catalog, and a search writes
    no data file either: for every token list and every state, whatever
    the handler returns or raises. *)
Theorem catalog_written_by_create_type_only tokens s :
  catalog_meta (handle_create_record tokens s).2 = catalog_meta s
  ∧ catalog_meta (handle_delete_record tokens s).2 = catalog_meta s
  ∧ catalog_meta (handle_search_record tokens s).2 = catalog_meta s
  ∧ dat_files (handle_search_record tokens s).2 = dat_files s.
Proof.
  split; [|split; [|split]].
  - unfold handle_create_record. repeat case_match; subst; done.
  - unfold handle_delete_record. repeat case_match; subst; done.
  - unfold handle_search_record. repeat case_match; subst; done.
  - unfold handle_search_record. repeat case_match; subst; done.
Qed.

(** ** The log *)

(** A handler that returns has appended exactly one line to the log: the
    request's tokens joined by spaces, with the status of the outcome it
    returns.  A handler that raises has appended nothing. *)
Theorem request_logged_once tokens s :
  let logged {A} (run : result (outcome A) * fs) :=
    match run.1 with
    | Ok o => log_csv run.2 = log_csv s ++ [(join [space] tokens, succeeded o)]
    | Raise _ => log_csv run.2 = log_csv s
    end in
  logged (handle_create_type tokens s)
  ∧ logged (handle_create_record tokens s)
  ∧ logged (handle_delete_record tokens s)
  ∧ logged (handle_search_record tokens s).
Proof.
  cbv zeta. split; [|split; [|split]].
  - destruct (handle_create_type tokens s) as [r s'] eqn:Hrun. revert Hrun.
    unfold handle_create_type, finish.
    repeat case_match; subst; intros [= <- <-];
      cbn [fst snd] in *; by simplify_eq.
  - destruct (handle_create_record tokens s) as [r s'] eqn:Hrun. revert Hrun.
    unfold handle_create_record, finish.
    repeat case_match; subst; intros [= <- <-];
      cbn [fst snd] in *; by simplify_eq.
  - destruct (handle_delete_record tokens s) as [r s'] eqn:Hrun. revert Hrun.
    unfold handle_delete_record, finish.
    repeat case_match; subst; intros [= <- <-];
      cbn [fst snd] in *; by simplify_eq.
  - destruct (handle_search_record tokens s) as [r s'] eqn:Hrun. revert Hrun.
    unfold handle_search_record, finish.
    repeat case_match; subst; intros [= <- <-];
      cbn [fst snd] in *; by simplify_eq.
Qed.

(** ** The first match in file order *)

Section locate_first.
Context (fields : list field) (pk_idx : Z) (pk_value : list Z).
Context (Hw : Forall field_widths_ok fields).
Context (Hpk : 0 ≤ pk_idx < len fields).
Local Abbreviation rs := (compute_record_size fields).
Local Abbreviation ps := (page_size_of (compute_record_size fields)).
Implicit Types f : list Z.

(** The slot loop passes no set slot with the key before the one it
    returns. *)
Lemma scan_slots_first f k :
  0 ≤ k → (k + 1) * ps ≤ len f →
  ∀ m a i, 0 ≤ a → a + Z.of_nat m ≤ NUM_SLOTS →
  scan_slots f fields pk_idx pk_value rs (k * ps) (bitmap_of f rs k)
    (seqZ a (Z.of_nat m)) = Ok (Some i) →
  ∀ j, a ≤ j < i → bitmap_of f rs k !! Z.to_nat j = Some 1 →
       key_of f fields pk_idx k j ≠ Ok pk_value.
Proof using Hw Hpk.
  intros Hk Hin. pose proof (rs_nonneg fields Hw) as Hrs.
  induction m as [|m IH]; intros a i Ha Hm; [done|].
  rewrite seqZ_cons by lia. replace (Z.pred (Z.of_nat (S m))) with (Z.of_nat m) by lia.
  cbn [scan_slots].
  destruct (bitmap_index rs Hrs f k a Hk Hin) as (b & Hb & ->); [lia|].
  rewrite bind_Ok.
  destruct (Z.eqb_spec b 1) as [->|Hb1].
  - destruct (record_read rs Hrs f k a Hk Hin) as [-> _]; [lia|].
    rewrite bind_Ok.
    destruct (key_of_total fields pk_idx Hpk f k a) as [v Hv].
    pose proof Hv as Hv'. unfold key_of in Hv'. rewrite Hv'.
    rewrite bind_Ok. case_bool_decide as Heq.
    + intros [= <-] j Hj. lia.
    + intros Hscan j Hj Hbit. destruct (decide (j = a)) as [->|].
      * rewrite Hv. congruence.
      * apply (IH (Z.succ a) i); [lia|lia|done|lia|done].
  - intros Hscan j Hj Hbit. destruct (decide (j = a)) as [->|].
    + rewrite Hb in Hbit. congruence.
    + apply (IH (Z.succ a) i); [lia|lia|done|lia|done].
Qed.

(** The page loop passes no live record with the key before the one it
    returns. *)
Lemma scan_pages_first f n :
  whole_pages f rs n →
  ∀ (d : nat) k fuel off i, 0 ≤ k → k + Z.of_nat d = n → (d < fuel)%nat →
  scan_pages f fields pk_idx pk_value rs ps fuel (k * ps) = Ok (Some (off, i)) →
  ∀ k' j, k ≤ k' → live f rs k' j →
          k' * ps < off ∨ (k' * ps = off ∧ j < i) →
          key_of f fields pk_idx k' j ≠ Ok pk_value.
Proof using Hw Hpk.
  intros [Hn Hlen]. pose proof (rs_nonneg fields Hw) as Hrs.
  pose proof (page_size_of_pos rs Hrs) as Hps.
  induction d as [|d IH]; intros k fuel off i Hk Hd Hfuel;
    (destruct fuel as [|fuel]; [lia|]); cbn [scan_pages].
  - replace k with n by lia. rewrite header_read_end by done. by rewrite bind_Ok.
  - assert ((k + 1) * ps ≤ len f) as Hin
      by (rewrite Hlen; apply Z.mul_le_mono_nonneg_r; lia).
    rewrite header_read by done. rewrite bind_Ok.
    destruct (header_of_split rs Hrs f k Hk Hin) as [Hh Hl].
    rewrite bool_decide_eq_false_2 by done.
    assert ((len (count_of f rs k :: bitmap_of f rs k) <? PAGE_HEADER_SIZE) = false) as ->
      by (rewrite len_cons; unfold len, PAGE_HEADER_SIZE, NUM_SLOTS; lia).
    cbn [orb]. rewrite (py_index_lookup _ 0 (count_of f rs k)) by done. rewrite bind_Ok.
    rewrite header_slice by done.
    replace (k * ps + ps) with ((k + 1) * ps) by lia.
    destruct (scan_pages_spec fields pk_idx pk_value Hw Hpk f n (conj Hn Hlen)
                d (k + 1) fuel) as (r & Hr & Hspec); [lia..|].
    assert (∀ off i, r = Some (off, i) → (k + 1) * ps ≤ off) as Hlater.
    { intros off' i' ->. destruct Hspec as (k0 & -> & ? & _).
      apply Z.mul_le_mono_nonneg_r; lia. }
    destruct (Z.eqb_spec (count_of f rs k) 0) as [Hzero|Hnz].
    + intros Hscan k' j Hk' Hlive Hbefore.
      destruct (decide (k' = k)) as [->|].
      { destruct Hlive as (_ & _ & _ & Hc & _). done. }
      apply (IH (k + 1) fuel off i); [lia|lia|lia|done|lia|done|done].
    + destruct (scan_slots_spec fields pk_idx pk_value Hw Hpk f k Hk Hin 10 0)
        as (found & Hscan & Hfound); [lia|unfold NUM_SLOTS; lia|].
      pose proof (scan_slots_first f k Hk Hin 10 0) as Hfirst.
      change (Z.of_nat 10) with NUM_SLOTS in Hscan, Hfirst.
      rewrite Hscan, bind_Ok. destruct found as [i0|].
      * intros [= <- <-] k' j Hk' Hlive Hbefore.
        assert (k' = k) as -> by nia.
        destruct Hlive as (_ & _ & ? & _ & Hbit).
        apply (Hfirst i0); [lia|unfold NUM_SLOTS; lia|done|lia|done].
      * intros Hscan' k' j Hk' Hlive Hbefore.
        destruct (decide (k' = k)) as [->|].
        { destruct Hlive as (_ & _ & ? & _ & Hbit).
          apply Hfound; [unfold NUM_SLOTS in *; lia|done]. }
        apply (IH (k + 1) fuel off i); [lia|lia|lia|done|lia|done|done].
Qed.

End locate_first.

(** [find_record_page_slot] on a stored type returns the first match. *)
Lemma find_record_page_slot_first s tname e f n pk_value off i :
  type_stored s tname e f n →
  find_record_page_slot tname pk_value s = Ok (Some (off, i)) →
  ∃ k, off = k * page_size_of (compute_record_size (fields e))
       ∧ first_match f (fields e) (pk_index e - 1) pk_value k i.
Proof.
  intros Hst Hfind.
  destruct (find_record_page_slot_spec s tname e f n pk_value Hst) as (r & Hr & Hspec).
  rewrite Hfind in Hr. injection Hr as <-.
  destruct Hspec as (k & -> & Hlive & Hkey). exists k. split; [done|].
  split; [done|]. split; [done|].
  destruct Hst as ((catalog & Hcat & Ht) & Hw & Hpk & Hf & Hpages).
  unfold find_record_page_slot in Hfind. rewrite Hcat, bind_Ok, Ht, Hf in Hfind.
  pose proof (rs_nonneg (fields e) Hw) as Hrs.
  pose proof (page_size_of_pos _ Hrs) as Hps.
  intros k' j Hlive' Hbefore.
  pose proof (live_page_bound f _ n k' j Hrs Hpages Hlive') as Hk'.
  destruct Hpages as [Hn Hlen].
  apply (scan_pages_first (fields e) (pk_index e - 1) pk_value Hw ltac:(lia)
           f n (conj Hn Hlen) (Z.to_nat n) 0 (S (length f))
           (k * page_size_of (compute_record_size (fields e))) i);
    [lia|lia|unfold len in *; nia|exact Hfind|lia|done|].
  destruct Hbefore as [?|[-> ?]]; [left; nia|right; done].
Qed.

Lemma before_total k i k' j : before k i k' j ∨ (k, i) = (k', j) ∨ before k' j k i.
Proof.
  unfold before. destruct (decide (k = k')) as [->|]; [|lia].
  destruct (decide (i = j)) as [->|]; [|lia]. right. by left.
Qed.

Lemma first_match_found s tname e f n pk_value k i :
  type_stored s tname e f n →
  first_match f (fields e) (pk_index e - 1) pk_value k i →
  find_record_page_slot tname pk_value s
  = Ok (Some (k * page_size_of (compute_record_size (fields e)), i)).
Proof.
  intros Hst (Hlive & Hkey & Hfirst).
  destruct (find_record_page_slot_spec s tname e f n pk_value Hst) as (r & Hr & Hspec).
  destruct r as [[off i']|]; [|by destruct (Hspec k i Hlive)].
  destruct (find_record_page_slot_first s tname e f n pk_value off i' Hst Hr)
    as (k' & -> & Hlive' & Hkey' & Hfirst').
  rewrite Hr.
  destruct (before_total k i k' i') as [Hb|[[= -> ->]|Hb]]; [|done|].
  - by destruct (Hfirst' k i Hlive Hb).
  - by destruct (Hfirst k' i' Hlive' Hb).
Qed.

(** ** The live records after an insert and after a delete *)

Lemma set_entries_pos (b : list Z) (j : nat) : b !! j = Some 1 → 1 ≤ set_entries b.
Proof.
  revert j. induction b as [|x b IH]; intros [|j] Hj; simplify_eq/=.
  - rewrite set_entries_cons. pose proof (set_entries_nonneg b).
    rewrite bool_decide_eq_true_2 by done. lia.
  - rewrite set_entries_cons. pose proof (IH j Hj). case_bool_decide; lia.
Qed.

Lemma live_count_pos f rs n k i :
  1 ≤ rs → whole_pages f rs n → headers_consistent f rs n →
  0 ≤ k < n → bitmap_of f rs k !! Z.to_nat i = Some 1 →
  count_of f rs k ≠ 0.
Proof.
  intros Hrs Hpages Hcons Hk Hbit. rewrite (Hcons k Hk).
  pose proof (set_entries_pos _ _ Hbit). lia.
Qed.

Section live_sets.
Context (rs : Z) (Hrs : 1 ≤ rs).
Context (f : list Z) (n : Z).
Context (Hpages : whole_pages f rs n) (Hcons : headers_consistent f rs n).
Local Abbreviation ps := (page_size_of rs).

(** A live record after [place_record] is the new one or an old one. *)
Lemma place_record_live_inv k i record_bytes k' j :
  0 ≤ k < n → 0 ≤ i < NUM_SLOTS → len record_bytes = rs →
  live (place_record f rs k i record_bytes) rs k' j →
  (k', j) = (k, i) ∨ live f rs k' j.
Proof using Hrs Hpages Hcons.
  intros Hk Hi Hrec Hlive.
  pose proof (place_record_pages rs Hrs f n k i record_bytes Hpages Hk Hi Hrec) as Hpages'.
  pose proof (live_not_past_end _ rs n k' j Hrs Hpages' Hlive) as Hk'.
  destruct Hlive as (_ & Hin' & Hj & Hc' & Hb').
  pose proof (place_record_header rs Hrs f n k i record_bytes Hpages Hk Hi Hrec k'
                ltac:(lia)) as Hh.
  unfold count_of, bitmap_of in Hc', Hb'. rewrite Hh in Hc', Hb'.
  destruct Hpages as [_ Hlen], Hpages' as [_ Hlen'].
  case_decide as Hne; [subst k'|].
  - cbn [skipn] in Hb'. rewrite drop_0 in Hb'. destruct (decide (j = i)) as [->|Hji]; [by left|]. right.
    rewrite list_lookup_insert_ne in Hb' by lia.
    unfold live. rewrite Hlen. rewrite Hlen' in Hin'.
    repeat split; try lia; try done.
    by apply (live_count_pos f rs n k j).
  - right. unfold live. rewrite Hlen. rewrite Hlen' in Hin'.
    repeat split; try lia; done.
Qed.

(** A live record after a page was appended is the new one or an old
    one. *)
Lemma append_live_inv record_bytes k' j :
  len record_bytes = rs →
  live (f ++ new_page rs record_bytes) rs k' j →
  (k', j) = (n, 0) ∨ live f rs k' j.
Proof using Hrs Hpages Hcons.
  intros Hrec Hlive.
  pose proof (append_pages rs Hrs f n record_bytes Hpages Hrec) as Hpages'.
  pose proof (live_not_past_end _ rs (n + 1) k' j Hrs Hpages' Hlive) as Hk'.
  destruct Hlive as (_ & Hin' & Hj & Hc' & Hb').
  pose proof (append_header rs Hrs f n record_bytes Hpages Hrec k' ltac:(lia)) as Hh.
  unfold count_of, bitmap_of in Hc', Hb'. rewrite Hh in Hc', Hb'.
  destruct Hpages as [_ Hlen].
  case_decide as Hne; [subst k'|].
  - left. cbn [skipn] in Hb'. unfold NUM_SLOTS in Hj.
    destruct (decide (j = 0)) as [->|]; [done|].
    replace (Z.to_nat j) with (S (Z.to_nat (j - 1))) in Hb' by lia.
    cbn [lookup list_lookup] in Hb'. apply lookup_replicate in Hb' as [? _]. done.
  - right. unfold live. rewrite Hlen. pose proof (page_size_of_pos rs ltac:(lia)).
    repeat split; try nia; done.
Qed.

(** A live record other than the cleared one is live after
    [clear_slot]. *)
Lemma clear_slot_live k i k' j :
  live f rs k i → live f rs k' j → (k', j) ≠ (k, i) →
  live (clear_slot f rs k i) rs k' j.
Proof using Hrs Hpages Hcons.
  intros Hlive Hlive' Hne.
  destruct (clear_slot_post rs Hrs f n Hpages Hcons k i Hlive)
    as (Hpages1 & Hcons1 & _ & _ & Hb1 & _).
  pose proof (live_not_past_end f rs n k i Hrs Hpages Hlive) as Hk.
  pose proof (live_not_past_end f rs n k' j Hrs Hpages Hlive') as Hk'.
  destruct Hlive as (_ & _ & Hi & _ & _).
  destruct Hlive' as (_ & Hin' & Hj & Hc' & Hb').
  pose proof (clear_slot_header rs Hrs f n k i Hpages Hk Hi k' ltac:(lia)) as Hh.
  assert (bitmap_of (clear_slot f rs k i) rs k' !! Z.to_nat j = Some 1) as Hbit.
  { destruct (decide (k' = k)) as [->|Hkk].
    - rewrite Hb1. rewrite list_lookup_insert_ne; [done|].
      intros Heq. apply Hne. f_equal. lia.
    - unfold bitmap_of in *. by rewrite Hh. }
  destruct Hpages as [_ Hlen], Hpages1 as [Hn1 Hlen1].
  unfold live. rewrite Hlen1. rewrite Hlen in Hin'.
  repeat split; try lia; try done.
  by apply (live_count_pos _ rs n k' j Hrs (conj Hn1 Hlen1) Hcons1).
Qed.

(** [clear_slot] leaves the field bytes of the cleared record. *)
Lemma clear_slot_fields k i :
  0 ≤ k < n → 0 ≤ i < NUM_SLOTS →
  record_of (clear_slot f rs k i) rs k i = 0 :: drop 1 (record_of f rs k i).
Proof using Hrs Hpages.
  intros Hk Hi.
  assert (0 ≤ rs) as rs0 by lia.
  pose proof (page_in_file rs Hrs f n k Hpages Hk) as Hin.
  destruct (header_of_split rs rs0 f k ltac:(lia) Hin) as [_ Hl].
  destruct (page_start_bounds rs rs0 f k ltac:(lia) Hin) as [Hp0 Hp1].
  assert (len ((if 0 <? count_of f rs k then count_of f rs k - 1 else count_of f rs k)
               :: <[Z.to_nat i := 0]> (bitmap_of f rs k))
          = PAGE_HEADER_SIZE) as Hh
    by (rewrite len_cons; unfold len; rewrite length_insert, Hl; done).
  assert (len [0] ≤ rs) as H1 by (change (len [0]) with 1; lia).
  assert ((k + 1) * ps
          ≤ len (overwrite f (k * ps + PAGE_HEADER_SIZE + i * rs) [0])) as Hin1
    by (rewrite overwrite_slot_length by (done || lia); done).
  unfold clear_slot. cbv zeta.
  rewrite record_of_overwrite_header by (done || lia).
  unfold record_of, PAGE_HEADER_SIZE, NUM_SLOTS in *.
  assert (0 ≤ i * rs) by nia. assert (i * rs + rs ≤ 10 * rs) by nia.
  apply list_eq. intros m. destruct m as [|m].
  - rewrite file_range_lookup. rewrite decide_True by lia.
    rewrite overwrite_lookup by (change (len [0]) with 1; lia).
    rewrite decide_True by (simpl; lia).
    by replace (Z.to_nat (k * ps + (1 + 10) + i * rs) + 0
                - Z.to_nat (k * ps + (1 + 10) + i * rs))%nat with 0%nat by lia.
  - rewrite lookup_cons_ne_0 by done. cbn [Nat.pred].
    rewrite lookup_drop. rewrite !file_range_lookup.
    replace (1 + m)%nat with (S m) by lia.
    case_decide; [|done].
    rewrite overwrite_lookup by (change (len [0]) with 1; lia).
    rewrite decide_False by (simpl; lia). done.
Qed.

End live_sets.

(** What a successful run of the [with] block of [handle_create_record]
    does to the live records: one slot that was not live holds the new
    record, every other live record is as it was, and the file has
    grown by one page or not at all. *)
Lemma insert_outcome_live rs f n record_bytes f' :
  1 ≤ rs → whole_pages f rs n → headers_consistent f rs n →
  len record_bytes = rs →
  insert_outcome f rs n record_bytes (Success ()) f' →
  ∃ k i,
    ¬ live f rs k i ∧ record_of f' rs k i = record_bytes
    ∧ (∀ k' j, live f' rs k' j ↔ (k', j) = (k, i) ∨ live f rs k' j)
    ∧ (∀ k' j, live f rs k' j → record_of f' rs k' j = record_of f rs k' j)
    ∧ (len f' = len f ∨ len f' = len f + page_size_of rs).
Proof.
  intros Hrs Hpages Hcons Hrec Hout.
  destruct (insert_outcome_post rs f n record_bytes _ f' Hrs Hpages Hcons Hrec Hout)
    as (n' & Hpages' & _ & [(? & _)|(_ & k & i & Hk & Hi & Hlive & Hr & Hnl & Hframe & Hwhere)]);
    [done|].
  exists k, i. split; [done|]. split; [done|].
  assert (∀ k' j, live f' rs k' j → (k', j) = (k, i) ∨ live f rs k' j) as Hback.
  { destruct Hout as [(-> & _ & ->)|[(Hn & _ & k0 & i0 & Hk0 & _ & Hfree & ->)
                     |[(Hn & _ & _ & ->)|(_ & _ & ? & _)]]]; [| | |done].
    - destruct (zero_page_pages rs Hrs) as [Hzp _].
      assert (headers_consistent (zero_page rs) rs 1) as Hzc.
      { intros k0 Hk0. replace k0 with 0 by lia.
        unfold header_consistent, count_of, bitmap_of. by rewrite zero_page_header. }
      intros k' j Hl.
      destruct (place_record_live_inv rs Hrs (zero_page rs) 1 Hzp Hzc 0 0
                  record_bytes k' j ltac:(lia) ltac:(unfold NUM_SLOTS; lia) Hrec Hl)
        as [Heq|Hz].
      + left. rewrite Heq.
        destruct Hwhere as [(? & ? & _)|(_ & _ & -> & -> & _)]; [lia|done].
      + exfalso.
        pose proof (live_not_past_end _ rs 1 k' j Hrs Hzp Hz) as Hk'.
        destruct Hz as (_ & _ & _ & Hc & _). apply Hc.
        replace k' with 0 by lia. unfold count_of. by rewrite zero_page_header.
    - destruct Hfree as (_ & Hi0 & _).
      destruct (place_record_live_inv rs Hrs f n Hpages Hcons k0 i0
                  record_bytes k i Hk0 Hi0 Hrec Hlive) as [[= -> ->]|Hold];
        [|by destruct Hnl].
      intros k' j Hl.
      by apply (place_record_live_inv rs Hrs f n Hpages Hcons k0 i0 record_bytes).
    - destruct (append_live_inv rs Hrs f n Hpages Hcons record_bytes k i Hrec Hlive)
        as [[= -> ->]|Hold]; [|by destruct Hnl].
      intros k' j Hl.
      by apply (append_live_inv rs Hrs f n Hpages Hcons record_bytes). }
  split.
  { intros k' j. split; [apply Hback|].
    intros [[= -> ->]|Hold]; [done|]. by apply Hframe. }
  split; [intros k' j Hl; by apply Hframe|].
  destruct Hpages as [_ Hlen], Hpages' as [_ Hlen'].
  destruct Hwhere as [(-> & _)|(-> & _)]; [left|right]; lia.
Qed.

(** A file of bytes has page counts that are bytes. *)
Lemma count_of_byte f rs k : Forall byte_value f → 0 ≤ count_of f rs k < 256.
Proof.
  intros Hb. unfold count_of, header_of.
  destruct (file_range f _ _ !! 0%nat) as [c|] eqn:Hc; [|simpl; lia].
  rewrite file_range_lookup in Hc. case_decide; [|done].
  rewrite Forall_lookup in Hb. apply (Hb _ _ Hc).
Qed.

(** [handle_search_record] and [handle_delete_record] on the slot that
    [find_record_page_slot] returns. *)
Lemma handle_search_record_found s tname e f n c1 c2 pk_value k i :
  type_stored s tname e f n →
  find_record_page_slot tname pk_value s
  = Ok (Some (k * page_size_of (compute_record_size (fields e)), i)) →
  live f (compute_record_size (fields e)) k i →
  handle_search_record [c1; c2; tname; pk_value] s
  = (Ok (Success (unpack_record (fields e)
                    (record_of f (compute_record_size (fields e)) k i))),
     log_operation (join [space] [c1; c2; tname; pk_value]) true s).
Proof.
  intros ((catalog & Hcat & Ht) & Hw & Hpk & Hf & Hpages) Hfind Hlive.
  unfold handle_search_record. rewrite Hcat, Ht, Hfind, Hf.
  pose proof (rs_nonneg (fields e) Hw) as Hrs.
  destruct Hlive as (? & ? & ? & _).
  by destruct (record_read _ Hrs f k i) as [-> _].
Qed.

Lemma handle_delete_record_found s tname e f n c1 c2 pk_value k i :
  type_stored s tname e f n →
  0 ≤ count_of f (compute_record_size (fields e)) k < 256 →
  find_record_page_slot tname pk_value s
  = Ok (Some (k * page_size_of (compute_record_size (fields e)), i)) →
  live f (compute_record_size (fields e)) k i →
  handle_delete_record [c1; c2; tname; pk_value] s
  = (Ok (Success ()),
     log_operation (join [space] [c1; c2; tname; pk_value]) true
       (with_file s tname (clear_slot f (compute_record_size (fields e)) k i))).
Proof.
  intros ((catalog & Hcat & Ht) & Hw & Hpk & Hf & Hpages) Hcount Hfind Hlive.
  pose proof (compute_record_size_pos (fields e) Hw) as Hrs.
  unfold handle_delete_record. rewrite Hcat, Ht, Hfind, Hf.
  by rewrite (invalidate_slot_spec _ Hrs f k i Hcount Hlive).
Qed.

(** A successful insert went through every check and the [with] block. *)
Lemma handle_create_record_success_inv s tname e f n c1 c2 values s1 :
  type_stored s tname e f n →
  headers_consistent f (compute_record_size (fields e)) n →
  handle_create_record (c1 :: c2 :: tname :: values) s = (Ok (Success ()), s1) →
  ∃ pk_value rec f',
    len values = num_fields e
    ∧ py_index values (pk_index e - 1) = Ok pk_value
    ∧ find_record_page_slot tname pk_value s = Ok None
    ∧ pack_record (fields e) values = Ok rec
    ∧ len rec = compute_record_size (fields e)
    ∧ insert_outcome f (compute_record_size (fields e)) n rec (Success ()) f'
    ∧ s1 = log_operation (join [space] (c1 :: c2 :: tname :: values)) true
             (with_file s tname f').
Proof.
  intros Hst Hcons Hrun.
  pose proof Hst as ((catalog & Hcat & Ht) & Hw & Hpk & Hf & Hpages).
  pose proof (compute_record_size_pos (fields e) Hw) as Hrs.
  assert (∀ k, 0 ≤ k < n → 0 ≤ count_of f (compute_record_size (fields e)) k)
    as Hcounts.
  { intros k Hk. pose proof (headers_count_bounds f _ n k Hrs Hpages Hcons Hk). lia. }
  revert Hrun. unfold handle_create_record.
  destruct (len (c1 :: c2 :: tname :: values) <? 4); [done|].
  rewrite Hcat, Ht. case_bool_decide as Hlen; [done|].
  destruct (py_index values (pk_index e - 1)) as [pk_value|x] eqn:Hpkv; [|done].
  rewrite bind_Ok.
  destruct (find_record_page_slot tname pk_value s) as [[[off i]|]|x] eqn:Hfind;
    [done| |done].
  destruct (pack_record (fields e) values) as [rec|x] eqn:Hpack;
    [|by destruct (is_value_error x)].
  destruct (handle_create_record_packed s tname e f n c1 c2 values pk_value rec
              Hst Hcounts Hlen Hpkv Hfind Hpack) as (Hrec & o & f' & Hout & Hrun).
  unfold handle_create_record in Hrun.
  assert ((len (c1 :: c2 :: tname :: values) <? 4) = false) as Hlen4
    by (rewrite len_tokens_ge; [done|by eapply py_index_Ok_nonempty|lia]).
  rewrite Hlen4, Hcat, Ht in Hrun.
  rewrite bool_decide_eq_false_2 in Hrun by (intros ?; done).
  rewrite Hpkv, bind_Ok, Hfind, Hpack in Hrun. rewrite Hrun.
  intros [= -> <-]. by exists pk_value, rec, f'.
Qed.

(** ** Search and delete act on the first match *)

Lemma not_found_no_live s tname e f n pk_value :
  type_stored s tname e f n →
  find_record_page_slot tname pk_value s = Ok None →
  ∀ k i, live f (compute_record_size (fields e)) k i →
         key_of f (fields e) (pk_index e - 1) k i ≠ Ok pk_value.
Proof.
  intros Hst Hfind.
  destruct (find_record_page_slot_spec s tname e f n pk_value Hst) as (r & Hr & Hspec).
  rewrite Hfind in Hr. by injection Hr as <-.
Qed.

(** When several live records of a stored type decode to the same key,
    it is the first of them in file order that [find_record_page_slot]
    returns, that a search reads and that a delete clears. *)
Theorem search_and_delete_take_first_match s tname e f n pk_value k i c1 c2 :
  type_stored s tname e f n →
  Forall byte_value f →
  first_match f (fields e) (pk_index e - 1) pk_value k i →
  find_record_page_slot tname pk_value s
  = Ok (Some (k * page_size_of (compute_record_size (fields e)), i))
  ∧ handle_search_record [c1; c2; tname; pk_value] s
    = (Ok (Success (unpack_record (fields e)
                      (record_of f (compute_record_size (fields e)) k i))),
       log_operation (join [space] [c1; c2; tname; pk_value]) true s)
  ∧ handle_delete_record [c1; c2; tname; pk_value] s
    = (Ok (Success ()),
       log_operation (join [space] [c1; c2; tname; pk_value]) true
         (with_file s tname (clear_slot f (compute_record_size (fields e)) k i))).
Proof.
  intros Hst Hbytes Hfirst.
  pose proof (first_match_found s tname e f n pk_value k i Hst Hfirst) as Hfind.
  destruct Hfirst as (Hlive & _).
  split; [done|]. split.
  - by eapply handle_search_record_found.
  - eapply handle_delete_record_found; [done|by apply count_of_byte|done|done].
Qed.

(** ** One record more, one record less *)

(** A successful insert into a stored type with consistent headers puts
    the packed values into one slot that was not live.  The live records
    afterwards are that slot and the records that were live before, whose
    bytes are unchanged.  The file has the same pages or one page more,
    and no more than [MAX_PAGES] if it had no more before. *)
Theorem insert_adds_one_record s tname e f n c1 c2 values s1 :
  type_stored s tname e f n →
  headers_consistent f (compute_record_size (fields e)) n →
  handle_create_record (c1 :: c2 :: tname :: values) s = (Ok (Success ()), s1) →
  ∃ rec f1 n1 k i,
    pack_record (fields e) values = Ok rec
    ∧ type_stored s1 tname e f1 n1
    ∧ ¬ live f (compute_record_size (fields e)) k i
    ∧ record_of f1 (compute_record_size (fields e)) k i = rec
    ∧ (∀ k' j, live f1 (compute_record_size (fields e)) k' j
               ↔ (k', j) = (k, i) ∨ live f (compute_record_size (fields e)) k' j)
    ∧ (∀ k' j, live f (compute_record_size (fields e)) k' j →
               record_of f1 (compute_record_size (fields e)) k' j
               = record_of f (compute_record_size (fields e)) k' j)
    ∧ (n1 = n ∨ n1 = n + 1)
    ∧ (n ≤ MAX_PAGES → n1 ≤ MAX_PAGES).
Proof.
  intros Hst Hcons Hrun.
  destruct (handle_create_record_success_inv s tname e f n c1 c2 values s1
              Hst Hcons Hrun)
    as (pk_value & rec & f1 & Hlen & Hpkv & Hfind & Hpack & Hrec & Hout & ->).
  pose proof Hst as (_ & Hw & _ & _ & Hpages).
  pose proof (compute_record_size_pos (fields e) Hw) as Hrs.
  destruct (insert_outcome_post _ f n rec _ f1 Hrs Hpages Hcons Hrec Hout)
    as (n1 & Hpages1 & _ & [(? & _)|(_ & k0 & i0 & _ & _ & _ & _ & _ & _ & Hwhere)]);
    [done|].
  destruct (insert_outcome_live _ f n rec f1 Hrs Hpages Hcons Hrec Hout)
    as (k & i & Hnl & Hr & Hiff & Hframe & _).
  exists rec, f1, n1, k, i.
  split; [done|]. split; [by eapply type_stored_with_file|].
  split; [done|]. split; [done|]. split; [done|]. split; [done|].
  destruct Hwhere as [(-> & _)|(-> & ? & _)]; (split; [lia|]); lia.
Qed.

(** A successful delete from a stored type with consistent headers
    clears the first live record, in file order, that decodes to the
    key.  The live records afterwards are the other records that were
    live before, whose bytes are unchanged; the file keeps its length,
    and the cleared slot keeps its field bytes behind a validity byte of
    zero. *)
Theorem delete_removes_one_record s tname e f n c1 c2 pk_value s1 :
  type_stored s tname e f n →
  headers_consistent f (compute_record_size (fields e)) n →
  handle_delete_record [c1; c2; tname; pk_value] s = (Ok (Success ()), s1) →
  ∃ k i f1,
    first_match f (fields e) (pk_index e - 1) pk_value k i
    ∧ f1 = clear_slot f (compute_record_size (fields e)) k i
    ∧ type_stored s1 tname e f1 n
    ∧ len f1 = len f
    ∧ (∀ k' j, live f1 (compute_record_size (fields e)) k' j
               ↔ live f (compute_record_size (fields e)) k' j ∧ (k', j) ≠ (k, i))
    ∧ (∀ k' j, live f1 (compute_record_size (fields e)) k' j →
               record_of f1 (compute_record_size (fields e)) k' j
               = record_of f (compute_record_size (fields e)) k' j)
    ∧ record_of f1 (compute_record_size (fields e)) k i
      = 0 :: drop 1 (record_of f (compute_record_size (fields e)) k i).
Proof.
  intros Hst Hcons Hrun.
  pose proof Hst as ((catalog & Hcat & Ht) & Hw & Hpk & Hf & Hpages).
  pose proof (compute_record_size_pos (fields e) Hw) as Hrs.
  destruct (find_record_page_slot tname pk_value s) as [[[off i]|]|x] eqn:Hfind.
  2, 3: unfold handle_delete_record in Hrun; by rewrite Hcat, Ht, Hfind in Hrun.
  destruct (find_record_page_slot_first s tname e f n pk_value off i Hst Hfind)
    as (k & -> & Hfirst).
  pose proof Hfirst as (Hlive & _).
  pose proof (live_not_past_end f _ n k i Hrs Hpages Hlive) as Hk.
  pose proof (headers_count_bounds f _ n k Hrs Hpages Hcons Hk) as Hcb.
  rewrite (handle_delete_record_found s tname e f n c1 c2 pk_value k i Hst
             ltac:(lia) Hfind Hlive) in Hrun.
  injection Hrun as <-.
  destruct (clear_slot_post _ Hrs f n Hpages Hcons k i Hlive)
    as (Hpages1 & _ & _ & _ & _ & _ & _ & Hframe).
  exists k, i, (clear_slot f (compute_record_size (fields e)) k i).
  split; [done|]. split; [done|].
  split; [by eapply type_stored_with_file|].
  split; [destruct Hpages as [_ ->], Hpages1 as [_ ->]; done|].
  split.
  { intros k' j. split.
    - intros Hl. by destruct (Hframe k' j Hl) as (? & ? & _).
    - intros [Hl Hne]. by apply (clear_slot_live _ Hrs f n Hpages Hcons). }
  split; [intros k' j Hl; by destruct (Hframe k' j Hl) as (_ & _ & ?)|].
  destruct Hlive as (_ & _ & Hi & _).
  by apply (clear_slot_fields _ Hrs f n Hpages).
Qed.

(** ** An inserted record is found *)

(** After a successful insert of values that the codec accepts, whose
    key text is stored as it is written, a search for the key returns
    the values that went in: integers re-rendered, texts cut to their
    fields. *)
Theorem insert_then_search s tname e f n c1 c2 d1 d2 values key s1 :
  type_stored s tname e f n →
  headers_consistent f (compute_record_size (fields e)) n →
  Forall2 value_ok (fields e) values →
  py_index values (pk_index e - 1) = Ok key →
  py_index (roundtrip_values (fields e) values) (pk_index e - 1) = Ok key →
  handle_create_record (c1 :: c2 :: tname :: values) s = (Ok (Success ()), s1) →
  handle_search_record [d1; d2; tname; key] s1
  = (Ok (Success (roundtrip_values (fields e) values)),
     log_operation (join [space] [d1; d2; tname; key]) true s1).
Proof.
  intros Hst Hcons Hvalues Hkey Hstored Hrun.
  destruct (handle_create_record_success_inv s tname e f n c1 c2 values s1
              Hst Hcons Hrun)
    as (pk_value & rec & f1 & Hlen & Hpkv & Hfind & Hpack & Hrec & Hout & ->).
  rewrite Hkey in Hpkv. injection Hpkv as <-.
  pose proof Hst as (_ & Hw & _ & _ & Hpages).
  pose proof (compute_record_size_pos (fields e) Hw) as Hrs.
  destruct (unpack_pack_fields (fields e) values Hw Hvalues)
    as (packed & Hp & _ & Hun).
  unfold pack_record in Hpack. rewrite Hp in Hpack. injection Hpack as <-.
  specialize (Hun [1]). change (len [1]) with 1 in Hun.
  destruct (insert_outcome_post _ f n _ _ f1 Hrs Hpages Hcons Hrec Hout)
    as (n1 & Hpages1 & _).
  destruct (insert_outcome_live _ f n _ f1 Hrs Hpages Hcons Hrec Hout)
    as (k & i & Hnl & Hr & Hiff & Hframe & _).
  set (s1 := log_operation _ true _).
  assert (type_stored s1 tname e f1 n1) as Hst1 by (by eapply type_stored_with_file).
  assert (live f1 (compute_record_size (fields e)) k i) as Hlive
    by (apply Hiff; by left).
  assert (first_match f1 (fields e) (pk_index e - 1) key k i) as Hfirst.
  { split; [done|]. split.
    - unfold key_of, unpack_record. rewrite Hr. cbn [app] in Hun. by rewrite Hun.
    - intros k' j Hl Hbefore.
      apply Hiff in Hl as [[= -> ->]|Hold]; [unfold before in Hbefore; lia|].
      rewrite (key_of_record f f1 _ _ k' j k' j (Hframe k' j Hold)).
      by eapply not_found_no_live. }
  rewrite (handle_search_record_found s1 tname e f1 n1 d1 d2 key k i Hst1
             (first_match_found s1 tname e f1 n1 key k i Hst1 Hfirst) Hlive).
  unfold unpack_record. rewrite Hr. cbn [app] in Hun. by rewrite Hun.
Qed.

(** *** At the sample states *)

Lemma type_stored_T7_twin : type_stored fs_T7_twin (str "T") schema_T file_T7_twin 1.
Proof.
  split; [exists (<[str "T" := schema_T]> ∅); split; vm_compute; reflexivity|].
  split; [repeat constructor; simpl; lia|].
  split; [vm_compute; split; discriminate|].
  split; [vm_compute; reflexivity|]. split; [lia|vm_compute; reflexivity].
Qed.

Lemma search_and_delete_take_first_match_witness :
  handle_search_record [str "search"; str "record"; str "T"; str "7"] fs_T7_twin
  = (Ok (Success (unpack_record (fields schema_T)
                    (record_of file_T7_twin
                       (compute_record_size (fields schema_T)) 0 0))),
     log_operation (join [space] [str "search"; str "record"; str "T"; str "7"])
       true fs_T7_twin)
  ∧ handle_delete_record [str "delete"; str "record"; str "T"; str "7"] fs_T7_twin
    = (Ok (Success ()),
       log_operation (join [space] [str "delete"; str "record"; str "T"; str "7"])
         true
         (with_file fs_T7_twin (str "T")
            (clear_slot file_T7_twin (compute_record_size (fields schema_T)) 0 0))).
Proof.
  assert (first_match file_T7_twin (fields schema_T) (pk_index schema_T - 1)
            (str "7") 0 0) as Hfirst.
  { split; [|split].
    - assert (len file_T7_twin = 61) as Hlen by (vm_compute; reflexivity).
      assert (page_size_of (compute_record_size (fields schema_T)) = 61) as Hps
        by (vm_compute; reflexivity).
      unfold live. rewrite Hlen, Hps. unfold NUM_SLOTS.
      split; [lia|]. split; [lia|]. split; [lia|].
      split; vm_compute; [discriminate|reflexivity].
    - vm_compute. reflexivity.
    - intros k' j (Hk' & _ & Hj & _) Hbefore. unfold before in Hbefore. lia. }
  assert (Forall byte_value file_T7_twin) as Hbytes.
  { unfold byte_value. apply (bool_decide_unpack _). vm_compute. reflexivity. }
  split.
  - apply (search_and_delete_take_first_match fs_T7_twin (str "T") schema_T
             file_T7_twin 1 (str "7") 0 0 (str "search") (str "record")
             type_stored_T7_twin Hbytes Hfirst).
  - apply (search_and_delete_take_first_match fs_T7_twin (str "T") schema_T
             file_T7_twin 1 (str "7") 0 0 (str "delete") (str "record")
             type_stored_T7_twin Hbytes Hfirst).
Defined.

Lemma insert_adds_one_record_witness :
  ∃ rec f1 n1,
    pack_record (fields schema_T) [str "8"] = Ok rec
    ∧ type_stored
        (handle_create_record [str "create"; str "record"; str "T"; str "8"] fs_T7).2
        (str "T") schema_T f1 n1
    ∧ (n1 = 1 ∨ n1 = 1 + 1).
Proof.
  destruct (insert_adds_one_record fs_T7 (str "T") schema_T file_T7 1
              (str "create") (str "record") [str "8"]
              (handle_create_record
                 [str "create"; str "record"; str "T"; str "8"] fs_T7).2
              type_stored_T7 headers_consistent_T7)
    as (rec & f1 & n1 & k & i & Hpack & Hst & _ & _ & _ & _ & Hn & _).
  - vm_compute. reflexivity.
  - exists rec, f1, n1. split; [exact Hpack|]. split; [exact Hst|exact Hn].
Defined.

Lemma delete_removes_one_record_witness :
  ∃ k i f1,
    first_match file_T7 (fields schema_T) (pk_index schema_T - 1) (str "7") k i
    ∧ type_stored fs_T7_deleted (str "T") schema_T f1 1
    ∧ len f1 = len file_T7.
Proof.
  destruct (delete_removes_one_record fs_T7 (str "T") schema_T file_T7 1
              (str "delete") (str "record") (str "7") fs_T7_deleted
              type_stored_T7 headers_consistent_T7)
    as (k & i & f1 & Hfirst & _ & Hst & Hlen & _).
  - vm_compute. reflexivity.
  - exists k, i, f1. split; [exact Hfirst|]. split; [exact Hst|exact Hlen].
Defined.

Lemma insert_then_search_witness :
  handle_search_record [str "search"; str "record"; str "T"; str "7"] fs_T7
  = (Ok (Success (roundtrip_values (fields schema_T) [str "7"])),
     log_operation (join [space] [str "search"; str "record"; str "T"; str "7"])
       true fs_T7).
Proof.
  apply (insert_then_search fs_T (str "T") schema_T [] 0
           (str "create") (str "record") (str "search") (str "record")
           [str "7"] (str "7") fs_T7 type_stored_T).
  - intros k Hk. lia.
  - constructor; [|constructor]. exists 7. split; [reflexivity|lia].
  - reflexivity.
  - reflexivity.
  - vm_compute. reflexivity.
Defined.

(** * Further properties of the codec *)

(** ** Four-byte integers *)

(** [int_to_bytes] and [bytes_to_int] are inverse bijections between the
    integers of four signed bytes and the byte strings of length four;
    any other integer makes [int_to_bytes] raise [OverflowError]. *)
Theorem int_bytes_bijection :
  (∀ x, -2147483648 ≤ x < 2147483648 →
     ∃ b, int_to_bytes x = Ok b ∧ len b = 4 ∧ Forall byte_value b
          ∧ bytes_to_int b = x)
  ∧ (∀ b, len b = 4 → Forall byte_value b →
       -2147483648 ≤ bytes_to_int b < 2147483648
       ∧ int_to_bytes (bytes_to_int b) = Ok b)
  ∧ (∀ x, x < -2147483648 ∨ 2147483648 ≤ x →
       int_to_bytes x = Raise OverflowError).
Proof.
  split; [|split].
  - intros x Hx. unfold int_to_bytes.
    assert ((-2147483648 <=? x) && (x <? 2147483648) = true) as Hr by lia.
    rewrite Hr. eexists. split; [done|]. split; [done|]. split.
    + cbn [be_bytes app]. unfold byte_value.
      repeat constructor; dlia.
    + apply bytes_to_int_to_bytes. unfold int_to_bytes. by rewrite Hr.
  - intros b Hlen Hb.
    destruct (bytes_to_int_four b Hlen Hb) as [Hrange Hmod]. split; [done|].
    unfold int_to_bytes.
    assert ((-2147483648 <=? bytes_to_int b) && (bytes_to_int b <? 2147483648)
            = true) as -> by lia.
    rewrite Hmod. f_equal. unfold len in Hlen.
    destruct b as [|b0 [|b1 [|b2 [|b3 [|]]]]]; simpl in Hlen; try lia.
    repeat match goal with H : Forall _ (_ :: _) |- _ => inversion_clear H end.
    unfold byte_value, be_value in *. cbn [be_bytes app fold_left].
    repeat f_equal; dlia.
  - apply int_to_bytes_overflow.
Qed.

(** ** Texts cut to their field *)

Lemma rstrip_by_app p (x y : list Z) :
  rstrip_by p (x ++ y)
  = match rstrip_by p y with
    | [] => rstrip_by p x
    | r => x ++ r
    end.
Proof.
  induction x as [|a x IH]; cbn [app rstrip_by].
  - by destruct (rstrip_by p y).
  - rewrite IH. destruct (rstrip_by p y) as [|z r]; [done|].
    by destruct x.
Qed.

Lemma rstrip_by_prefix p (s : list Z) : rstrip_by p s `prefix_of` s.
Proof.
  induction s as [|c r IH]; cbn [rstrip_by]; [done|].
  destruct (rstrip_by p r) as [|z r'].
  - destruct (p c); [apply prefix_nil|]. apply prefix_cons, prefix_nil.
  - by apply prefix_cons.
Qed.

(** The bytes of a code point cut short decode to nothing. *)
Lemma decode_partial c bc (m : nat) :
  scalar_value c → utf8_encode_cp c = Ok bc →
  (0 < m < length bc)%nat →
  decode_ignore (rstrip_zero (take m bc)) = [].
Proof.
  unfold utf8_encode_cp, scalar_value. intros Hc Hbc Hm. revert Hbc.
  repeat case_cmp; intros [= <-]; cbn [length] in Hm;
    (destruct m as [|[|[|[|m]]]]; try lia);
    cbn [take firstn]; unfold rstrip_zero; cbn [rstrip_by];
    repeat case_cmp; unfold decode_ignore; cbn [utf8_decode app];
    unfold is_cont; repeat case_cmp; done.
Qed.

(** Whatever prefix of the encoding of a text is kept, decoding it after
    the trailing zero bytes went gives a prefix of the text. *)
Lemma decode_truncated v :
  Forall scalar_value v → ∀ b (m : nat), utf8_encode v = Ok b →
  decode_ignore (rstrip_zero (take m b)) `prefix_of` v.
Proof.
  induction 1 as [|c v Hc Hv IH]; intros b m Hb; simpl in Hb.
  - injection Hb as <-. rewrite take_nil. apply prefix_nil.
  - destruct (utf8_encode_cp c) as [bc|] eqn:Hbc; [|done].
    destruct (utf8_encode v) as [bv|] eqn:Hbv; [|done].
    injection Hb as <-.
    destruct (decide (m = 0%nat)) as [->|Hm0]; [apply prefix_nil|].
    destruct (decide (m < length bc)%nat) as [Hlt|Hge].
    { rewrite take_app_le by lia.
      rewrite (decode_partial c bc m Hc Hbc) by lia. apply prefix_nil. }
    rewrite take_app_ge by lia. unfold rstrip_zero. rewrite rstrip_by_app.
    specialize (IH bv (m - length bc)%nat eq_refl). unfold rstrip_zero in IH.
    assert (code_point c) as Hcp by (by apply scalar_code_point).
    destruct (rstrip_by _ (take _ bv)) as [|z r].
    + destruct (decide (c = 0)) as [->|Hc0].
      * injection Hbc as <-. apply prefix_nil.
      * rewrite rstrip_by_id.
        -- unfold decode_ignore. rewrite <- (app_nil_r bc).
           rewrite (utf8_decode_encode_cp [] c bc [] Hbc Hcp).
           apply prefix_cons, prefix_nil.
        -- intros x Hx. apply Z.eqb_neq. symmetry.
           apply (utf8_encode_cp_nonzero c bc x Hbc);
             [unfold code_point in Hcp; lia|done|].
           apply list_elem_of_lookup. exists (pred (length bc)).
           by rewrite <- last_lookup.
    + unfold decode_ignore in *.
      rewrite (utf8_decode_encode_cp [] c bc _ Hbc Hcp). by apply prefix_cons.
Qed.

Lemma utf8_encode_Ok_scalar v b :
  utf8_encode v = Ok b → Forall code_point v → Forall scalar_value v.
Proof.
  revert b. induction v as [|c v IH]; intros b Hb Hv; [done|].
  simpl in Hb. inversion_clear Hv as [|?? Hc Hv'].
  destruct (utf8_encode_cp c) as [bc|] eqn:Hbc; [|done].
  destruct (utf8_encode v) as [bv|] eqn:Hbv; [|done].
  constructor; [|by eapply IH].
  unfold utf8_encode_cp, code_point, scalar_value in *. revert Hbc.
  repeat case_cmp; intros; try done; lia.
Qed.

(** The text a field gives back is a prefix of the text that went in. *)
Lemma pack_field_text_prefix ftype flen v chunk :
  ftype ≠ kw_int → 0 ≤ flen → Forall code_point v →
  pack_field ftype flen v = Ok chunk →
  unpack_field ftype chunk `prefix_of` v.
Proof.
  intros Hft Hflen Hv. unfold pack_field, unpack_field.
  rewrite !bool_decide_eq_false_2 by done.
  destruct (utf8_encode v) as [s|] eqn:Hs; [|done]. simpl. intros [= <-].
  pose proof (utf8_encode_Ok_scalar v s Hs Hv) as Hsc.
  unfold rstrip_zero. rewrite rstrip_by_app_replicate by done.
  destruct (Z.ltb_spec flen (len s)).
  - rewrite py_slice_nonneg by lia. rewrite drop_0, Z.sub_0_r.
    by apply (decode_truncated v Hsc s (Z.to_nat flen)).
  - rewrite <- (take_ge s (length s)) by done.
    by apply (decode_truncated v Hsc s (length s)).
Qed.

(** What [unpack_record] returns for field [i] of a packed record. *)
Lemma unpack_pack_fields_lookup fields : ∀ values packed pre i fname ftype flen v,
  Forall field_widths_ok fields → pack_fields fields values = Ok packed →
  fields !! i = Some (fname, ftype, flen) → values !! i = Some v →
  ∃ chunk, pack_field ftype flen v = Ok chunk
           ∧ unpack_fields fields (pre ++ packed) (len pre) !! i
             = Some (unpack_field ftype chunk).
Proof.
  induction fields as [|[[fn ft] fl] fs IH];
    intros values packed pre i fname ftype flen v Hw Hp Hi Hv; [done|].
  destruct values as [|val vs]; [done|]. cbn [pack_fields] in Hp.
  destruct (pack_field ft fl val) as [chunk0|] eqn:Hc0; [|done].
  destruct (pack_fields fs vs) as [rest|] eqn:Hrest; [|done].
  injection Hp as <-. inversion_clear Hw as [|?? Hw0 Hws].
  pose proof (pack_field_length ft fl val chunk0 Hw0 Hc0) as Hl0.
  destruct i as [|i]; cbn [unpack_fields].
  - injection Hi as -> -> ->. injection Hv as ->.
    exists chunk0. split; [done|]. cbn [lookup list_lookup]. do 2 f_equal.
    rewrite <- Hl0. apply py_slice_app_mid.
  - cbn [lookup list_lookup] in Hi, Hv.
    destruct (IH vs rest (pre ++ chunk0) i fname ftype flen v Hws Hrest Hi Hv)
      as (chunk & Hc & Hu).
    exists chunk. split; [done|].
    rewrite <- app_assoc, len_app, Hl0 in Hu. exact Hu.
Qed.

(** A text value that [pack_record] stored comes back from
    [unpack_record] as a prefix of itself: the cut at the field width
    never leaves part of a character, and what comes back fits the
    field. *)
Theorem stored_text_is_prefix fields values r (i : nat) fname ftype flen v :
  Forall field_widths_ok fields →
  pack_record fields values = Ok r →
  fields !! i = Some (fname, ftype, flen) → ftype ≠ kw_int →
  values !! i = Some v → Forall code_point v →
  ∃ w, unpack_record fields r !! i = Some w
       ∧ w `prefix_of` v
       ∧ ∃ b, utf8_encode w = Ok b ∧ len b ≤ flen.
Proof.
  intros Hw Hpack Hi Hft Hv Hcp. unfold pack_record in Hpack.
  destruct (pack_fields fields values) as [packed|] eqn:Hp; [|done].
  injection Hpack as <-.
  destruct (unpack_pack_fields_lookup fields values packed [1] i fname ftype flen v
              Hw Hp Hi Hv) as (chunk & Hc & Hu).
  assert (field_widths_ok (v, ftype, flen)) as Hwi.
  { rewrite Forall_lookup in Hw. apply (Hw _ _ Hi). }
  exists (unpack_field ftype chunk). split; [exact Hu|].
  split; [apply (pack_field_text_prefix ftype flen v chunk Hft (proj2 Hwi) Hcp Hc)|].
  pose proof (pack_field_length ftype flen v chunk Hwi Hc) as Hl.
  unfold unpack_field. rewrite bool_decide_eq_false_2 by done.
  destruct (decode_ignore_reencode (rstrip_zero chunk)) as (b & Hb & Hsub).
  exists b. split; [done|]. apply sublist_len in Hsub.
  pose proof (rstrip_by_length (Z.eqb 0) chunk). unfold rstrip_zero, len in *. lia.
Qed.

Lemma stored_text_is_prefix_witness :
  ∃ w, unpack_record note_fields
         (1 :: 97 :: concat (replicate 9 [195; 169]) ++ [195]) !! 0%nat = Some w
       ∧ w `prefix_of` 97 :: replicate 10 233
       ∧ ∃ b, utf8_encode w = Ok b ∧ len b ≤ 20.
Proof.
  apply (stored_text_is_prefix note_fields [97 :: replicate 10 233]
           (1 :: 97 :: concat (replicate 9 [195; 169]) ++ [195])
           0 (str "s") kw_str 20 (97 :: replicate 10 233)).
  - repeat constructor; simpl; try lia; discriminate.
  - reflexivity.
  - reflexivity.
  - discriminate.
  - reflexivity.
  - unfold code_point. repeat constructor; lia.
Defined.

(** ** When [pack_record] succeeds *)







(** ** The bytes of a packed record *)

Lemma utf8_encode_cp_bytes c b :
  code_point c → utf8_encode_cp c = Ok b → Forall byte_value b.
Proof.
  unfold utf8_encode_cp, code_point, byte_value. intros Hc.
  repeat case_cmp; intros [= <-]; repeat constructor; dlia.
Qed.

Lemma utf8_encode_bytes v : ∀ b,
  Forall code_point v → utf8_encode v = Ok b → Forall byte_value b.
Proof.
  induction v as [|c v IH]; intros b Hv Hb; simpl in Hb.
  - by injection Hb as <-.
  - inversion_clear Hv as [|?? Hc Hv'].
    destruct (utf8_encode_cp c) as [bc|] eqn:Hbc; [|done].
    destruct (utf8_encode v) as [bv|] eqn:Hbv; [|done].
    injection Hb as <-. apply Forall_app. split.
    + by eapply utf8_encode_cp_bytes.
    + by apply IH.
Qed.

Lemma pack_field_bytes ftype flen v chunk :
  0 ≤ flen → Forall code_point v → pack_field ftype flen v = Ok chunk →
  Forall byte_value chunk.
Proof.
  intros Hflen Hv. unfold pack_field, int_of_str. case_bool_decide.
  - destruct (py_int v) as [z|]; [|done]. simpl. unfold int_to_bytes.
    destruct (_ && _) eqn:Hr; [|done]. intros [= <-].
    cbn [be_bytes app]. unfold byte_value. repeat constructor; dlia.
  - destruct (utf8_encode v) as [s|] eqn:Hs; [|done]. simpl. intros [= <-].
    pose proof (utf8_encode_bytes v s Hv Hs) as Hbs.
    apply Forall_app. split.
    + destruct (flen <? len s); [|done].
      rewrite py_slice_nonneg by lia. by apply Forall_take, Forall_drop.
    + apply Forall_replicate. unfold byte_value. lia.
Qed.

(** A record that [pack_record] returns for one value per field is a
    byte string of the record size of the schema, and its first byte,
    the validity byte, is 1. *)
Theorem packed_record_shape fields values r :
  Forall field_widths_ok fields →
  len values = len fields →
  Forall (Forall code_point) values →
  pack_record fields values = Ok r →
  len r = compute_record_size fields
  ∧ r !! 0%nat = Some 1
  ∧ Forall byte_value r.
Proof.
  intros Hw Hlen Hv Hpack.
  split; [by eapply pack_record_length|].
  unfold pack_record in Hpack.
  destruct (pack_fields fields values) as [packed|] eqn:Hp; [|done].
  injection Hpack as <-. split; [done|].
  constructor; [unfold byte_value; lia|].
  clear Hlen. revert values packed Hv Hp.
  induction Hw as [|[[fname ftype] flen] fs [_ Hf] _ IH]; intros [|v vs] packed Hv Hp;
    cbn [pack_fields] in Hp; try (by injection Hp as <-).
  inversion_clear Hv as [|?? Hv0 Hvs].
  destruct (pack_field ftype flen v) as [chunk|] eqn:Hc; [|done].
  destruct (pack_fields fs vs) as [rest|] eqn:Hrest; [|done].
  injection Hp as <-. apply Forall_app. split.
  - by eapply pack_field_bytes.
  - by eapply IH.
Qed.

Lemma packed_record_shape_witness :
  len [1; 0; 0; 0; 8] = compute_record_size (fields schema_T)
  ∧ [1; 0; 0; 0; 8] !! 0%nat = Some 1
  ∧ Forall byte_value [1; 0; 0; 0; 8].
Proof.
  apply (packed_record_shape (fields schema_T) [str "8"] [1; 0; 0; 0; 8]).
  - repeat constructor; simpl; lia.
  - reflexivity.
  - unfold code_point. repeat constructor; simpl; lia.
  - reflexivity.
Defined.

(** * Further properties of the catalog *)

(** ** [int()] of [str()] *)

Lemma digits_from_codes u : ∀ acc,
  digits_from acc false (uint_codes u) = Some (digits_value acc u, []).
Proof. induction u; intros acc; cbn [uint_codes digits_from digits_value]; try done;
  rewrite <- IHu; done. Qed.

Lemma digits_value_acc d : ∀ acc,
  Zpos (Pos.of_uint_acc d acc) = digits_value (Zpos acc) d.
Proof.
  induction d; intros acc; cbn [Pos.of_uint_acc digits_value]; try done;
    rewrite IHd; f_equal; lia.
Qed.

Lemma digits_value_of_uint d : Z.of_N (Pos.of_uint d) = digits_value 0 d.
Proof.
  induction d; cbn [Pos.of_uint digits_value]; try done;
    cbn [Z.of_N]; rewrite digits_value_acc; done.
Qed.

Lemma py_int_codes u :
  u ≠ Decimal.Nil → py_int (uint_codes u) = Some (digits_value 0 u).
Proof.
  intros Hu. destruct u; try done; unfold py_int;
    cbn [uint_codes lstrip_by is_int_space is_space]; simpl;
    rewrite digits_from_codes; done.
Qed.

Lemma py_int_neg_codes u :
  u ≠ Decimal.Nil → py_int (45 :: uint_codes u) = Some (- digits_value 0 u).
Proof.
  intros Hu. destruct u; try done; unfold py_int;
    cbn [uint_codes lstrip_by is_int_space is_space]; simpl;
    rewrite digits_from_codes; done.
Qed.

Lemma pos_to_uint_value p :
  Pos.to_uint p ≠ Decimal.Nil ∧ digits_value 0 (Pos.to_uint p) = Zpos p.
Proof.
  pose proof (DecimalPos.Unsigned.of_to p) as Hp. split.
  - intros Hnil. rewrite Hnil in Hp. done.
  - rewrite <- digits_value_of_uint, Hp. done.
Qed.

(** [int(str(z))] is [z]. *)
Lemma py_int_str_of_int z : py_int (str_of_int z) = Some z.
Proof.
  unfold str_of_int. destruct z as [|p|p]; cbn [Z.to_int].
  - reflexivity.
  - destruct (pos_to_uint_value p) as [Hne Hv]. by rewrite py_int_codes, Hv.
  - destruct (pos_to_uint_value p) as [Hne Hv]. by rewrite py_int_neg_codes, Hv.
Qed.

Lemma str_of_int_chars z :
  str_of_int z ≠ []
  ∧ Forall (λ c, is_digit c = true ∨ c = 45) (str_of_int z)
  ∧ ∀ c, last (str_of_int z) = Some c → is_digit c = true.
Proof.
  assert (∀ u, Forall (λ c, is_digit c = true) (uint_codes u)) as Hd.
  { induction u; cbn [uint_codes]; constructor; done. }
  assert (∀ u, u ≠ Decimal.Nil → uint_codes u ≠ []) as Hne.
  { intros u Hu. by destruct u. }
  assert (∀ (l : list Z) c, Forall (λ c, is_digit c = true) l → last l = Some c →
            is_digit c = true) as Hlast.
  { intros l c Hl Hc. rewrite Forall_forall in Hl. apply Hl.
    rewrite last_lookup in Hc. by eapply list_elem_of_lookup_2. }
  assert (∀ u, u ≠ Decimal.Nil →
            uint_codes u ≠ [] ∧ Forall (λ c, is_digit c = true ∨ c = 45) (uint_codes u)
            ∧ (∀ c, last (uint_codes u) = Some c → is_digit c = true)
            ∧ (∀ c, last (45 :: uint_codes u) = Some c → is_digit c = true)) as Hu.
  { intros u Hu. split; [by apply Hne|]. split.
    - eapply Forall_impl; [apply Hd|]. by left.
    - split; [intros c; apply Hlast, Hd|].
      intros c Hc. apply (Hlast (uint_codes u)); [apply Hd|].
      specialize (Hne u Hu). destruct (uint_codes u); [done|]. exact Hc. }
  unfold str_of_int. destruct z as [|p|p]; cbn [Z.to_int].
  - split; [done|]. split; [repeat constructor; by left|]. by intros c [= <-].
  - destruct (pos_to_uint_value p) as [Hp _].
    destruct (Hu _ Hp) as (? & ? & ? & _). done.
  - destruct (pos_to_uint_value p) as [Hp _].
    destruct (Hu _ Hp) as (? & ? & _ & ?).
    split; [done|]. split; [|done]. constructor; [by right|done].
Qed.

(** ** Splitting what was joined *)

Lemma split_when_nonempty p s : split_when p s ≠ [].
Proof.
  destruct s as [|c r]; cbn [split_when]; [done|].
  destruct (p c); [done|]. by destruct (split_when p r).
Qed.

Lemma split_when_none p s :
  Forall (λ c, p c = false) s → split_when p s = [s].
Proof.
  induction 1 as [|c r Hc _ IH]; cbn [split_when]; [done|]. by rewrite Hc, IH.
Qed.

Lemma split_when_app p x c y :
  p c = true → split_when p (x ++ c :: y) = split_when p x ++ split_when p y.
Proof.
  intros Hc. induction x as [|a x IH]; cbn [app split_when].
  - by rewrite Hc.
  - rewrite IH. destruct (p a); [done|].
    pose proof (split_when_nonempty p x). by destruct (split_when p x).
Qed.

Lemma split_join sep parts :
  parts ≠ [] → Forall (Forall (λ c, c ≠ sep)) parts →
  split_on sep (join [sep] parts) = parts.
Proof.
  assert (∀ part, Forall (λ c, c ≠ sep) part →
            Forall (λ c, (sep =? c) = false) part) as Hpart.
  { intros part Hp. eapply Forall_impl; [exact Hp|]. intros c Hc. apply Z.eqb_neq. by intros ->. }
  unfold split_on. intros Hne Hparts.
  induction Hparts as [|part [|q ps] Hp Hps IH]; [done| |].
  - cbn [join]. rewrite split_when_none by (by apply Hpart). done.
  - change (join [sep] (part :: q :: ps)) with (part ++ sep :: join [sep] (q :: ps)).
    rewrite split_when_app by lia. rewrite IH by done.
    rewrite split_when_none by (by apply Hpart). done.
Qed.

Lemma strip_id s :
  (∀ c, head s = Some c → is_space c = false) →
  (∀ c, last s = Some c → is_space c = false) →
  strip s = s.
Proof.
  intros Hhead Hlast. unfold strip.
  assert (lstrip_by is_space s = s) as ->.
  { destruct s as [|c r]; [done|]. cbn [lstrip_by]. by rewrite Hhead. }
  by apply rstrip_by_id.
Qed.

(** ** Reading the catalog in pieces *)

Lemma read_catalog_lines_app l1 : ∀ catalog l2,
  read_catalog_lines catalog (l1 ++ l2)
  = (catalog' ← read_catalog_lines catalog l1; read_catalog_lines catalog' l2).
Proof.
  induction l1 as [|line l1 IH]; intros catalog l2; cbn [app read_catalog_lines]; [done|].
  destruct (read_catalog_line catalog line) as [c'|e]; [|done].
  rewrite !bind_Ok. apply IH.
Qed.

Lemma file_lines_app x y : file_lines (x ++ 10 :: y) = file_lines x ++ file_lines y.
Proof. unfold file_lines. by apply split_when_app. Qed.

(** A catalog text that ends its lines reads as its lines without the
    empty one that follows the last line feed. *)
Lemma read_catalog_ends_lines text :
  ends_lines text →
  ∃ lines, (∀ tail, file_lines (text ++ tail) = lines ++ file_lines tail)
           ∧ read_catalog_lines ∅ (file_lines text) = read_catalog_lines ∅ lines.
Proof.
  intros [->|[t ->]].
  - exists []. split; [done|]. reflexivity.
  - exists (file_lines t). split.
    + intros tail. rewrite <- app_assoc. cbn [app]. apply file_lines_app.
    + rewrite file_lines_app, read_catalog_lines_app.
      destruct (read_catalog_lines ∅ (file_lines t)); done.
Qed.

(** ** A written entry reads back *)

Lemma join_last (sep : list Z) parts p :
  last parts = Some p → p ≠ [] → last (join sep parts) = last p.
Proof.
  induction parts as [|a [|b ps] IH]; intros Hl Hp; [done| |].
  - by injection Hl as ->.
  - change (join sep (a :: b :: ps)) with (a ++ sep ++ join sep (b :: ps)).
    rewrite !last_app. rewrite IH by done.
    destruct (last p) eqn:Hlast; [done|]. by apply last_None in Hlast.
Qed.

Lemma join_Forall (P : Z → Prop) sep parts :
  Forall P sep → Forall (Forall P) parts → Forall P (join sep parts).
Proof.
  intros Hsep. induction 1 as [|a [|b ps] Ha Hps IH]; [done|done|].
  change (join sep (a :: b :: ps)) with (a ++ sep ++ join sep (b :: ps)).
  rewrite !Forall_app. done.
Qed.

Lemma str_of_int_plain z : plain_name (str_of_int z).
Proof.
  destruct (str_of_int_chars z) as (_ & Hc & _).
  eapply Forall_impl; [exact Hc|]. intros c Hd. cbv beta in Hd.
  unfold is_digit, is_newline, bar, comma in *. lia.
Qed.

Lemma format_field_reads f :
  plain_field f →
  well_formed_field (format_field f) f
  ∧ Forall (λ c, c ≠ bar ∧ is_newline c = false) (format_field f)
  ∧ format_field f ≠ []
  ∧ (∀ c, last (format_field f) = Some c → is_space c = false).
Proof.
  destruct f as [[fname ftype] flen]. intros [Hn Ht]. cbn [fst snd] in *.
  pose proof (str_of_int_plain flen) as Hd.
  destruct (str_of_int_chars flen) as (Hne & _ & Hlast).
  change (format_field (fname, ftype, flen))
    with (join [comma] [fname; ftype; str_of_int flen]).
  split; [|split; [|split]].
  - exists (str_of_int flen). cbn [fst snd]. split; [|apply py_int_str_of_int].
    apply split_join; [done|].
    repeat constructor; (eapply Forall_impl; [eassumption|]); by intros c (_ & ? & _).
  - apply join_Forall; [by repeat constructor|].
    repeat constructor; (eapply Forall_impl; [eassumption|]); by intros c (? & _ & ?).
  - cbn [join]. intros Heq. apply app_eq_nil in Heq as [_ Heq]. done.
  - intros c. rewrite (join_last [comma] _ (str_of_int flen)) by done.
    intros Hc%Hlast. unfold is_digit, is_space in *. lia.
Qed.

(** The line that [write_catalog_entry] writes for plain names reads
    back as the entry, and holds no line break. *)
Lemma catalog_line_reads tname nf pk fields_list :
  plain_type_name tname → Forall plain_field fields_list → len fields_list = nf →
  let entry := join [bar] ([tname; str_of_int nf; str_of_int pk]
                           ++ (format_field <$> fields_list)) in
  (∀ catalog, read_catalog_line catalog entry
              = Ok (<[tname := Schema nf pk fields_list]> catalog))
  ∧ Forall (λ c, is_newline c = false) entry.
Proof.
  intros [Hname Hhead] Hfields Hlen entry.
  assert (Forall (Forall (λ c, c ≠ bar ∧ is_newline c = false))
            ([tname; str_of_int nf; str_of_int pk] ++ (format_field <$> fields_list)))
    as Hparts.
  { assert (∀ l, plain_name l → Forall (λ c, c ≠ bar ∧ is_newline c = false) l)
      as Hplain.
    { intros l Hl. eapply Forall_impl; [exact Hl|]. by intros c (? & _ & ?). }
    apply Forall_app. split.
    - constructor; [by apply Hplain|].
      constructor; [apply Hplain, str_of_int_plain|].
      constructor; [apply Hplain, str_of_int_plain|]. constructor.
    - apply Forall_fmap. eapply Forall_impl; [exact Hfields|].
      intros f Hf. by destruct (format_field_reads f Hf) as (_ & ? & _). }
  assert (strip entry = entry) as Hstrip.
  { apply strip_id.
    - intros c. subst entry.
      change (join [bar] ([tname; str_of_int nf; str_of_int pk] ++ _))
        with (tname ++ bar :: join [bar] ([str_of_int nf; str_of_int pk]
                                          ++ (format_field <$> fields_list))).
      rewrite head_app. destruct tname as [|c0 r]; cbn [head].
      + by intros [= <-].
      + intros [= <-]. by apply Hhead.
    - intros c. subst entry.
      destruct (str_of_int_chars pk) as (Hne & _ & Hlast).
      destruct fields_list as [|f0 fl _] using rev_ind.
      + rewrite (join_last [bar] _ (str_of_int pk)) by done.
        intros Hc%Hlast. unfold is_digit, is_space in *. lia.
      + apply Forall_app in Hfields as [_ Hf0]. inversion_clear Hf0 as [|?? Hf0' _].
        destruct (format_field_reads f0 Hf0') as (_ & _ & Hne0 & Hlast0).
        rewrite (join_last [bar] _ (format_field f0)); [apply Hlast0| |done].
        rewrite fmap_app. cbn [fmap list_fmap].
        rewrite app_assoc. apply last_snoc. }
  split.
  - intros catalog.
    assert (well_formed_line entry tname (Schema nf pk fields_list)) as Hwf.
    { exists (str_of_int nf), (str_of_int pk), (format_field <$> fields_list).
      rewrite Hstrip. cbn [num_fields pk_index fields].
      split; [|split; [apply py_int_str_of_int|split; [apply py_int_str_of_int|split]]].
      - apply (split_join bar); [done|].
        eapply Forall_impl; [exact Hparts|]. intros part Hp.
        eapply Forall_impl; [exact Hp|]. by intros c [? _].
      - apply Forall2_fmap_l, Forall_Forall2_diag.
        eapply Forall_impl; [exact Hfields|].
        intros f Hf. by destruct (format_field_reads f Hf) as (? & _).
      - done. }
    destruct (read_catalog_line_spec catalog entry) as [(t & e & Hwf' & ->)|[Hno _]].
    + by destruct (well_formed_line_fun entry t e _ _ Hwf' Hwf) as [-> ->].
    + by destruct (Hno _ _ Hwf).
  - apply join_Forall; [by repeat constructor|].
    eapply Forall_impl; [exact Hparts|]. intros part Hp.
    eapply Forall_impl; [exact Hp|]. by intros c [_ ?].
Qed.

Lemma catalog_entry_write_read s tname nf pk fields_list catalog :
  read_catalog s = Ok catalog →
  ends_lines (catalog_meta s) →
  plain_type_name tname → Forall plain_field fields_list →
  len fields_list = nf →
  read_catalog (write_catalog_entry tname nf pk fields_list s)
  = Ok (<[tname := Schema nf pk fields_list]> catalog)
  ∧ ends_lines (catalog_meta (write_catalog_entry tname nf pk fields_list s)).
Proof.
  intros Hcat Hends Hname Hfields Hlen.
  destruct (catalog_line_reads tname nf pk fields_list Hname Hfields Hlen)
    as [Hline Hnl].
  destruct (read_catalog_ends_lines _ Hends) as (lines & Hlines & Hread).
  unfold read_catalog in *. rewrite Hread in Hcat.
  unfold write_catalog_entry. cbn [catalog_meta]. split.
  - rewrite Hlines, file_lines_app.
    unfold file_lines at 1. rewrite split_when_none by done.
    rewrite read_catalog_lines_app, Hcat, bind_Ok.
    cbn [app read_catalog_lines]. rewrite Hline, bind_Ok. reflexivity.
  - right. eexists. by rewrite app_assoc.
Qed.

(** After [write_catalog_entry] wrote an entry of plain names onto a
    catalog text that ends its lines, [read_catalog] returns what it
    returned before with the entry put at the type name; the catalog
    text ends its lines again. *)
Theorem catalog_entry_round_trip s tname nf pk fields_list catalog :
  read_catalog s = Ok catalog →
  ends_lines (catalog_meta s) →
  plain_type_name tname → Forall plain_field fields_list →
  len fields_list = nf →
  ∃ catalog',
    read_catalog (write_catalog_entry tname nf pk fields_list s) = Ok catalog'
    ∧ catalog' !! tname = Some (Schema nf pk fields_list)
    ∧ (∀ t, t ≠ tname → catalog' !! t = catalog !! t)
    ∧ ends_lines (catalog_meta (write_catalog_entry tname nf pk fields_list s)).
Proof.
  intros Hcat Hends Hname Hfields Hlen.
  destruct (catalog_entry_write_read s tname nf pk fields_list catalog
              Hcat Hends Hname Hfields Hlen) as [Hread Hends'].
  exists (<[tname := Schema nf pk fields_list]> catalog).
  split; [exact Hread|]. split; [apply lookup_insert_eq|].
  split; [|exact Hends']. intros t Ht. by apply lookup_insert_ne.
Qed.


(** ** A created type is in the catalog *)

Lemma py_index_elem_of {A} (l : list A) i x : py_index l i = Ok x → x ∈ l.
Proof.
  unfold py_index. destruct (i <? 0); cbv zeta;
    repeat case_match; try done; intros [= <-]; by eapply list_elem_of_lookup_2.
Qed.

(** What the loop of step 7 of [handle_create_type] accepts. *)
Lemma validate_fields_inv field_tokens idxs : ∀ fields_list,
  validate_fields field_tokens idxs = Ok (inr fields_list) →
  length fields_list = length idxs
  ∧ Forall (λ f, f.1.1 ∈ field_tokens ∧ len f.1.1 ≤ 20
                 ∧ (f.1.2 = kw_int ∧ f.2 = 4 ∨ f.1.2 = kw_str ∧ f.2 = 20))
      fields_list.
Proof.
  induction idxs as [|i idxs IH]; intros fields_list; cbn [validate_fields].
  { by intros [= <-]. }
  destruct (py_index field_tokens (2 * i)) as [fname|] eqn:Hn; [|done].
  destruct (py_index field_tokens (2 * i + 1)) as [ftype|] eqn:Ht; [|done].
  rewrite !bind_Ok. destruct (20 <? len fname) eqn:Hlen; [done|].
  destruct (negb _) eqn:Hkind; [done|].
  destruct (validate_fields field_tokens idxs) as [[e|fl]|] eqn:Hrest; [done| |done].
  rewrite bind_Ok. intros [= <-]. destruct (IH fl eq_refl) as [Hl Hf].
  split; [simpl; by rewrite Hl|]. constructor; [|done]. cbn [fst snd].
  split; [by eapply py_index_elem_of|]. split; [lia|].
  destruct (decide (ftype = kw_int)) as [->|Hi]; [by left|]. right.
  rewrite (bool_decide_eq_false_2 _ Hi) in Hkind |- *.
  destruct (decide (ftype = kw_str)) as [->|Hs]; [done|].
  by rewrite (bool_decide_eq_false_2 _ Hs) in Hkind.
Qed.

(** After a successful [handle_create_type] with plain names on a
    catalog text that ends its lines, the type is stored: the catalog
    that [read_catalog] returns is the one before with the new entry,
    whose fields have width 4 for [int] and 20 for [str], and the data
    file of the type is empty. *)
Theorem created_type_is_stored c1 c2 tname nf_str pk_str field_tokens s s' catalog :
  handle_create_type (c1 :: c2 :: tname :: nf_str :: pk_str :: field_tokens) s
  = (Ok (Success ()), s') →
  read_catalog s = Ok catalog →
  ends_lines (catalog_meta s) →
  plain_type_name tname → Forall plain_name field_tokens →
  ∃ e, catalog !! tname = None
       ∧ read_catalog s' = Ok (<[tname := e]> catalog)
       ∧ type_stored s' tname e [] 0
       ∧ py_int nf_str = Some (num_fields e)
       ∧ py_int pk_str = Some (pk_index e)
       ∧ Forall (λ f, f.1.2 = kw_int ∧ f.2 = 4 ∨ f.1.2 = kw_str ∧ f.2 = 20) (fields e)
       ∧ ends_lines (catalog_meta s').
Proof.
  intros Hrun Hcat Hends Hname Htokens. revert Hrun. unfold handle_create_type.
  destruct (len _ <? 6); [done|].
  unfold int_of_str.
  destruct (py_int nf_str) as [nf|] eqn:Hnf; [|done].
  destruct (py_int pk_str) as [pk|] eqn:Hpk; [|done].
  rewrite !bind_Ok.
  destruct ((nf <? 1) || (6 <? nf)) eqn:Hr1; [done|].
  destruct ((pk <? 1) || (nf <? pk)) eqn:Hr2; [done|].
  destruct (12 <? len tname); [done|].
  case_bool_decide as Hcount; [done|].
  rewrite Hcat. case_bool_decide as Hdup; [done|].
  destruct (validate_fields field_tokens (seqZ 0 nf)) as [[e|fields_list]|] eqn:Hv;
    [done| |done].
  intros [= <-].
  destruct (validate_fields_inv _ _ _ Hv) as [Hl Hf].
  rewrite length_seqZ in Hl.
  assert (len fields_list = nf) as Hlen by (unfold len; lia).
  assert (Forall plain_field fields_list) as Hplain.
  { eapply Forall_impl; [exact Hf|]. intros [[fname ftype] flen] (Hin & _ & Hk).
    cbn [fst snd] in *. split; cbn [fst snd].
    - rewrite Forall_forall in Htokens. by apply Htokens.
    - destruct Hk as [[-> _]|[-> _]]; unfold plain_name;
        repeat constructor; done. }
  destruct (catalog_entry_write_read s tname nf pk fields_list catalog
              Hcat Hends Hname Hplain Hlen) as [Hread Hends'].
  exists (Schema nf pk fields_list). cbn [num_fields pk_index fields].
  split; [by apply eq_None_not_Some|]. split; [exact Hread|].
  split.
  { unfold type_stored. cbn [num_fields pk_index fields].
    split; [eexists; split; [exact Hread|apply lookup_insert_eq]|].
    split.
    { eapply Forall_impl; [exact Hf|]. intros [[fname ftype] flen] (_ & _ & Hk).
      cbn [fst snd] in *. unfold field_widths_ok. cbn [fst snd].
      destruct Hk as [[-> ->]|[-> ->]]; split; done || lia. }
    split; [lia|]. split; [apply lookup_insert_eq|done]. }
  split; [done|]. split; [done|]. split; [|exact Hends'].
  eapply Forall_impl; [exact Hf|]. by intros f (_ & _ & ?).
Qed.

Lemma catalog_entry_round_trip_witness :
  ∃ catalog',
    read_catalog (write_catalog_entry (str "N") 1 1 [(str "s", kw_str, 20)] fs_T)
    = Ok catalog'
    ∧ catalog' !! str "N" = Some (Schema 1 1 [(str "s", kw_str, 20)])
    ∧ (∀ t, t ≠ str "N" → catalog' !! t = ({[ str "T" := schema_T ]} : gmap _ _) !! t)
    ∧ ends_lines
        (catalog_meta
           (write_catalog_entry (str "N") 1 1 [(str "s", kw_str, 20)] fs_T)).
Proof.
  apply (catalog_entry_round_trip fs_T (str "N") 1 1 [(str "s", kw_str, 20)]
           {[ str "T" := schema_T ]}).
  - vm_compute. reflexivity.
  - right. exists (str "T|1|1|id,int,4"). vm_compute. reflexivity.
  - split; [repeat constructor; done|]. intros c [= <-]. reflexivity.
  - repeat constructor; done.
  - reflexivity.
Defined.

Lemma created_type_is_stored_witness :
  ∃ e, (∅ : gmap (list Z) schema) !! str "T" = None
       ∧ read_catalog fs_T = Ok (<[str "T" := e]> ∅)
       ∧ type_stored fs_T (str "T") e [] 0
       ∧ py_int (str "1") = Some (num_fields e)
       ∧ py_int (str "1") = Some (pk_index e)
       ∧ Forall (λ f, f.1.2 = kw_int ∧ f.2 = 4 ∨ f.1.2 = kw_str ∧ f.2 = 20) (fields e)
       ∧ ends_lines (catalog_meta fs_T).
Proof.
  apply (created_type_is_stored (str "create") (str "type") (str "T") (str "1")
           (str "1") [str "id"; str "int"] fs_empty fs_T ∅).
  - vm_compute. reflexivity.
  - reflexivity.
  - by left.
  - split; [repeat constructor; done|]. intros c [= <-]. reflexivity.
  - repeat constructor; done.
Defined.

(** ** A type name with a [|] *)

Lemma split_when_length_app p x c y :
  p c = true → (2 ≤ length (split_when p (x ++ c :: y)))%nat.
Proof.
  intros Hc. rewrite split_when_app by done. rewrite length_app.
  pose proof (split_when_nonempty p x). pose proof (split_when_nonempty p y).
  destruct (split_when p x), (split_when p y); simpl; try done. lia.
Qed.

(** A field token that is only a number does not read as a field. *)
Lemma number_is_no_field z f : ¬ well_formed_field (str_of_int z) f.
Proof.
  intros (flen_str & Hsplit & _). unfold split_on in Hsplit.
  rewrite split_when_none in Hsplit; [done|].
  eapply Forall_impl; [apply str_of_int_plain|].
  intros c (_ & Hc & _). apply Z.eqb_neq. unfold comma in *. congruence.
Qed.

(** A line whose tokens after the third hold a bare number is no entry. *)
Lemma line_with_number_skipped catalog line t0 t1 t2 flds z :
  split_on bar (strip line) = t0 :: t1 :: t2 :: flds → str_of_int z ∈ flds →
  read_catalog_line catalog line = Ok catalog.
Proof.
  intros Hsplit Hin.
  destruct (read_catalog_line_spec catalog line)
    as [(t & e & (nf_str & pk_str & flds' & Hs & _ & _ & Hf & _) & _)|[_ Hskip]];
    [|done].
  rewrite Hsplit in Hs. injection Hs as <- <- <- <-.
  apply list_elem_of_lookup in Hin as [i Hi].
  destruct (Forall2_lookup_l _ _ _ _ _ Hf Hi) as (f & _ & Hw).
  by destruct (number_is_no_field z f).
Qed.

(** A type whose name holds a [|] is created and lost: the request
    succeeds and writes its line, which [read_catalog] then skips, so the
    catalog reads as before and the type is not in it. *)
Theorem type_name_with_bar_is_lost c1 c2 tname nf_str pk_str field_tokens s s' catalog :
  handle_create_type (c1 :: c2 :: tname :: nf_str :: pk_str :: field_tokens) s
  = (Ok (Success ()), s') →
  read_catalog s = Ok catalog →
  ends_lines (catalog_meta s) →
  bar ∈ tname → Forall (λ c, is_space c = false) tname →
  Forall plain_name field_tokens →
  read_catalog s' = Ok catalog ∧ catalog !! tname = None
  ∧ dat_files s' !! dat_filename tname = Some [].
Proof.
  intros Hrun Hcat Hends Hbar Hspace Htokens. revert Hrun. unfold handle_create_type.
  destruct (len _ <? 6); [done|].
  unfold int_of_str.
  destruct (py_int nf_str) as [nf|] eqn:Hnf; [|done].
  destruct (py_int pk_str) as [pk|] eqn:Hpk; [|done].
  rewrite !bind_Ok.
  destruct ((nf <? 1) || (6 <? nf)) eqn:Hr1; [done|].
  destruct ((pk <? 1) || (nf <? pk)) eqn:Hr2; [done|].
  destruct (12 <? len tname); [done|].
  case_bool_decide as Hcount; [done|].
  rewrite Hcat. case_bool_decide as Hdup; [done|].
  destruct (validate_fields field_tokens (seqZ 0 nf)) as [[e|fields_list]|] eqn:Hv;
    [done| |done].
  intros [= <-]. split; [|split; [by apply eq_None_not_Some|apply lookup_insert_eq]].
  destruct (validate_fields_inv _ _ _ Hv) as [Hl Hf].
  assert (Forall plain_field fields_list) as Hplain.
  { eapply Forall_impl; [exact Hf|]. intros [[fname ftype] flen] (Hin & _ & Hk).
    cbn [fst snd] in *. split; cbn [fst snd].
    - rewrite Forall_forall in Htokens. by apply Htokens.
    - destruct Hk as [[-> _]|[-> _]]; unfold plain_name;
        repeat constructor; done. }
  set (rest := [str_of_int nf; str_of_int pk] ++ (format_field <$> fields_list)).
  assert (Forall (Forall (λ c, c ≠ bar ∧ is_newline c = false)) rest) as Hrest.
  { assert (∀ l, plain_name l → Forall (λ c, c ≠ bar ∧ is_newline c = false) l)
      as Hpl.
    { intros l Hl'. eapply Forall_impl; [exact Hl'|]. by intros c (? & _ & ?). }
    apply Forall_app. split.
    - constructor; [apply Hpl, str_of_int_plain|].
      constructor; [apply Hpl, str_of_int_plain|]. constructor.
    - apply Forall_fmap. eapply Forall_impl; [exact Hplain|].
      intros f Hf'. by destruct (format_field_reads f Hf') as (_ & ? & _). }
  set (entry := join [bar] ([tname; str_of_int nf; str_of_int pk]
                            ++ (format_field <$> fields_list))).
  assert (entry = tname ++ bar :: join [bar] rest) as Hentry by done.
  assert (Forall (λ c, is_newline c = false) entry) as Hnl.
  { rewrite Hentry. apply Forall_app. split.
    - eapply Forall_impl; [exact Hspace|]. intros c Hc. cbv beta in Hc.
      unfold is_space, is_newline in *. lia.
    - constructor; [done|]. apply join_Forall; [by repeat constructor|].
      eapply Forall_impl; [exact Hrest|]. intros part Hp.
      eapply Forall_impl; [exact Hp|]. by intros c [_ ?]. }
  assert (strip entry = entry) as Hstrip.
  { apply strip_id.
    - intros c. rewrite Hentry, head_app.
      destruct tname as [|c0 r]; cbn [head]; [by intros [= <-]|].
      intros [= <-]. by inversion_clear Hspace.
    - intros c. unfold entry.
      destruct (str_of_int_chars pk) as (Hne & _ & Hlast).
      destruct fields_list as [|f0 fl _] using rev_ind.
      + rewrite (join_last [bar] _ (str_of_int pk)) by done.
        intros Hc%Hlast. unfold is_digit, is_space in *. lia.
      + apply Forall_app in Hplain as [_ Hf0]. inversion_clear Hf0 as [|?? Hf0' _].
        destruct (format_field_reads f0 Hf0') as (_ & _ & Hne0 & Hlast0).
        rewrite (join_last [bar] _ (format_field f0)); [apply Hlast0| |done].
        rewrite fmap_app. cbn [fmap list_fmap].
        rewrite app_assoc. apply last_snoc. }
  assert (∃ t0 t1 t2 flds, split_on bar entry = t0 :: t1 :: t2 :: flds
                           ∧ str_of_int pk ∈ flds) as (t0 & t1 & t2 & flds & Hsplit & Hin).
  { assert (split_on bar (join [bar] rest) = rest) as Hsr.
    { apply split_join; [done|]. eapply Forall_impl; [exact Hrest|].
      intros part Hp. eapply Forall_impl; [exact Hp|]. by intros c [? _]. }
    apply list_elem_of_split in Hbar as (a & b & Hab).
    pose proof (split_when_length_app (Z.eqb bar) a bar b ltac:(lia)) as H2.
    rewrite <- Hab in H2.
    unfold split_on in *. rewrite Hentry, split_when_app by lia. rewrite Hsr.
    destruct (split_when (Z.eqb bar) tname) as [|q0 [|q1 qs]];
      [simpl in H2; lia|simpl in H2; lia|].
    unfold rest. destruct qs as [|q2 qs]; cbn [app].
    - eexists _, _, _, _. split; [done|]. by left.
    - eexists _, _, _, _. split; [done|].
      rewrite elem_of_app. right. right. by left. }
  destruct (read_catalog_ends_lines _ Hends) as (lines & Hlines & Hread).
  unfold read_catalog in *. rewrite Hread in Hcat.
  rewrite <- Hstrip in Hsplit.
  assert (read_catalog_lines ∅ (file_lines (catalog_meta s ++ entry ++ [10]))
          = Ok catalog) as Hfinal; [|exact Hfinal].
  rewrite Hlines, file_lines_app.
  unfold file_lines at 1. rewrite split_when_none by done.
  rewrite read_catalog_lines_app, Hcat, bind_Ok.
  change ([entry] ++ file_lines []) with [entry; []].
  cbn [read_catalog_lines].
  rewrite (line_with_number_skipped catalog entry t0 t1 t2 flds pk Hsplit Hin).
  rewrite bind_Ok. reflexivity.
Qed.

Lemma type_name_with_bar_is_lost_witness :
  read_catalog
    (handle_create_type
       [str "create"; str "type"; str "a|b"; str "1"; str "1"; str "x"; str "int"]
       fs_empty).2
  = Ok ∅
  ∧ (∅ : gmap (list Z) schema) !! str "a|b" = None
  ∧ dat_files
      (handle_create_type
         [str "create"; str "type"; str "a|b"; str "1"; str "1"; str "x"; str "int"]
         fs_empty).2 !! dat_filename (str "a|b")
    = Some [].
Proof.
  apply (type_name_with_bar_is_lost (str "create") (str "type") (str "a|b")
           (str "1") (str "1") [str "x"; str "int"] fs_empty _ ∅).
  - vm_compute. reflexivity.
  - reflexivity.
  - by left.
  - vm_compute. apply list_elem_of_further, list_elem_of_here.
  - repeat constructor.
  - repeat constructor; done.
Defined.

(** * What the handlers raise *)





(** A search or a delete for a key that no live record of a stored type
    decodes to fails as record not found, and writes nothing but the
    log. *)
Theorem missing_key_not_found s tname e f n c1 c2 pk_value :
  type_stored s tname e f n →
  Forall byte_value f →
  (∀ k i, live f (compute_record_size (fields e)) k i →
          key_of f (fields e) (pk_index e - 1) k i ≠ Ok pk_value) →
  handle_search_record [c1; c2; tname; pk_value] s
  = (Ok (Failure RecordNotFound),
     log_operation (join [space] [c1; c2; tname; pk_value]) false s)
  ∧ handle_delete_record [c1; c2; tname; pk_value] s
    = (Ok (Failure RecordNotFound),
       log_operation (join [space] [c1; c2; tname; pk_value]) false s).
Proof.
  intros Hst Hbytes Hnone. split; [by eapply handle_search_record_none|].
  destruct (handle_delete_record_cases s tname e f n c1 c2 pk_value Hst)
    as [[_ Hrun]|(k & i & Hlive & Hkey & _)]; [|done|].
  - intros k _. by apply count_of_byte.
  - by destruct (Hnone k i Hlive).
Qed.


Lemma missing_key_not_found_witness :
  handle_search_record [str "search"; str "record"; str "T"; str "8"] fs_T7
  = (Ok (Failure RecordNotFound),
     log_operation (join [space] [str "search"; str "record"; str "T"; str "8"])
       false fs_T7)
  ∧ handle_delete_record [str "search"; str "record"; str "T"; str "8"] fs_T7
    = (Ok (Failure RecordNotFound),
       log_operation (join [space] [str "search"; str "record"; str "T"; str "8"])
         false fs_T7).
Proof.
  apply (missing_key_not_found fs_T7 (str "T") schema_T file_T7 1
           (str "search") (str "record") (str "8") type_stored_T7).
  - unfold byte_value. apply (bool_decide_unpack _). vm_compute. reflexivity.
  - intros k i Hlive Hkey. apply live_T7 in Hlive. injection Hlive as -> ->.
    vm_compute in Hkey. discriminate Hkey.
Defined.

(** * The first record of a type *)

(** The first insert into a stored type whose data file is empty, of
    values that the codec accepts: it succeeds, the file becomes one page
    with a count of one, only the first bitmap entry set and the record
    in slot 0. *)
Theorem first_insert_into_empty_type s tname e c1 c2 values key :
  type_stored s tname e [] 0 →
  Forall2 value_ok (fields e) values →
  py_index values (pk_index e - 1) = Ok key →
  ∃ rec s1 f1,
    pack_record (fields e) values = Ok rec
    ∧ handle_create_record (c1 :: c2 :: tname :: values) s = (Ok (Success ()), s1)
    ∧ type_stored s1 tname e f1 1
    ∧ len f1 = page_size_of (compute_record_size (fields e))
    ∧ count_of f1 (compute_record_size (fields e)) 0 = 1
    ∧ bitmap_of f1 (compute_record_size (fields e)) 0 = 1 :: replicate 9 0
    ∧ record_of f1 (compute_record_size (fields e)) 0 0 = rec.
Proof.
  intros Hst Hvalues Hkey.
  pose proof Hst as ((catalog & Hcat & Ht) & Hw & Hpk & Hf & Hpages).
  pose proof (compute_record_size_pos (fields e) Hw) as Hrs.
  pose proof (read_catalog_entry_count s catalog tname e Hcat Ht) as Hnf.
  assert (headers_consistent [] (compute_record_size (fields e)) 0) as Hcons
    by (intros k Hk; lia).
  destruct (unpack_pack_fields (fields e) values Hw Hvalues) as (packed & Hp & _ & _).
  assert (pack_record (fields e) values = Ok (1 :: packed)) as Hpack
    by (unfold pack_record; by rewrite Hp).
  assert (len values = num_fields e) as Hlen.
  { apply Forall2_length in Hvalues. unfold len in *. lia. }
  assert (find_record_page_slot tname key s = Ok None) as Hfind.
  { eapply fresh_key_not_found; [exact Hst|].
    intros k i Hlive. apply (live_not_past_end [] _ 0 k i Hrs Hpages) in Hlive. lia. }
  destruct (handle_create_record_packed s tname e [] 0 c1 c2 values key (1 :: packed)
              Hst ltac:(intros; lia) Hlen Hkey Hfind Hpack)
    as (Hrec & o & f1 & Hout & Hrun).
  destruct (insert_outcome_post _ [] 0 _ o f1 Hrs Hpages Hcons Hrec Hout)
    as (n1 & Hpages1 & _ & [(_ & _ & _ & ? & _)
         |(-> & k & i & Hk & _ & _ & Hr & _ & _ & Hwhere)]);
    [unfold MAX_PAGES in *; lia|].
  destruct Hwhere as [(_ & ? & _)|(-> & _ & -> & -> & _ & Hc & Hb & _)]; [lia|].
  eexists (1 :: packed), _, f1. split; [done|]. split; [exact Hrun|].
  split; [by eapply type_stored_with_file|].
  split; [destruct Hpages1 as [_ ->]; lia|].
  split; [done|]. split; [done|]. done.
Qed.

Lemma first_insert_into_empty_type_witness :
  ∃ rec s1 f1,
    pack_record (fields schema_T) [str "7"] = Ok rec
    ∧ handle_create_record [str "create"; str "record"; str "T"; str "7"] fs_T
      = (Ok (Success ()), s1)
    ∧ type_stored s1 (str "T") schema_T f1 1
    ∧ len f1 = page_size_of (compute_record_size (fields schema_T))
    ∧ count_of f1 (compute_record_size (fields schema_T)) 0 = 1
    ∧ bitmap_of f1 (compute_record_size (fields schema_T)) 0 = 1 :: replicate 9 0
    ∧ record_of f1 (compute_record_size (fields schema_T)) 0 0 = rec.
Proof.
  apply (first_insert_into_empty_type fs_T (str "T") schema_T
           (str "create") (str "record") [str "7"] (str "7") type_stored_T).
  - constructor; [|constructor]. exists 7. split; [reflexivity|lia].
  - reflexivity.
Defined.

(** * The scan for a free slot *)

(** [find_free_slot_in_page] writes nothing.  On a page whose header the
    file does not hold in full it answers [None]; on a page of the file
    it answers [None] when the count is [NUM_SLOTS] or more, whatever
    the bitmap says, and otherwise the first clear bitmap entry, or
    [None] when no entry is clear. *)
Theorem free_slot_answers fields f rs k :
  0 ≤ rs → 0 ≤ k →
  (len f < k * page_size_of rs + PAGE_HEADER_SIZE →
   find_free_slot_in_page (k * page_size_of rs) fields f = (Ok None, f))
  ∧ ((k + 1) * page_size_of rs ≤ len f →
     ∃ r, find_free_slot_in_page (k * page_size_of rs) fields f = (Ok r, f)
          ∧ (NUM_SLOTS ≤ count_of f rs k → r = None)
          ∧ (count_of f rs k < NUM_SLOTS →
             match r with
             | Some i => first_free_slot f rs k i
             | None => ∀ j, 0 ≤ j < NUM_SLOTS →
                            bitmap_of f rs k !! Z.to_nat j ≠ Some 0
             end)).
Proof.
  intros Hrs Hk. pose proof (page_size_of_pos rs Hrs) as Hps. split.
  - intros Hshort. unfold find_free_slot_in_page.
    unfold mbind, io_bind, io_read.
    rewrite read_at_range by (unfold PAGE_HEADER_SIZE, NUM_SLOTS; nia).
    assert ((len (file_range f (k * page_size_of rs) PAGE_HEADER_SIZE)
             <? PAGE_HEADER_SIZE) = true) as ->; [|done].
    assert (0 ≤ k * page_size_of rs) by nia.
    unfold file_range, len in *. rewrite length_take, length_drop.
    unfold PAGE_HEADER_SIZE, NUM_SLOTS in *. apply Z.ltb_lt.
    pose proof (Nat.le_min_r (Z.to_nat (1 + 10))
                  (length f - Z.to_nat (k * page_size_of rs))).
    lia.
  - intros Hin.
    destruct (find_free_slot_spec rs Hrs fields f k Hk Hin) as (r & Hr & Hspec).
    exists r. split; [done|]. split.
    + intros Hfull. destruct r as [i|]; [|done].
      destruct Hspec as (? & _). lia.
    + intros Hroom. destruct r as [i|]; [done|].
      destruct Hspec as [?|Hnone]; [lia|done].
Qed.

Lemma free_slot_answers_witness :
  find_free_slot_in_page (1 * page_size_of 5) (fields schema_T) file_T7
  = (Ok None, file_T7)
  ∧ ∃ r, find_free_slot_in_page (0 * page_size_of 5) (fields schema_T) file_T7
         = (Ok r, file_T7)
         ∧ (count_of file_T7 5 0 < NUM_SLOTS →
            match r with
            | Some i => first_free_slot file_T7 5 0 i
            | None => ∀ j, 0 ≤ j < NUM_SLOTS →
                           bitmap_of file_T7 5 0 !! Z.to_nat j ≠ Some 0
            end).
Proof.
  assert (len file_T7 = 61) as Hlen by (vm_compute; reflexivity).
  assert (page_size_of 5 = 61) as Hps by reflexivity.
  split.
  - apply (free_slot_answers (fields schema_T) file_T7 5 1); [lia|lia|].
    rewrite Hlen, Hps. unfold PAGE_HEADER_SIZE, NUM_SLOTS. lia.
  - destruct (free_slot_answers (fields schema_T) file_T7 5 0) as [_ Hin];
      [lia|lia|].
    destruct Hin as (r & Hr & _ & Hroom); [rewrite Hlen, Hps; lia|].
    exists r. split; [exact Hr|exact Hroom].
Defined.

(** * Inserts without deletes *)

(** A bitmap of ten entries that counts ten set entries has no clear
    entry. *)
Lemma full_bitmap_no_zero (b : list Z) (j : nat) :
  length b = 10%nat → 10 ≤ set_entries b → b !! j ≠ Some 0.
Proof.
  intros Hl Hc Hj.
  pose proof (set_entries_insert b j 0 1 Hj) as Hins.
  pose proof (set_entries_le (<[j := 1]> b)) as Hle.
  unfold len in Hle. rewrite length_insert, Hl in Hle.
  rewrite bool_decide_eq_false_2, bool_decide_eq_true_2 in Hins by done. lia.
Qed.

Section dense_files.
Context (rs : Z) (Hrs : 1 ≤ rs).
Context (f : list Z) (m : Z).
Context (Hpages : whole_pages f rs ((m + 9) / 10)) (Hdense : dense f rs m).

(** A full page of a dense file lies before record [m]. *)
Lemma dense_page_full k :
  0 ≤ k < (m + 9) / 10 → page_full f rs k → 10 * k + 9 < m.
Proof using Hrs Hpages Hdense.
  intros Hk Hfull. destruct Hdense as (Hm & Hcons & Hbits).
  pose proof (page_in_file rs Hrs f _ k Hpages Hk) as Hin.
  destruct (header_of_split rs ltac:(lia) f k ltac:(lia) Hin) as [_ Hl].
  assert (bitmap_of f rs k !! Z.to_nat 9 ≠ Some 0) as Hnz.
  { destruct Hfull as [Hc|Hnz].
    - apply full_bitmap_no_zero; [done|]. rewrite <- (Hcons k Hk).
      unfold NUM_SLOTS in Hc. lia.
    - apply Hnz. unfold NUM_SLOTS. lia. }
  rewrite (Hbits k 9 Hk ltac:(unfold NUM_SLOTS; lia)) in Hnz.
  destruct (10 * k + 9 <? m) eqn:Hlt; [lia|done].
Qed.

(** The first free slot of a dense file is slot [m], in file order. *)
Lemma dense_first_free k i :
  0 ≤ k < (m + 9) / 10 → (∀ j, 0 ≤ j < k → page_full f rs j) →
  first_free_slot f rs k i → m = 10 * k + i ∧ 0 < i < NUM_SLOTS.
Proof using Hrs Hpages Hdense.
  intros Hk Hfull (_ & Hi & Hz & Hfirst).
  pose proof Hdense as (Hm & Hcons & Hbits).
  rewrite (Hbits k i Hk Hi) in Hz.
  destruct (10 * k + i <? m) eqn:Hlt; [done|]. apply Z.ltb_ge in Hlt.
  assert (m = 10 * k + i) as Hmk.
  { destruct (decide (i = 0)) as [->|Hne].
    - destruct (decide (k = 0)) as [->|Hk0]; [lia|].
      pose proof (dense_page_full (k - 1) ltac:(lia) (Hfull (k - 1) ltac:(lia))). lia.
    - pose proof (Hfirst (i - 1) ltac:(lia)) as Hnz.
      rewrite (Hbits k (i - 1) Hk ltac:(lia)) in Hnz.
      destruct (10 * k + (i - 1) <? m) eqn:Hlt'; [lia|done]. }
  split; [done|]. unfold NUM_SLOTS in *. dlia.
Qed.

(** The [with] block of [handle_create_record] on a dense file of [m]
    records: below the ceiling the record becomes record [m] of a dense
    file; at ten records on each of [MAX_PAGES] pages the file is
    left. *)
Lemma insert_outcome_dense record_bytes o f' :
  len record_bytes = rs →
  insert_outcome f rs ((m + 9) / 10) record_bytes o f' →
  (o = Failure CapacityExceeded ∧ 10 * MAX_PAGES ≤ m ∧ f' = f)
  ∨ (o = Success () ∧ (m < 10 * MAX_PAGES ∨ m mod 10 ≠ 0)
     ∧ whole_pages f' rs ((m + 1 + 9) / 10) ∧ dense f' rs (m + 1)
     ∧ record_of f' rs (m / 10) (m mod 10) = record_bytes).
Proof using Hrs Hpages Hdense.
  intros Hrec Hout. pose proof Hdense as (Hm & Hcons & Hbits).
  destruct Hout as [(Hn & -> & ->)|[(Hn & -> & k & i & Hk & Hfull & Hfree & ->)
                   |[(Hn & Hfull & -> & ->)|(Hn & Hfull & -> & ->)]]].
  - (* the first page of an empty file *)
    assert (m = 0) as -> by dlia. right.
    destruct (zero_page_pages rs Hrs) as [Hzp _].
    assert (headers_consistent (zero_page rs) rs 1) as Hzc.
    { intros k Hk. replace k with 0 by lia.
      unfold header_consistent, count_of, bitmap_of.
      by rewrite (zero_page_header rs Hrs). }
    assert (first_free_slot (zero_page rs) rs 0 0) as Hfree
      by (by apply zero_page_first_free).
    destruct (place_record_post rs Hrs (zero_page rs) 1 Hzp Hzc 0 0 record_bytes
                ltac:(lia) Hfree Hrec) as (Hp' & Hc' & _ & Hbitmap & _ & Hr & _ & _).
    change ((0 + 1 + 9) / 10) with 1. change (0 / 10) with 0. change (0 mod 10) with 0.
    split; [done|]. split; [unfold MAX_PAGES; lia|]. split; [done|].
    split; [|done]. split; [lia|]. change ((0 + 1 + 9) / 10) with 1.
    split; [done|]. intros k i Hk Hi. replace k with 0 by lia.
    rewrite Hbitmap. unfold bitmap_of. rewrite (zero_page_header rs Hrs).
    unfold NUM_SLOTS in Hi.
    assert (i = 0 ∨ i = 1 ∨ i = 2 ∨ i = 3 ∨ i = 4 ∨ i = 5 ∨ i = 6 ∨ i = 7
            ∨ i = 8 ∨ i = 9) as Hcases by lia.
    repeat (destruct Hcases as [->|Hcases]; [reflexivity|]). by subst i.
  - (* into the first free slot *)
    destruct (dense_first_free k i Hk Hfull Hfree) as [Hmk Hi]. right.
    assert ((m + 1 + 9) / 10 = (m + 9) / 10) as Hsame by (unfold NUM_SLOTS in Hi; dlia).
    assert (m / 10 = k ∧ m mod 10 = i) as [Hq Hr'] by (unfold NUM_SLOTS in Hi; dlia).
    destruct (place_record_post rs Hrs f _ Hpages Hcons k i record_bytes
                Hk Hfree Hrec) as (Hp' & Hc' & _ & Hbitmap & _ & Hr & _ & _).
    pose proof (page_in_file rs Hrs f _ k Hpages Hk) as Hin.
    destruct (header_of_split rs ltac:(lia) f k ltac:(lia) Hin) as [_ Hl].
    rewrite Hsame, Hq, Hr'. split; [done|]. split; [right; lia|]. split; [done|].
    split; [|done]. split; [lia|]. rewrite Hsame. split; [done|].
    intros k' j Hk' Hj. destruct (decide (k' = k)) as [->|Hne].
    + rewrite Hbitmap. destruct (decide (j = i)) as [->|Hji].
      * rewrite list_lookup_insert_eq by (unfold NUM_SLOTS in *; lia).
        by rewrite (proj2 (Z.ltb_lt _ _)) by lia.
      * rewrite list_lookup_insert_ne by (unfold NUM_SLOTS in *; lia). rewrite (Hbits k j Hk' Hj).
        f_equal. destruct (10 * k + j <? m) eqn:H1, (10 * k + j <? m + 1) eqn:H2;
          try done; lia.
    + pose proof (place_record_header rs Hrs f _ k i record_bytes Hpages Hk
                    ltac:(lia) Hrec k' ltac:(lia)) as Hh.
      rewrite decide_False in Hh by done.
      unfold bitmap_of in *. rewrite Hh, (Hbits k' j Hk' Hj).
      f_equal. unfold NUM_SLOTS in *.
      destruct (10 * k' + j <? m) eqn:H1, (10 * k' + j <? m + 1) eqn:H2;
        try done; lia.
  - (* a new page *)
    pose proof (dense_page_full ((m + 9) / 10 - 1) ltac:(lia)
                  (Hfull ((m + 9) / 10 - 1) ltac:(lia))) as Hlast.
    assert (m = 10 * ((m + 9) / 10)) as Hmn by dlia.
    assert ((m + 1 + 9) / 10 = (m + 9) / 10 + 1) as Hnext by dlia.
    assert (m / 10 = (m + 9) / 10 ∧ m mod 10 = 0) as [Hq Hr'] by dlia.
    destruct (append_post rs Hrs f _ Hpages Hcons record_bytes Hrec)
      as (Hp' & Hc' & _ & Hbitmap & _ & Hr & _ & _).
    right. rewrite Hnext, Hq, Hr'. split; [done|].
    split; [left; unfold MAX_PAGES in *; lia|]. split; [done|].
    split; [|done]. split; [lia|]. rewrite Hnext. split; [done|].
    intros k' j Hk' Hj. destruct (decide (k' = (m + 9) / 10)) as [->|Hne].
    + rewrite Hbitmap. unfold NUM_SLOTS in Hj.
      assert (j = 0 ∨ j = 1 ∨ j = 2 ∨ j = 3 ∨ j = 4 ∨ j = 5 ∨ j = 6 ∨ j = 7
              ∨ j = 8 ∨ j = 9) as Hcases by lia.
      repeat (destruct Hcases as [->|Hcases];
              [destruct (_ <? _) eqn:Hlt in |- *; [try done; lia|try done; lia]|]).
      subst j. destruct (_ <? _) eqn:Hlt in |- *; [try done; lia|try done; lia].
    + pose proof (append_header rs Hrs f _ record_bytes Hpages Hrec k' ltac:(lia)) as Hh.
      rewrite decide_False in Hh by done.
      unfold bitmap_of in *. rewrite Hh, (Hbits k' j ltac:(lia) Hj).
      f_equal. unfold NUM_SLOTS in *.
      destruct (10 * k' + j <? m) eqn:H1, (10 * k' + j <? m + 1) eqn:H2;
        try done; lia.
  - (* no page left *)
    left. split; [done|]. split; [|done].
    assert (0 ≤ (m + 9) / 10 - 1 < (m + 9) / 10) as Hk
      by (unfold MAX_PAGES in *; lia).
    pose proof (dense_page_full ((m + 9) / 10 - 1) Hk
                  (Hfull ((m + 9) / 10 - 1) Hk)) as Hlast.
    unfold MAX_PAGES in *. dlia.
Qed.

End dense_files.

(** A type that saw no delete fills its slots in file order.  On a
    stored type whose data file is dense with [m] records, the insert of
    values that pack, under a key that no live record has, succeeds while
    [m] is below ten times [MAX_PAGES]: the record becomes record [m],
    in slot [m mod 10] of page [m / 10], of a file that is dense with
    [m + 1] records.  At ten times [MAX_PAGES] records the insert fails
    with [CapacityExceeded] and the data file is as it was. *)
Theorem records_fill_slots_in_order s tname e f m c1 c2 values pk_value rec :
  type_stored s tname e f ((m + 9) / 10) →
  dense f (compute_record_size (fields e)) m →
  len values = num_fields e →
  py_index values (pk_index e - 1) = Ok pk_value →
  (∀ k i, live f (compute_record_size (fields e)) k i →
          key_of f (fields e) (pk_index e - 1) k i ≠ Ok pk_value) →
  pack_record (fields e) values = Ok rec →
  let run := handle_create_record (c1 :: c2 :: tname :: values) s in
  (m < 10 * MAX_PAGES →
   ∃ f1,
     run = (Ok (Success ()),
            log_operation (join [space] (c1 :: c2 :: tname :: values)) true
              (with_file s tname f1))
     ∧ type_stored run.2 tname e f1 ((m + 1 + 9) / 10)
     ∧ dense f1 (compute_record_size (fields e)) (m + 1)
     ∧ record_of f1 (compute_record_size (fields e)) (m / 10) (m mod 10) = rec)
  ∧ (m = 10 * MAX_PAGES →
     run.1 = Ok (Failure CapacityExceeded)
     ∧ dat_files run.2 !! dat_filename tname = Some f).
Proof.
  intros Hst Hdense Hlen Hpkv Hfresh Hpack run.
  pose proof Hst as (_ & Hw & _ & _ & Hpages).
  pose proof (compute_record_size_pos (fields e) Hw) as Hrs.
  pose proof Hdense as (Hm & Hcons & _).
  assert (∀ k, 0 ≤ k < (m + 9) / 10 →
               0 ≤ count_of f (compute_record_size (fields e)) k) as Hcounts.
  { intros k Hk. pose proof (headers_count_bounds f _ _ k Hrs Hpages Hcons Hk). lia. }
  pose proof (fresh_key_not_found s tname e f _ pk_value Hst Hfresh) as Hfind.
  destruct (handle_create_record_packed s tname e f _ c1 c2 values pk_value rec
              Hst Hcounts Hlen Hpkv Hfind Hpack) as (Hrec & o & f1 & Hout & Hrun).
  fold run in Hrun.
  destruct (insert_outcome_dense _ Hrs f m Hpages Hdense rec o f1 Hrec Hout)
    as [(-> & Hfull & ->)|(-> & Hroom & Hpages1 & Hdense1 & Hr)].
  - split; [lia|]. intros _. rewrite Hrun. split; [done|].
    simpl. apply lookup_insert_eq.
  - split.
    + intros _. exists f1. split; [done|]. split; [|done].
      rewrite Hrun. by eapply type_stored_with_file.
    + intros ->. destruct Hroom as [?|Hmod]; [lia|].
      by destruct Hmod.
Qed.

Lemma records_fill_slots_in_order_witness :
  ∃ f1,
    handle_create_record [str "create"; str "record"; str "T"; str "7"] fs_T
    = (Ok (Success ()),
       log_operation (join [space] [str "create"; str "record"; str "T"; str "7"])
         true (with_file fs_T (str "T") f1))
    ∧ type_stored
        (handle_create_record [str "create"; str "record"; str "T"; str "7"] fs_T).2
        (str "T") schema_T f1 1
    ∧ dense f1 (compute_record_size (fields schema_T)) 1
    ∧ record_of f1 (compute_record_size (fields schema_T)) 0 0 = record_7.
Proof.
  refine (proj1 (records_fill_slots_in_order fs_T (str "T") schema_T [] 0
                   (str "create") (str "record") [str "7"] (str "7") record_7
                   type_stored_T _ _ _ _ _) _).
  - split; [lia|]. change ((0 + 9) / 10) with 0. split; intros k; intros; lia.
  - reflexivity.
  - reflexivity.
  - intros k i (Hk & Hin & _). change (len []) with 0 in Hin.
    pose proof (page_size_of_pos (compute_record_size (fields schema_T))
                  ltac:(vm_compute; discriminate)). nia.
  - reflexivity.
  - unfold MAX_PAGES. lia.
Defined.
